(** * The esbuild executor of nx-plugins: its result streams, in Rocq

    The executor ([buildExecutor], packages/nx-plugin-esbuild) drives two
    event producers, the bundler ([runESBuild]) and the type checker
    ([runTSC]), and combines what they report into one stream of
    [ExecutorResponse] values.  The pipeline is written with rxjs 6
    operators.  An Observable is modelled by the notifications it
    delivers, and an operator by the transition function of its
    subscriber: one arriving notification, the old state, the new state
    and the notifications passed downstream at that very instant.  A run
    is the list of the notifications of the two backends in the order the
    single thread receives them.

    The operators of rxjs ([map], [tap], [catchError] with [of], [merge],
    [zip], [startWith], [toPromise]) follow rxjs 6; a subscriber that has
    seen an error or a completion ignores what comes after.  The helpers
    that esbuild.ts imports from other files are parameters
    ([Collaborators]), except [bufferUntil], which is written from the
    specification.

    Not modelled: what [buildExecutor] does before it builds the streams
    (normalising the options, the notice for browser builds, cleaning the
    output path).

    Strings are Rocq strings; a character stands for the UTF-16 code unit
    of the same number (0..255). *)

From Stdlib Require Import String Ascii List Bool Arith Lia DecimalString.
Import ListNotations.
Open Scope string_scope.
Open Scope list_scope.

Set Implicit Arguments.

(** ** JavaScript strings: [includes], [join], and the marker regex *)

Module JS.

(** [s.includes(t)] *)
Fixpoint includes (s t : string) : bool :=
  if String.prefix t s then true
  else match s with
       | EmptyString => false
       | String _ s' => includes s' t
       end.

(** [xs.join(sep)] *)
Fixpoint join (sep : string) (xs : list string) : string :=
  match xs with
  | [] => ""
  | [x] => x
  | x :: rest => x ++ sep ++ join sep rest
  end.

(** [\s] on code units below 256: TAB, LF, VT, FF, CR, SP and NBSP. *)
Definition is_space (c : ascii) : bool :=
  let n := nat_of_ascii c in
  ((9 <=? n)%nat && (n <=? 13)%nat) || (n =? 32)%nat || (n =? 160)%nat.

(** [\d] *)
Definition is_digit (c : ascii) : bool :=
  let n := nat_of_ascii c in
  (48 <=? n)%nat && (n <=? 57)%nat.

(** Remove the literal [lit] from the front of [s]. *)
Fixpoint strip (lit s : string) : option string :=
  match lit with
  | EmptyString => Some s
  | String a lit' =>
      match s with
      | String b s' => if Ascii.eqb a b then strip lit' s' else None
      | EmptyString => None
      end
  end.

(** The longest run of digits at the front of [s], and what follows. *)
Fixpoint span_digits (s : string) : string * string :=
  match s with
  | String c s' =>
      if is_digit c
      then let (ds, rest) := span_digits s' in (String c ds, rest)
      else (EmptyString, s)
  | EmptyString => (EmptyString, EmptyString)
  end.

Definition one_space (s : string) : option string :=
  match s with
  | String c s' => if is_space c then Some s' else None
  | EmptyString => None
  end.

(** [/Found\s\d*\serror/] anchored at the front of [s]; the result is
    the text matched by [\d*].  A digit is never a space, so the greedy
    [\d*] needs no backtracking. *)
Definition marker_at (s : string) : option string :=
  match strip "Found" s with
  | None => None
  | Some s1 =>
      match one_space s1 with
      | None => None
      | Some s2 =>
          let (ds, s3) := span_digits s2 in
          match one_space s3 with
          | None => None
          | Some s4 => if String.prefix "error" s4 then Some ds else None
          end
      end
  end.

(** [s.match(/Found\s\d*\serror/)]: the leftmost match, as the digits
    it matched; [None] is JavaScript's [null]. *)
Fixpoint match_marker (s : string) : option string :=
  match marker_at s with
  | Some ds => Some ds
  | None =>
      match s with
      | EmptyString => None
      | String _ s' => match_marker s'
      end
  end.

Definition matches_marker (s : string) : bool :=
  match match_marker s with Some _ => true | None => false end.

(** [Boolean(s)] for a string or [null]/[undefined]. *)
Definition truthy (o : option string) : bool :=
  match o with
  | Some EmptyString => false
  | Some _ => true
  | None => false
  end.

(** [`${n}`] for a counter. *)
Definition show (n : nat) : string := NilEmpty.string_of_uint (Nat.to_uint n).

End JS.

(** ** Data model (./lib/types and the shapes used by esbuild.ts) *)

(** What an Observable delivers to its subscriber. [Error] carries the
    raw error value, kept as text. *)
Inductive notification (A : Type) : Type :=
| Next (value : A)
| Error (err : string)
| Complete.

Arguments Error {A} err.
Arguments Complete {A}.

(** An opaque JavaScript object (esbuild's BuildResult, BuildFailure):
    always truthy. *)
Inductive JSObject : Type := Obj (repr : string).

(** One [{ buildResult, buildFailure }] event of [runESBuild]. *)
Record RawBundlerEvent : Type := {
  buildResult : option JSObject;
  buildFailure : option JSObject
}.

(** One [{ info, error, end }] chunk of [runTSC]. *)
Record TscFragment : Type := {
  info : option string;
  error : option string;
  end_ : option bool
}.

(** [RunnerSubcriber] (the name is the source's). *)
Record RunnerSubcriber : Type := {
  success : bool;
  messageFragments : list string
}.

(** [ExecutorResponse]; [outfile = None] is [undefined]. *)
Record ExecutorResponse : Type := {
  build_success : bool;
  outfile : option string
}.

(** A fragment as the first [map] of [tscSubscriber] returns it:
    [{ info, error, end, hasErrors, messageFragments }]. *)
Record CheckedFragment : Type := {
  fragment : TscFragment;
  hasErrors : bool;
  lines : list string
}.

(** The fields of the normalized options that the pipeline reads. *)
Record Options : Type := {
  outputPath : string;
  watch : bool;
  skipTypeCheck : bool;
  useMergeCombine : bool
}.

(** Helpers that esbuild.ts imports and whose code is elsewhere:
    ./lib/log, ./lib/message-fragments, chalk and Node's path.  The
    collectors push onto the empty array they are handed; they are taken
    as the list of lines pushed. *)
Record Collaborators : Type := {
  pluginTitle : string -> string;
  buildTimes : string -> string;
  timeStamp : string -> string;
  collectESBuildRunnerMessages : RawBundlerEvent -> string -> list string;
  collectTSCRunnerMessages : TscFragment -> string -> list string;
  chalk_blue : string -> string;
  path_join : string -> string -> string
}.

(** Which producer a notification comes from. *)
Inductive source : Type := Bundler | TypeChecker.

Definition source_eqb (a b : source) : bool :=
  match a, b with
  | Bundler, Bundler | TypeChecker, TypeChecker => true
  | _, _ => false
  end.

(** One event of a run: a notification of one of the two backends, with
    the wall clock ([dayjs().format('H:mm:ss A')]) at that instant.  A run
    is the list of these in the order the single thread sees them. *)
Inductive arrival : Type :=
| FromESBuild (now : string) (n : notification RawBundlerEvent)
| FromTSC (now : string) (n : notification TscFragment).

(** What the caller can observe: a line on the console, or a notification
    of the combined stream. *)
Inductive effect : Type :=
| Log (line : string)
| Emit (n : notification ExecutorResponse).

(** ** Running a subscriber over a list of notifications *)

Section Run.
Variables (St In Out : Type).
Variable step : St -> In -> St * list Out.

Fixpoint run (st : St) (xs : list In) : list Out :=
  match xs with
  | [] => []
  | x :: xs' => snd (step st x) ++ run (fst (step st x)) xs'
  end.

Fixpoint state_after (st : St) (xs : list In) : St :=
  match xs with
  | [] => st
  | x :: xs' => state_after (fst (step st x)) xs'
  end.

End Run.

(** The values among notifications. *)
Fixpoint values (A : Type) (ns : list (notification A)) : list A :=
  match ns with
  | [] => []
  | Next v :: ns' => v :: values ns'
  | _ :: ns' => values ns'
  end.

(** ** bufferUntil (nx-plugin-devkit) *)

(** Modelled from the spec: [bufferUntil] of nx-plugin-devkit, whose code
    is not among the sources.  The spec (4.1): keep an accumulator, append
    each incoming item, evaluate the predicate on the current item after
    appending; when it holds, emit the accumulated batch and reset the
    accumulator to empty.  The result is the new accumulator and the batch
    emitted, if any. *)
Definition bufferUntil (A : Type) (notifier : A -> bool) (acc : list A) (x : A)
  : list A * option (list A) :=
  let acc' := acc ++ [x] in
  if notifier x then ([], Some acc') else (acc', None).

(** [bufferUntil] over a whole list of items: the batches emitted and the
    accumulator left.  When the source ends the accumulator is dropped
    (spec 4.1), so only the batches are ever seen downstream. *)
Fixpoint bufferUntil_all (A : Type) (notifier : A -> bool) (acc : list A) (xs : list A)
  : list (list A) * list A :=
  match xs with
  | [] => ([], acc)
  | x :: xs' =>
      match bufferUntil notifier acc x with
      | (acc', Some batch) =>
          let (bs, r) := bufferUntil_all notifier acc' xs' in (batch :: bs, r)
      | (acc', None) => bufferUntil_all notifier acc' xs'
      end
  end.

(** ** The executor (esbuild.ts) *)

Definition newline : string := String (ascii_of_nat 10) EmptyString.

(** [!!text?.match(/Found\s\d*\serror/)] *)
Definition found_marker (text : option string) : bool :=
  match text with
  | Some s => JS.matches_marker s
  | None => false
  end.

(** [!values.find((value) => value.hasErrors)] and the flattened lines:
    the last [map] of [tscSubscriber]. *)
Definition foldCycle (batch : list CheckedFragment) : RunnerSubcriber :=
  {| success := match find hasErrors batch with Some _ => false | None => true end;
     messageFragments := concat (map lines batch) |}.

(** The predicate handed to [bufferUntil]. *)
Definition cycleComplete (v : CheckedFragment) : bool :=
  found_marker (info (fragment v)) || found_marker (error (fragment v)).

(** State of the bundler adapter: the closure variable [buildCounter] and
    whether its subscriber has seen a terminal notification. *)
Record ESState : Type := { buildCounter : nat; esStopped : bool }.

(** State of the type-checker adapter: [typeCounter], the accumulator of
    [bufferUntil], and whether the subscriber has stopped. *)
Record TSCState : Type := {
  typeCounter : nat;
  accumulator : list CheckedFragment;
  tscStopped : bool
}.

Record Adapters : Type := { es : ESState; tsc : TSCState }.

(** rxjs [merge] of two sources. *)
Record MergeState : Type := {
  bundlerActive : bool;
  checkerActive : bool;
  mergeStopped : bool
}.

(** rxjs [zip] of two sources: one buffer per source ([ZipBufferIterator]),
    its [isComplete] flag, and whether the outer subscriber has stopped. *)
Record ZipState : Type := {
  bundlerBuffer : list RunnerSubcriber;
  checkerBuffer : list RunnerSubcriber;
  bundlerComplete : bool;
  checkerComplete : bool;
  zipStopped : bool
}.

(** How a Promise made by [toPromise] stands. *)
Inductive settled (A : Type) : Type :=
| Resolved (value : option A)
| Rejected (err : string)
| Pending.

Arguments Rejected {A} err.
Arguments Pending {A}.

(** What [buildExecutor] hands back: a Promise, or the async iterator of
    [eachValueFrom], given by what it yields. *)
Inductive ExecutorResult : Type :=
| AsPromise (p : settled ExecutorResponse)
| AsIterator (yields : list (notification ExecutorResponse)).

(** [Observable.prototype.toPromise] of rxjs 6: every value overwrites the
    one kept, completion resolves with the value kept ([undefined] when
    there is none), an error rejects. *)
Fixpoint toPromise_from (A : Type) (kept : option A) (ns : list (notification A)) : settled A :=
  match ns with
  | [] => Pending
  | Next v :: ns' => toPromise_from (Some v) ns'
  | Error e :: _ => Rejected e
  | Complete :: _ => Resolved kept
  end.

Definition toPromise (A : Type) (ns : list (notification A)) : settled A :=
  toPromise_from None ns.

Fixpoint emitted (effs : list effect) : list (notification ExecutorResponse) :=
  match effs with
  | [] => []
  | Emit n :: effs' => n :: emitted effs'
  | Log _ :: effs' => emitted effs'
  end.

Fixpoint logged (effs : list effect) : list string :=
  match effs with
  | [] => []
  | Log l :: effs' => l :: logged effs'
  | Emit _ :: effs' => logged effs'
  end.

Definition is_nil (A : Type) (l : list A) : bool :=
  match l with [] => true | _ :: _ => false end.

Definition merge_init : MergeState :=
  {| bundlerActive := true; checkerActive := true; mergeStopped := false |}.

Definition merge_active (s : source) (st : MergeState) : bool :=
  match s with Bundler => bundlerActive st | TypeChecker => checkerActive st end.

(** [merge(a, b)]: every value goes through at once, an error of either
    source is passed on, completion waits for both. *)
Definition merge_step (st : MergeState) (t : source * notification RunnerSubcriber)
  : MergeState * list (notification RunnerSubcriber) :=
  if mergeStopped st || negb (merge_active (fst t) st) then (st, [])
  else
    match snd t with
    | Next v => (st, [Next v])
    | Error e =>
        ({| bundlerActive := bundlerActive st; checkerActive := checkerActive st;
            mergeStopped := true |}, [Error e])
    | Complete =>
        let b := match fst t with Bundler => false | TypeChecker => bundlerActive st end in
        let c := match fst t with Bundler => checkerActive st | TypeChecker => false end in
        if b || c
        then ({| bundlerActive := b; checkerActive := c; mergeStopped := false |}, [])
        else ({| bundlerActive := b; checkerActive := c; mergeStopped := true |}, [Complete])
    end.

Definition zip_init : ZipState :=
  {| bundlerBuffer := []; checkerBuffer := [];
     bundlerComplete := false; checkerComplete := false; zipStopped := false |}.

(** [ZipSubscriber.checkIterators]: when both buffers hold a value, shift
    one off each and emit the pair; complete if a source that has
    completed is now drained. *)
Definition checkIterators (st : ZipState)
  : ZipState * list (notification (RunnerSubcriber * RunnerSubcriber)) :=
  match bundlerBuffer st, checkerBuffer st with
  | b :: bs, t :: ts =>
      let shouldComplete :=
        (is_nil bs && bundlerComplete st) || (is_nil ts && checkerComplete st) in
      ({| bundlerBuffer := bs; checkerBuffer := ts;
          bundlerComplete := bundlerComplete st; checkerComplete := checkerComplete st;
          zipStopped := shouldComplete |},
       if shouldComplete then [Next (b, t); Complete] else [Next (b, t)])
  | _, _ => (st, [])
  end.

Definition zip_stop (st : ZipState) : ZipState :=
  {| bundlerBuffer := bundlerBuffer st; checkerBuffer := checkerBuffer st;
     bundlerComplete := bundlerComplete st; checkerComplete := checkerComplete st;
     zipStopped := true |}.

(** [zip(a, b)], the first component from [a = esBuildSubscriber]. *)
Definition zip_step (st : ZipState) (t : source * notification RunnerSubcriber)
  : ZipState * list (notification (RunnerSubcriber * RunnerSubcriber)) :=
  if zipStopped st then (st, [])
  else
    match fst t with
    | Bundler =>
        if bundlerComplete st then (st, [])
        else
          match snd t with
          | Next v =>
              checkIterators
                {| bundlerBuffer := bundlerBuffer st ++ [v]; checkerBuffer := checkerBuffer st;
                   bundlerComplete := false; checkerComplete := checkerComplete st;
                   zipStopped := false |}
          | Error e => (zip_stop st, [Error e])
          | Complete =>
              if is_nil (bundlerBuffer st) then (zip_stop st, [Complete])
              else
                ({| bundlerBuffer := bundlerBuffer st; checkerBuffer := checkerBuffer st;
                    bundlerComplete := true; checkerComplete := checkerComplete st;
                    zipStopped := checkerComplete st |},
                 if checkerComplete st then [Complete] else [])
          end
    | TypeChecker =>
        if checkerComplete st then (st, [])
        else
          match snd t with
          | Next v =>
              checkIterators
                {| bundlerBuffer := bundlerBuffer st; checkerBuffer := checkerBuffer st ++ [v];
                   bundlerComplete := bundlerComplete st; checkerComplete := false;
                   zipStopped := false |}
          | Error e => (zip_stop st, [Error e])
          | Complete =>
              if is_nil (checkerBuffer st) then (zip_stop st, [Complete])
              else
                ({| bundlerBuffer := bundlerBuffer st; checkerBuffer := checkerBuffer st;
                    bundlerComplete := bundlerComplete st; checkerComplete := true;
                    zipStopped := bundlerComplete st |},
                 if bundlerComplete st then [Complete] else [])
          end
    end.

Section Executor.
Variable ext : Collaborators.

(** [prefixESBuild()] when [buildCounter] has the given value. *)
Definition prefixESBuild (counter : nat) (now : string) : string :=
  pluginTitle ext "nx-plugin-esbuild" ++ " ESBuild "
    ++ buildTimes ext ("[" ++ JS.show counter ++ "]") ++ " " ++ timeStamp ext now.

(** [prefixTsc()] when [typeCounter] has the given value. *)
Definition prefixTsc (counter : nat) (now : string) : string :=
  pluginTitle ext "nx-plugin-esbuild" ++ " TSC "
    ++ buildTimes ext ("[" ++ JS.show counter ++ "]") ++ " " ++ timeStamp ext now.

(** [let buildCounter = 1] *)
Definition es_init : ESState := {| buildCounter := 1; esStopped := false |}.

(** [esBuildSubscriber]: [tap(() => buildCounter++)], then the [map] that
    collects the messages under [prefixESBuild()]. *)
Definition esBuildSubscriber (st : ESState) (now : string) (n : notification RawBundlerEvent)
  : ESState * list (notification RunnerSubcriber) :=
  if esStopped st then (st, [])
  else
    match n with
    | Next ev =>
        let counter := S (buildCounter st) in
        ({| buildCounter := counter; esStopped := false |},
         [Next {| success := match buildFailure ev with Some _ => false | None => true end;
                  messageFragments :=
                    collectESBuildRunnerMessages ext ev (prefixESBuild counter now) |}])
    | Error e => ({| buildCounter := buildCounter st; esStopped := true |}, [Error e])
    | Complete => ({| buildCounter := buildCounter st; esStopped := true |}, [Complete])
    end.

(** The first [map] of [tscSubscriber]. *)
Definition checkFragment (counter : nat) (now : string) (res : TscFragment) : CheckedFragment :=
  let hasErrors0 := JS.truthy (error res) in
  {| fragment := res;
     hasErrors :=
       if JS.truthy (info res) && found_marker (info res)
          && negb (match info res with
                   | Some i => JS.includes i "Found 0 errors"
                   | None => false
                   end)
       then true else hasErrors0;
     lines := collectTSCRunnerMessages ext res (prefixTsc counter now) |}.

(** [let typeCounter = 1] *)
Definition tsc_init : TSCState :=
  {| typeCounter := 1; accumulator := []; tscStopped := false |}.

(** [tscSubscriber]: [map], [bufferUntil], [tap(() => typeCounter++)],
    [map], and the [catchError] that answers a failure of the source with
    [of({ success: false, messageFragments: [] })]. *)
Definition tscSubscriber (st : TSCState) (now : string) (n : notification TscFragment)
  : TSCState * list (notification RunnerSubcriber) :=
  if tscStopped st then (st, [])
  else
    match n with
    | Next res =>
        match bufferUntil cycleComplete (accumulator st)
                (checkFragment (typeCounter st) now res) with
        | (acc, Some batch) =>
            ({| typeCounter := S (typeCounter st); accumulator := acc; tscStopped := false |},
             [Next (foldCycle batch)])
        | (acc, None) =>
            ({| typeCounter := typeCounter st; accumulator := acc; tscStopped := false |}, [])
        end
    | Error _ =>
        ({| typeCounter := typeCounter st; accumulator := accumulator st; tscStopped := true |},
         [Next {| success := false; messageFragments := [] |}; Complete])
    | Complete =>
        ({| typeCounter := typeCounter st; accumulator := accumulator st; tscStopped := true |},
         [Complete])
    end.

Definition adapters_init : Adapters := {| es := es_init; tsc := tsc_init |}.

(** Both adapters side by side: an arrival goes to its adapter, and what
    that adapter passes on is tagged with where it comes from. *)
Definition adapters_step (st : Adapters) (a : arrival)
  : Adapters * list (source * notification RunnerSubcriber) :=
  match a with
  | FromESBuild now n =>
      ({| es := fst (esBuildSubscriber (es st) now n); tsc := tsc st |},
       map (pair Bundler) (snd (esBuildSubscriber (es st) now n)))
  | FromTSC now n =>
      ({| es := es st; tsc := fst (tscSubscriber (tsc st) now n) |},
       map (pair TypeChecker) (snd (tscSubscriber (tsc st) now n)))
  end.

(** The bundler adapter alone; the type checker is never started. *)
Definition esbuild_only (st : ESState) (a : arrival)
  : ESState * list (notification RunnerSubcriber) :=
  match a with
  | FromESBuild now n => esBuildSubscriber st now n
  | FromTSC _ _ => (st, [])
  end.

Variable options : Options.

(** [path.join(options.outputPath, 'main.js')] *)
Definition mainOutfile : string := path_join ext (outputPath options) "main.js".

(** [baseESBuildSubscriber]: [tap] (log), [map], [catchError]. *)
Definition esbuild_effects (n : notification RunnerSubcriber) : list effect :=
  match n with
  | Next buildResults =>
      [Log (JS.join newline (messageFragments buildResults));
       Emit (Next {| build_success := success buildResults; outfile := Some mainOutfile |})]
  | Error _ => [Emit (Next {| build_success := false; outfile := None |}); Emit Complete]
  | Complete => [Emit Complete]
  end.

Definition baseESBuildSubscriber (timeline : list arrival) : list effect :=
  flat_map esbuild_effects (run esbuild_only es_init timeline).

(** The value of [startWith] in the merge branch. *)
Definition mergeStart : RunnerSubcriber :=
  {| success := true;
     messageFragments :=
       [(chalk_blue ext "i" ++ " ESBuild Compiler Starting...")%string;
        (chalk_blue ext "i" ++ " TypeScript Compiler Starting...")%string] |}.

(** The pair of [startWith] in the zip branch. *)
Definition zipStart : RunnerSubcriber * RunnerSubcriber :=
  ({| success := true;
      messageFragments := [(chalk_blue ext "i" ++ " ESBuild Compiler Starting...")%string] |},
   {| success := true;
      messageFragments := [(chalk_blue ext "i" ++ " TypeScript Compiler Starting...")%string] |}).

(** [tap] and [map] of the merge branch. *)
Definition merge_effects (n : notification RunnerSubcriber) : list effect :=
  match n with
  | Next res =>
      [Log (JS.join newline (messageFragments res));
       Emit (Next {| build_success := success res; outfile := Some mainOutfile |})]
  | Error e => [Emit (Error e)]
  | Complete => [Emit Complete]
  end.

(** [tap] and [map] of the zip branch. *)
Definition zip_effects (n : notification (RunnerSubcriber * RunnerSubcriber)) : list effect :=
  match n with
  | Next (buildResults, tscResults) =>
      [Log (JS.join newline (messageFragments tscResults));
       Log (JS.join newline (messageFragments buildResults));
       Emit (Next {| build_success := success buildResults && success tscResults;
                     outfile := Some mainOutfile |})]
  | Error e => [Emit (Error e)]
  | Complete => [Emit Complete]
  end.

(** [merge(esBuildSubscriber, tscSubscriber).pipe(startWith, tap, map)],
    fed with what the two adapters pass on. *)
Definition mergeBranch (adapted : list (source * notification RunnerSubcriber)) : list effect :=
  flat_map merge_effects (Next mergeStart :: run merge_step merge_init adapted).

(** [zip(esBuildSubscriber, tscSubscriber).pipe(startWith, tap, map)]. *)
Definition zipBranch (adapted : list (source * notification RunnerSubcriber)) : list effect :=
  flat_map zip_effects (Next zipStart :: run zip_step zip_init adapted).

Definition baseSubscriber (timeline : list arrival) : list effect :=
  let adapted := run adapters_step adapters_init timeline in
  if useMergeCombine options then mergeBranch adapted else zipBranch adapted.

(** [buildExecutor]: which stream is handed out, and how. *)
Definition buildExecutor (timeline : list arrival) : ExecutorResult :=
  if negb (watch options) && skipTypeCheck options
  then AsPromise (toPromise (emitted (baseESBuildSubscriber timeline)))
  else if watch options && skipTypeCheck options
  then AsIterator (emitted (baseESBuildSubscriber timeline))
  else if negb (watch options)
  then AsPromise (toPromise (emitted (baseSubscriber timeline)))
  else AsIterator (emitted (baseSubscriber timeline)).

(** The stream behind the result of [buildExecutor], with its logging. *)
Definition subscribed (timeline : list arrival) : list effect :=
  if skipTypeCheck options then baseESBuildSubscriber timeline else baseSubscriber timeline.

End Executor.

(** ** Plain helpers, to run the model on concrete events

    Uncoloured text, one line per event or fragment, and a [path.join] of
    two segments that need no normalising. *)
Definition plain : Collaborators :=
  {| pluginTitle := fun s => s;
     buildTimes := fun s => s;
     timeStamp := fun s => s;
     collectESBuildRunnerMessages := fun ev prefix =>
       match buildFailure ev with
       | Some (Obj why) => [(prefix ++ " x " ++ why)%string]
       | None => [(prefix ++ " ok")%string]
       end;
     collectTSCRunnerMessages := fun res prefix =>
       match info res with Some i => [(prefix ++ " " ++ i)%string] | None => [] end
       ++ match error res with Some e => [(prefix ++ " x " ++ e)%string] | None => [] end;
     chalk_blue := fun s => s;
     path_join := fun a b => (a ++ "/" ++ b)%string |}.

Definition infoFragment (text : string) : TscFragment :=
  {| info := Some text; error := None; end_ := None |}.

Definition errorFragment (text : string) : TscFragment :=
  {| info := None; error := Some text; end_ := None |}.

Definition built : RawBundlerEvent :=
  {| buildResult := Some (Obj "result"); buildFailure := None |}.

Definition failed (why : string) : RawBundlerEvent :=
  {| buildResult := None; buildFailure := Some (Obj why) |}.

Definition pairing (w : bool) : Options :=
  {| outputPath := "dist/app"; watch := w; skipTypeCheck := false; useMergeCombine := false |}.

Definition merging (w : bool) : Options :=
  {| outputPath := "dist/app"; watch := w; skipTypeCheck := false; useMergeCombine := true |}.

Definition bundling (w : bool) : Options :=
  {| outputPath := "dist/app"; watch := w; skipTypeCheck := true; useMergeCombine := false |}.

(** ** Vocabulary of the statements *)

(** The results one adapter passes on, up to its terminal notification. *)
Fixpoint results_of (s : source) (adapted : list (source * notification RunnerSubcriber))
  : list RunnerSubcriber :=
  match adapted with
  | [] => []
  | (s', n) :: rest =>
      if source_eqb s s'
      then match n with
           | Next v => v :: results_of s rest
           | _ => []
           end
      else results_of s rest
  end.

(** No adapter raises an error. *)
Definition no_errors (adapted : list (source * notification RunnerSubcriber)) : bool :=
  forallb (fun t => match snd t with Error _ => false | _ => true end) adapted.

(** The values of the combined stream. *)
Definition responses (effs : list effect) : list ExecutorResponse :=
  values (emitted effs).

(** The response made of one bundler result and one type-check result. *)
Definition paired (outfilePath : string) (p : RunnerSubcriber * RunnerSubcriber)
  : ExecutorResponse :=
  {| build_success := success (fst p) && success (snd p); outfile := Some outfilePath |}.

(** The two console lines of one pair in the zip branch, in the order
    they are written. *)
Definition pair_lines (p : RunnerSubcriber * RunnerSubcriber) : list string :=
  [JS.join newline (messageFragments (snd p)); JS.join newline (messageFragments (fst p))].

(** The adapter of source [s] is still listened to by [merge]. *)
Definition merge_listening (s : source) (st : MergeState) : bool :=
  negb (mergeStopped st) && merge_active s st.

(** Synchronized pairing as the specification words it, for every run:
    N results of each adapter give exactly N combined results, the i-th
    being the conjunction of the i-th of each.  The combined results are
    those that follow the starting value of [startWith], which comes
    before the first real result. *)
Definition pairing_as_specified (ext : Collaborators) (options : Options)
    (adapted : list (source * notification RunnerSubcriber)) (N : nat) : Prop :=
  length (results_of Bundler adapted) = N ->
  length (results_of TypeChecker adapted) = N ->
  length (tl (responses (zipBranch ext options adapted))) = N
  /\ forall i b t,
       nth_error (results_of Bundler adapted) i = Some b ->
       nth_error (results_of TypeChecker adapted) i = Some t ->
       option_map build_success
         (nth_error (tl (responses (zipBranch ext options adapted))) i)
       = Some (success b && success t).

(** One-shot mode as the specification words it: the Promise resolves to
    the first value of the combined stream. *)
Definition take_one_as_specified (ext : Collaborators) (options : Options)
    (timeline : list arrival) : Prop :=
  watch options = false ->
  forall first,
    hd_error (responses (subscribed ext options timeline)) = Some first ->
    buildExecutor ext options timeline = AsPromise (Resolved (Some first)).

(** [hasErrors] as the specification words it: the error field is present,
    or info matches the marker and the count matched is not exactly zero. *)
Definition hasErrors_as_specified (res : TscFragment) : bool :=
  match error res with
  | Some _ => true
  | None =>
      match info res with
      | Some i =>
          match JS.match_marker i with
          | Some count => negb (String.eqb count "0")
          | None => false
          end
      | None => false
      end
  end.

(** The bundler events of a run, each with its clock, as notifications. *)
Definition bundlerEvents (evs : list (string * RawBundlerEvent)) : list arrival :=
  map (fun e => FromESBuild (fst e) (Next (snd e))) evs.

(** What the bundler adapter makes of the event it receives when
    [buildCounter] holds [counter]. *)
Definition bundlerResult (ext : Collaborators) (counter : nat) (e : string * RawBundlerEvent)
  : RunnerSubcriber :=
  {| success := match buildFailure (snd e) with Some _ => false | None => true end;
     messageFragments :=
       collectESBuildRunnerMessages ext (snd e) (prefixESBuild ext (S counter) (fst e)) |}.

(** [bundlerResult] along a list of events, the counter going up by one
    at each. *)
Fixpoint bundlerResults (ext : Collaborators) (counter : nat)
    (evs : list (string * RawBundlerEvent)) : list RunnerSubcriber :=
  match evs with
  | [] => []
  | e :: rest => bundlerResult ext counter e :: bundlerResults ext (S counter) rest
  end.

(** The fragments of a run of the type checker, as notifications. *)
Definition checkerEvents (frs : list (string * TscFragment)) : list arrival :=
  map (fun f => FromTSC (fst f) (Next (snd f))) frs.

(** The type-checker adapter alone. *)
Definition tsc_only (ext : Collaborators) (st : TSCState) (a : arrival)
  : TSCState * list (notification RunnerSubcriber) :=
  match a with
  | FromTSC now n => tscSubscriber ext st now n
  | FromESBuild _ _ => (st, [])
  end.

(** No item of [xs] satisfies the notifier. *)
Definition unmarked (A : Type) (notifier : A -> bool) (xs : list A) : bool :=
  forallb (fun x => negb (notifier x)) xs.

(** A batch is a run of unmarked items closed by one marked item. *)
Definition closed_by_marker (A : Type) (notifier : A -> bool) (batch : list A) : Prop :=
  exists before m,
    batch = before ++ [m] /\ unmarked notifier before = true /\ notifier m = true.

(** What [zip] keeps true while it listens: one buffer at least is empty,
    and a source marked complete still has values buffered. *)
Definition zip_ok (st : ZipState) : bool :=
  zipStopped st
  || ((is_nil (bundlerBuffer st) || is_nil (checkerBuffer st))
      && (negb (bundlerComplete st) || negb (is_nil (bundlerBuffer st)))
      && (negb (checkerComplete st) || negb (is_nil (checkerBuffer st)))).

(** The pairs [zip] will still emit from state [st] over [adapted]. *)
Definition zip_pending (st : ZipState) (adapted : list (source * notification RunnerSubcriber))
  : list (RunnerSubcriber * RunnerSubcriber) :=
  if zipStopped st then []
  else
    combine
      (bundlerBuffer st ++ (if bundlerComplete st then [] else results_of Bundler adapted))
      (checkerBuffer st ++ (if checkerComplete st then [] else results_of TypeChecker adapted)).

(** Every character of [s] is a digit. *)
Fixpoint all_digits (s : string) : bool :=
  match s with
  | EmptyString => true
  | String c s' => JS.is_digit c && all_digits s'
  end.

(** The language of [/Found\s\d*\serror/] followed by anything: [Found],
    one space character, digits, one space character, [error]. *)
Definition marker_shape (s : string) (count : string) : Prop :=
  exists w1 w2 rest,
    JS.is_space w1 = true /\ JS.is_space w2 = true /\ all_digits count = true
    /\ s = ("Found" ++ String w1 (count ++ String w2 ("error" ++ rest)))%string.

(** The predicate of [bufferUntil] on the raw fragment: the first [map]
    copies info and error unchanged. *)
Definition closesCycle (res : TscFragment) : bool :=
  found_marker (info res) || found_marker (error res).

(** The results of consecutive type-check cycles, the first one checked
    while [typeCounter] holds [counter]. *)
Fixpoint cycleResults (ext : Collaborators) (counter : nat)
    (cycles : list (list (string * TscFragment))) : list RunnerSubcriber :=
  match cycles with
  | [] => []
  | cycle :: rest =>
      foldCycle (map (fun f => checkFragment ext counter (fst f) (snd f)) cycle)
      :: cycleResults ext (S counter) rest
  end.

Definition is_bundler_arrival (a : arrival) : bool :=
  match a with FromESBuild _ _ => true | FromTSC _ _ => false end.

(** The bundler source raises no error during the run. *)
Definition bundler_never_fails (timeline : list arrival) : bool :=
  forallb (fun a => match a with FromESBuild _ (Error _) => false | _ => true end) timeline.

(** ** More vocabulary: termination, arrival order, the set-up *)

Definition is_terminal (A : Type) (n : notification A) : bool :=
  match n with Next _ => false | _ => true end.

(** At most one terminal notification, and nothing after it: the
    Observable contract. *)
Fixpoint terminated_once (A : Type) (ns : list (notification A)) : bool :=
  match ns with
  | [] => true
  | n :: rest => if is_terminal n then is_nil rest else terminated_once rest
  end.

(** Each adapter says nothing after its own terminal notification; [b]
    and [c] tell whether the bundler and the type checker may still
    speak. *)
Fixpoint respects (b c : bool) (adapted : list (source * notification RunnerSubcriber))
  : bool :=
  match adapted with
  | [] => true
  | (Bundler, n) :: rest => b && respects (negb (is_terminal n)) c rest
  | (TypeChecker, n) :: rest => c && respects b (negb (is_terminal n)) rest
  end.

(** The response the merge branch makes of one result. *)
Definition merged (outfilePath : string) (res : RunnerSubcriber) : ExecutorResponse :=
  {| build_success := success res; outfile := Some outfilePath |}.

(** [s.split('/')] *)
Fixpoint split_slash (s : string) : list string :=
  match s with
  | EmptyString => [EmptyString]
  | String c s' =>
      if Ascii.eqb c "/"
      then EmptyString :: split_slash s'
      else match split_slash s' with
           | x :: xs => String c x :: xs
           | [] => [String c EmptyString]
           end
  end.

(** [const appsLayout = projectRoot.split('/')[0] ?? 'apps'] *)
Definition appsLayout (projectRoot : string) : string :=
  match split_slash projectRoot with
  | x :: _ => x
  | [] => "apps"
  end.

(** * The copy plug-in for esbuild (esbuild-plugin-copy)

    The plug-in copies asset files when a build starts or ends.  What it
    does to the file system and to the console is kept as a list of
    actions, in the order they happen.  The functions of Node's [path],
    [globby], [chalk] and [process.cwd()] are parameters ([Copy.Externals]).
    A call to [fs.ensureDirSync], to [fs.copyFileSync] or to [globby] may
    fail; which calls of a run do is part of the externals, and a failing
    call throws out of the callback. *)

Module Copy.

(** [type MaybeArray<T> = T | T[]] *)
Inductive MaybeArray (A : Type) : Type :=
| One (item : A)
| Many (items : list A).

(** [ensureArray] *)
Definition ensureArray (A : Type) (item : MaybeArray A) : list A :=
  match item with
  | One a => [a]
  | Many l => l
  end.

(** [interface AssetPair]; a field left out is [None]. *)
Record AssetPair : Type := {
  from : option (MaybeArray string);
  to : option (MaybeArray string);
  keepStructure : option bool
}.

(** An asset pair as [formatAssets] returns it. *)
Record FormattedAsset : Type := {
  fromPaths : list string;
  toPaths : list string;
  keep : bool
}.

(** Truthiness of a [from] or [to] field: an array is truthy even when
    empty, a string unless it is empty. *)
Definition given (field : option (MaybeArray string)) : bool :=
  match field with
  | Some (One s) => negb (String.eqb s "")
  | Some (Many _) => true
  | None => false
  end.

(** The [filter] and the [map] of [formatAssets] on one asset: [None] when
    the filter rejects it. *)
Definition formatAsset (asset : AssetPair) : option FormattedAsset :=
  match from asset, to asset with
  | Some f, Some t =>
      if given (Some f) && given (Some t)
      then Some {| fromPaths := ensureArray f;
                   toPaths := ensureArray t;
                   keep := match keepStructure asset with Some b => b | None => false end |}
      else None
  | _, _ => None
  end.

Fixpoint filter_map (A B : Type) (f : A -> option B) (l : list A) : list B :=
  match l with
  | [] => []
  | x :: rest =>
      match f x with
      | Some y => y :: filter_map f rest
      | None => filter_map f rest
      end
  end.

(** [formatAssets] *)
Definition formatAssets (assets : MaybeArray AssetPair) : list FormattedAsset :=
  filter_map formatAsset (ensureArray assets).

(** [path.parse(p)] gives these. *)
Record ParsedPath : Type := {
  root : string;
  dir : string;
  base : string;
  ext : string;
  name : string
}.

Record Externals : Type := {
  parse : string -> ParsedPath;
  resolve : list string -> string;
  dirname : string -> string;
  globby : list string -> list string;
  cwd : string;
  white : string -> string;
  blue : string -> string;
  red : string -> string;
  (** the [n]-th call of the run to [fs.ensureDirSync] or [fs.copyFileSync],
      counted from 0, throws *)
  writeFailsAt : nat -> bool;
  (** the Promise of [globby] for these patterns is rejected *)
  globbyFails : list string -> bool
}.

(** What the plug-in does, as seen from outside: a call to the file
    system, whether or not it then fails, or a line on the console.  The
    handlers below give what they do when no call fails; [perform] cuts
    that short at the first call that does. *)
Inductive action : Type :=
| EnsureDir (path : string)
| CopyFile (source dest : string)
| Print (line : string).

Definition writes (a : action) : bool :=
  match a with
  | EnsureDir _ | CopyFile _ _ => true
  | Print _ => false
  end.

(** [s.endsWith(t)] *)
Fixpoint endsWith (s t : string) : bool :=
  if String.eqb s t then true
  else match s with
       | EmptyString => false
       | String _ s' => endsWith s' t
       end.

(** [s.replace(t, '')]: the first occurrence of [t] is taken out. *)
Fixpoint remove_first (s t : string) : string :=
  match JS.strip t s with
  | Some rest => rest
  | None =>
      match s with
      | EmptyString => EmptyString
      | String c s' => String c (remove_first s' t)
      end
  end.

(** [s.slice(1)] *)
Definition slice1 (s : string) : string :=
  match s with
  | EmptyString => EmptyString
  | String _ s' => s'
  end.

(** [[...new Set(paths)]]: the first occurrence of each path, in order. *)
Fixpoint dedupe_from (seen paths : list string) : list string :=
  match paths with
  | [] => []
  | p :: rest =>
      if existsb (String.eqb p) seen
      then dedupe_from seen rest
      else p :: dedupe_from (p :: seen) rest
  end.

Definition dedupe (paths : list string) : list string := dedupe_from [] paths.

(** [${x}] for a value that may be [undefined]. *)
Definition shown (o : option string) : string :=
  match o with
  | Some s => s
  | None => "undefined"
  end.

Section Handlers.
Variable x : Externals.

(** [verboseLog] *)
Definition verboseLog (msg : string) (verbose lineBefore : bool) : list action :=
  if negb verbose then []
  else [Print (blue x (if lineBefore then String (ascii_of_nat 10) "i" else "i")
                ++ " " ++ msg)%string].

Definition copiedMessage (dryRun : bool) (sourcePath distPath : string) : string :=
  ((if dryRun then white x "[DryRun] " else "") ++ "File copied: " ++ white x sourcePath
   ++ " -> " ++ white x distPath)%string.

(** [mergeCopyHandler] *)
Definition mergeCopyHandler (outDir fromPath toPath : string) (verbose dryRun : bool)
  : list action :=
  let sourcePath := resolve x [fromPath] in
  let parsedFromPath := parse x fromPath in
  let parsedToPath := parse x toPath in
  let distBaseName :=
    if negb (String.length (ext parsedToPath) =? 0)%nat
    then base parsedToPath else base parsedFromPath in
  let distDir := if String.eqb (dir parsedToPath) "." then "" else dir parsedToPath in
  let distPath := resolve x [outDir; distDir; distBaseName] in
  (if negb dryRun then [EnsureDir (dirname x distPath)] else [])
  ++ (if negb dryRun then [CopyFile sourcePath distPath] else [])
  ++ verboseLog (copiedMessage dryRun sourcePath distPath) verbose false.

Definition fallbackMessage : string :=
  ("You're using " ++ white x "Keep-Structure" ++ " mode for the assets paire which its "
   ++ white x "from" ++ " path doesnot ends with " ++ white x "/**/*(.ext)"
   ++ ", fallback to " ++ white x "Merge-Structure" ++ " mode")%string.

(** The body of the loop of [keepStructureCopyHandler], for one raw
    [from] path.  The fall-back calls [mergeCopyHandler] without [dryRun],
    which is then its default [false], and the loop body goes on after
    it. *)
Definition keepStructureStep (outDir globbedFromPath baseToPath : string)
    (verbose dryRun : bool) (rawFrom : string) : list action :=
  let d := dir (parse x rawFrom) in
  (if negb (endsWith d "/**")
   then verboseLog fallbackMessage verbose false
        ++ mergeCopyHandler outDir globbedFromPath baseToPath verbose false
   else [])
  ++
  let startFragment := remove_first d "/**" in
  let preservedDirStructure := remove_first globbedFromPath startFragment in
  let sourcePath := resolve x [globbedFromPath] in
  let composedDistDirPath := resolve x [outDir; baseToPath; slice1 preservedDirStructure] in
  (if negb dryRun then [EnsureDir (dirname x composedDistDirPath)] else [])
  ++ (if negb dryRun then [CopyFile sourcePath composedDistDirPath] else [])
  ++ verboseLog (copiedMessage dryRun sourcePath composedDistDirPath) verbose false.

(** [keepStructureCopyHandler] *)
Definition keepStructureCopyHandler (outDir : string) (rawFromPath : list string)
    (globbedFromPath baseToPath : string) (verbose dryRun : bool) : list action :=
  flat_map (keepStructureStep outDir globbedFromPath baseToPath verbose dryRun) rawFromPath.

End Handlers.

(** [Options] once the defaults of [copy] are in. *)
Record Options : Type := {
  assets : MaybeArray AssetPair;
  copyOnStart : bool;
  verbose : bool;
  once : bool;
  globalKeepStructure : bool;
  resolveFrom : string;
  dryRun : bool
}.

(** [Partial<Options>] *)
Record PartialOptions : Type := {
  p_assets : option (MaybeArray AssetPair);
  p_copyOnStart : option bool;
  p_verbose : option bool;
  p_once : option bool;
  p_keepStructure : option bool;
  p_resolveFrom : option string;
  p_dryRun : option bool
}.

Definition orElse (A : Type) (o : option A) (d : A) : A :=
  match o with Some a => a | None => d end.

(** The destructuring with defaults at the head of [copy]. *)
Definition withDefaults (p : PartialOptions) : Options :=
  {| assets := orElse (p_assets p) (Many []);
     copyOnStart := orElse (p_copyOnStart p) false;
     verbose := orElse (p_verbose p) false;
     once := orElse (p_once p) false;
     globalKeepStructure := orElse (p_keepStructure p) false;
     resolveFrom := orElse (p_resolveFrom p) "out";
     dryRun := orElse (p_dryRun p) false |}.

Inductive hook : Type := onStart | onEnd.

(** [const applyHook = copyOnStart ? 'onStart' : 'onEnd'] *)
Definition applyHook (o : Options) : hook := if copyOnStart o then onStart else onEnd.

(** [build.initialOptions], as far as the plug-in reads it. *)
Record InitialOptions : Type := {
  outdir : option string;
  outfile : option string
}.

(** One run of the callback: the actions, the value of
    [process.env.esbuild_copy_executed] afterwards, and whether the
    callback threw ([path.dirname(undefined)], a failing file-system call or
    a rejected [globby]).  A file-system call that fails is the last action
    of the run. *)
Record Outcome : Type := {
  actions : list action;
  executedFlag : option string;
  threw : bool
}.

Section Plugin.
Variable x : Externals.
Variable o : Options.

Definition invalidOutMessage (io : InitialOptions) : string :=
  red x ("You should provide valid " ++ white x "outdir" ++ " or " ++ white x "outfile"
         ++ " for assets copy. received outdir:" ++ shown (outdir io)
         ++ ", received outfile:" ++ shown (outfile io))%string.

(** The body of the [for] over the formatted assets, for one of them. *)
Definition copyAsset (outDirResolve : string) (asset : FormattedAsset) : list action :=
  let pathsCopyFrom := globby x (fromPaths asset) in
  let keeping := globalKeepStructure o || keep asset in
  let deduplicatedPaths := dedupe pathsCopyFrom in
  verboseLog x ("Use " ++ white x (if keeping then "Keep-Structure" else "Merge-Structure")
                ++ " for current assets pair.")%string (verbose o) true
  ++ (if is_nil deduplicatedPaths
      then verboseLog x
             ("No files matched using current glob pattern: "
              ++ white x (JS.join "," (fromPaths asset))
              ++ ", maybe you need to configure globby by "
              ++ white x "options.globbyOptions" ++ "?")%string (verbose o) false
      else [])
  ++ flat_map
       (fun fromPath =>
          flat_map
            (fun toPath =>
               if keeping
               then keepStructureCopyHandler x outDirResolve (fromPaths asset) fromPath toPath
                      (verbose o) (dryRun o)
               else mergeCopyHandler x outDirResolve fromPath toPath (verbose o) (dryRun o))
            (toPaths asset))
       deduplicatedPaths.

(** Going through the calls and prints of one asset pair, [n] file-system
    calls having been made before: the part that happens, the number of
    file-system calls made by then, and whether one of them threw. *)
Fixpoint perform (n : nat) (planned : list action) : list action * (nat * bool) :=
  match planned with
  | [] => ([], (n, false))
  | a :: rest =>
      if writes a then
        if writeFailsAt x n then ([a], (S n, true))
        else let r := perform (S n) rest in (a :: fst r, snd r)
      else let r := perform n rest in (a :: fst r, snd r)
  end.

(** The [for] over the formatted assets.  [process.env] gets the flag at
    the end of the body, so only for a pair that was gone through without
    a throw. *)
Fixpoint copyAssets (outDirResolve : string) (n : nat) (flag : option string)
    (formattedAssets : list FormattedAsset) : Outcome :=
  match formattedAssets with
  | [] => {| actions := []; executedFlag := flag; threw := false |}
  | asset :: rest =>
      if globbyFails x (fromPaths asset)
      then {| actions := []; executedFlag := flag; threw := true |}
      else
        let r := perform n (copyAsset outDirResolve asset) in
        if snd (snd r)
        then {| actions := fst r; executedFlag := flag; threw := true |}
        else
          let after := copyAssets outDirResolve (fst (snd r)) (Some "true") rest in
          {| actions := fst r ++ actions after;
             executedFlag := executedFlag after;
             threw := threw after |}
  end.

(** The callback that [setup] registers on the hook. *)
Definition callback (io : InitialOptions) (flag : option string) : Outcome :=
  if once o && match flag with Some f => String.eqb f "true" | None => false end
  then {| actions :=
            verboseLog x ("Copy plugin skipped as option " ++ white x "once"
                          ++ " set to true")%string (verbose o) false;
          executedFlag := flag; threw := false |}
  else
    match formatAssets (assets o) with
    | [] => {| actions := []; executedFlag := flag; threw := false |}
    | formattedAssets =>
        let copyFrom (outDirResolve : string) :=
          let r := copyAssets outDirResolve 0 flag formattedAssets in
          {| actions :=
               verboseLog x ("Resolve assert pair to path from: "
                             ++ resolve x [outDirResolve])%string (verbose o) false
               ++ actions r;
             executedFlag := executedFlag r; threw := threw r |} in
        if String.eqb (resolveFrom o) "cwd" then copyFrom (cwd x)
        else if String.eqb (resolveFrom o) "out" then
          match outdir io, outfile io with
          | None, None => {| actions := []; executedFlag := flag; threw := true |}
          | _, _ =>
              let outDir :=
                match outdir io with
                | Some d => d
                | None => dirname x (orElse (outfile io) "")
                end in
              if String.eqb outDir ""
              then {| actions := verboseLog x (invalidOutMessage io) (verbose o) false;
                      executedFlag := flag; threw := false |}
              else copyFrom outDir
          end
        else copyFrom (resolveFrom o)
    end.

End Plugin.

End Copy.

(** ** Vocabulary for the copy plug-in *)

(** Where [mergeCopyHandler] puts a file. *)
Definition mergeDest (x : Copy.Externals) (outDir fromPath toPath : string) : string :=
  Copy.resolve x
    [outDir;
     if String.eqb (Copy.dir (Copy.parse x toPath)) "." then ""
     else Copy.dir (Copy.parse x toPath);
     if (String.length (Copy.ext (Copy.parse x toPath)) =? 0)%nat
     then Copy.base (Copy.parse x fromPath)
     else Copy.base (Copy.parse x toPath)].

(** Where the keep-structure copy puts a file, for one raw [from] path. *)
Definition keepDest (x : Copy.Externals) (outDir rawFrom globbedFromPath baseToPath : string)
  : string :=
  Copy.resolve x
    [outDir; baseToPath;
     Copy.slice1
       (Copy.remove_first globbedFromPath
          (Copy.remove_first (Copy.dir (Copy.parse x rawFrom)) "/**"))].

(** The test of the [filter] of [formatAssets]: [asset.from && asset.to]. *)
Definition usablePair (a : Copy.AssetPair) : bool :=
  Copy.given (Copy.from a) && Copy.given (Copy.to a).

(** The object the [map] of [formatAssets] makes of a pair that passed. *)
Definition formattedPair (a : Copy.AssetPair) : Copy.FormattedAsset :=
  {| Copy.fromPaths := match Copy.from a with Some f => Copy.ensureArray f | None => [] end;
     Copy.toPaths := match Copy.to a with Some t => Copy.ensureArray t | None => [] end;
     Copy.keep := Copy.orElse (Copy.keepStructure a) false |}.

(** The two file-system calls of one copy. *)
Definition copyTo (x : Copy.Externals) (sourcePath dest : string) : list Copy.action :=
  [Copy.EnsureDir (Copy.dirname x dest); Copy.CopyFile sourcePath dest].

Definition is_print (a : Copy.action) : bool := negb (Copy.writes a).

(** The raw pattern asks for the structure below a directory. *)
Definition deepPattern (x : Copy.Externals) (rawFrom : string) : bool :=
  Copy.endsWith (Copy.dir (Copy.parse x rawFrom)) "/**".

(** Whether the pair is copied in keep-structure mode. *)
Definition keeping (o : Copy.Options) (asset : Copy.FormattedAsset) : bool :=
  Copy.globalKeepStructure o || Copy.keep asset.

(** A run of the callback that gets as far as the loop over the assets:
    the directory to resolve from, if there is a usable one. *)
Definition outDirResolve (x : Copy.Externals) (o : Copy.Options) (io : Copy.InitialOptions)
  : option string :=
  if String.eqb (Copy.resolveFrom o) "cwd" then Some (Copy.cwd x)
  else if String.eqb (Copy.resolveFrom o) "out" then
    match Copy.outdir io, Copy.outfile io with
    | Some d, _ => if String.eqb d "" then None else Some d
    | None, Some f =>
        if String.eqb (Copy.dirname x f) "" then None else Some (Copy.dirname x f)
    | None, None => None
    end
  else Some (Copy.resolveFrom o).

(** Plain externals for examples: relative POSIX paths without dots or
    doubled slashes, resolved under [/work], and a file system with two
    files under [assets], on which no call fails. *)
Fixpoint plainExt (s : string) : string :=
  match s with
  | EmptyString => EmptyString
  | String c s' =>
      match plainExt s' with
      | EmptyString => if Ascii.eqb c "." then s else EmptyString
      | e => e
      end
  end.

Definition plainDirname (p : string) : string :=
  JS.join "/" (removelast (split_slash p)).

Definition plainParse (p : string) : Copy.ParsedPath :=
  let b := last (split_slash p) EmptyString in
  {| Copy.root := EmptyString;
     Copy.dir := plainDirname p;
     Copy.base := b;
     Copy.ext := plainExt b;
     Copy.name := b |}.

Definition plainExternals : Copy.Externals :=
  {| Copy.parse := plainParse;
     Copy.resolve := fun segments =>
       ("/work/" ++ JS.join "/" (filter (fun s => negb (String.eqb s "")) segments))%string;
     Copy.dirname := plainDirname;
     Copy.globby := fun patterns =>
       if existsb (String.eqb "assets/**/*") patterns
       then ["assets/a.txt"; "assets/img/b.png"; "assets/a.txt"]
       else if existsb (String.eqb "assets/*") patterns then ["assets/a.txt"] else [];
     Copy.cwd := "/work";
     Copy.white := fun s => s;
     Copy.blue := fun s => s;
     Copy.red := fun s => s;
     Copy.writeFailsAt := fun _ => false;
     Copy.globbyFails := fun _ => false |}.

(** The same, but the [n]-th call to the file system fails. *)
Definition failingAt (n : nat) : Copy.Externals :=
  {| Copy.parse := Copy.parse plainExternals;
     Copy.resolve := Copy.resolve plainExternals;
     Copy.dirname := Copy.dirname plainExternals;
     Copy.globby := Copy.globby plainExternals;
     Copy.cwd := Copy.cwd plainExternals;
     Copy.white := Copy.white plainExternals;
     Copy.blue := Copy.blue plainExternals;
     Copy.red := Copy.red plainExternals;
     Copy.writeFailsAt := Nat.eqb n;
     Copy.globbyFails := fun _ => false |}.

Definition plainCopyOptions (keepAll dry loud onlyOnce : bool) (from : string) : Copy.Options :=
  {| Copy.assets :=
       Copy.One {| Copy.from := Some (Copy.One from); Copy.to := Some (Copy.One "static");
                   Copy.keepStructure := None |};
     Copy.copyOnStart := false;
     Copy.verbose := loud;
     Copy.once := onlyOnce;
     Copy.globalKeepStructure := keepAll;
     Copy.resolveFrom := "out";
     Copy.dryRun := dry |}.

Definition builtTo (d : string) : Copy.InitialOptions :=
  {| Copy.outdir := Some d; Copy.outfile := None |}.

(** The run is skipped because of [once]. *)
Definition skipped (o : Copy.Options) (flag : option string) : bool :=
  Copy.once o && match flag with Some f => String.eqb f "true" | None => false end.

(** What the plug-in writes for one asset pair when it resolves from
    [d]: for every distinct file found and every target, the copies of the
    handler of the pair's mode. *)
Definition assetWrites (x : Copy.Externals) (o : Copy.Options) (d : string)
    (asset : Copy.FormattedAsset) : list Copy.action :=
  flat_map
    (fun fromPath =>
       flat_map
         (fun toPath =>
            if keeping o asset
            then flat_map
                   (fun rawFrom =>
                      (if deepPattern x rawFrom then []
                       else copyTo x (Copy.resolve x [fromPath])
                              (mergeDest x d fromPath toPath))
                      ++ (if Copy.dryRun o then []
                          else copyTo x (Copy.resolve x [fromPath])
                                 (keepDest x d rawFrom fromPath toPath)))
                   (Copy.fromPaths asset)
            else if Copy.dryRun o then []
                 else copyTo x (Copy.resolve x [fromPath]) (mergeDest x d fromPath toPath))
         (Copy.toPaths asset))
    (Copy.dedupe (Copy.globby x (Copy.fromPaths asset))).

(** * The snowpack build runner (snowpack-build.ts)

    [snowpackBuild] returns an Observable built on Promises.  A Promise is
    given by how it ends: fulfilled, rejected, or never settled.  The
    config loader, [createSnowpackConfig], snowpack's [build] and
    [clearCache], and [chalk] are parameters.  The loader
    ([loadSnowpackConfig]) is taken to deliver one config or to fail, as a
    Promise does. *)

Module Snowpack.

Inductive promised (A : Type) : Type :=
| Fulfils (value : A)
| Rejects (reason : string)
| Hangs.

Arguments Rejects {A} reason.
Arguments Hangs {A}.

(** The fields of [NormalizedSnowpackBuildSchema] that are read here. *)
Record Schema : Type := {
  configPath : option string;
  clearCache : bool
}.

(** [RunnerResponse]; on the error channel the value is
    [{ success: false, error }], kept here as its error. *)
Record RunnerResponse : Type := { success : bool }.

Inductive step : Type :=
| Log (line : string)
| ClearCacheCalled
| BuildCalled
| Emit (n : notification RunnerResponse).

Section Runner.
Variable Config : Type.
Variable BuildResult : Type.
Variable loadSnowpackConfig : Schema -> promised Config.
Variable createSnowpackConfig : Schema -> Config.
Variable clearCacheRun : promised unit.
Variable build : Config -> promised BuildResult.
Variables blue green : string -> string.

(** The config that reaches [switchMap], if one does. *)
Definition configResolver (options : Schema) : promised Config :=
  if JS.truthy (configPath options)
  then loadSnowpackConfig options
  else Fulfils (createSnowpackConfig options).

Definition configLoadInfo (options : Schema) : string :=
  if JS.truthy (configPath options)
  then "Using External Config File"
  else "Using Internal Default Config".

(** The subscriber function of the inner Observable: the Promise of
    [clearCache()] (or [Promise.resolve()]), then [build], whose result
    goes to [subscriber.next] and whose rejection goes to
    [subscriber.error].  Nothing handles a rejection of [clearCache()], and
    nothing calls [subscriber.complete]. *)
Definition inner (options : Schema) (config : Config) : list step :=
  let buildAndReport :=
    BuildCalled
    :: match build config with
       | Fulfils _ => [Emit (Next {| success := true |})]
       | Rejects error => [Emit (Error error)]
       | Hangs => []
       end in
  if clearCache options
  then ClearCacheCalled
       :: match clearCacheRun with
          | Fulfils _ => buildAndReport
          | Rejects _ => []
          | Hangs => []
          end
  else buildAndReport.

(** [snowpackBuild]: [from(configResolver).pipe(tap, switchMap)]. *)
Definition snowpackBuild (options : Schema) : list step :=
  match configResolver options with
  | Fulfils config =>
      [Log (blue "i" ++ " " ++ green "Nx-Snowpack [Build] Starting")%string;
       Log (blue "i" ++ " " ++ green (configLoadInfo options))%string]
      ++ inner options config
  | Rejects reason => [Emit (Error reason)]
  | Hangs => []
  end.

End Runner.

Fixpoint sent (steps : list step) : list (notification RunnerResponse) :=
  match steps with
  | [] => []
  | Emit n :: rest => n :: sent rest
  | _ :: rest => sent rest
  end.

End Snowpack.

(** * Properties *)

(** ** The marker and the text functions on examples *)

Example includes_found0 :
  JS.includes "12:01 Found 0 errors. Watching." "Found 0 errors" = true.
Proof. reflexivity. Qed.

Example marker_two : JS.match_marker "[1] Found 2 errors." = Some "2".
Proof. reflexivity. Qed.

Example marker_none : JS.match_marker "error TS2322: Found nothing" = None.
Proof. reflexivity. Qed.

Example marker_no_digits : JS.match_marker "Found  error" = Some "".
Proof. reflexivity. Qed.

Example show_12 : JS.show 12 = "12".
Proof. reflexivity. Qed.

(** ** The text functions against their meaning *)

Lemma string_app_assoc (a b c : string) : ((a ++ b) ++ c = a ++ (b ++ c))%string.
Proof. induction a as [|x a IH]; simpl; [reflexivity|]. rewrite IH. reflexivity. Qed.

Lemma prefix_split (p s : string) :
  String.prefix p s = true <-> exists rest, s = (p ++ rest)%string.
Proof.
  revert s; induction p as [|a p IH]; intros s.
  - destruct s; simpl; split; eauto.
  - destruct s as [|b s]; simpl.
    + split; [discriminate|]. intros [rest H]. discriminate H.
    + destruct (ascii_dec a b) as [->|Hab].
      * rewrite IH. split; intros [rest H]; exists rest; congruence.
      * split; [discriminate|]. intros [rest H]. congruence.
Qed.

Lemma strip_split (lit s r : string) : JS.strip lit s = Some r <-> s = (lit ++ r)%string.
Proof.
  revert s; induction lit as [|a lit IH]; intros s; simpl.
  - split; congruence.
  - destruct s as [|b s].
    + split; discriminate.
    + destruct (Ascii.eqb_spec a b) as [->|Hab].
      * rewrite IH. split; congruence.
      * split; [discriminate|]. congruence.
Qed.

Lemma includes_split (s t : string) :
  JS.includes s t = true <-> exists before after, s = (before ++ t ++ after)%string.
Proof.
  induction s as [|c s IH]; cbn [JS.includes].
  - destruct (String.prefix t "") eqn:Hp.
    + split; [|reflexivity]. intros _. apply prefix_split in Hp. destruct Hp as [rest H].
      exists "", rest. exact H.
    + split; [discriminate|]. intros (before & after & H).
      destruct before; [|discriminate H]. simpl in H.
      assert (Hp' : String.prefix t "" = true) by (apply prefix_split; eauto).
      congruence.
  - destruct (String.prefix t (String c s)) eqn:Hp.
    + split; [|reflexivity]. intros _. apply prefix_split in Hp. destruct Hp as [rest H].
      exists "", rest. exact H.
    + rewrite IH. split.
      * intros (before & after & ->). exists (String c before), after. reflexivity.
      * intros (before & after & H). destruct before as [|b before]; simpl in H.
        -- assert (Hp' : String.prefix t (String c s) = true) by (apply prefix_split; eauto).
           congruence.
        -- injection H as _ ->. eauto.
Qed.

Lemma space_is_no_digit (c : ascii) : JS.is_space c = true -> JS.is_digit c = false.
Proof.
  destruct c as [[] [] [] [] [] [] [] []]; intros H; try reflexivity; discriminate H.
Qed.

Lemma span_digits_split (s : string) :
  s = (fst (JS.span_digits s) ++ snd (JS.span_digits s))%string
  /\ all_digits (fst (JS.span_digits s)) = true.
Proof.
  induction s as [|c s [IH1 IH2]]; simpl.
  - split; reflexivity.
  - destruct (JS.is_digit c) eqn:Hc.
    + destruct (JS.span_digits s) as [ds rest]; simpl in *.
      rewrite Hc, IH2. split; [congruence|reflexivity].
    + split; reflexivity.
Qed.

Lemma span_digits_stops (ds : string) (w : ascii) (rest : string) :
  all_digits ds = true -> JS.is_digit w = false ->
  JS.span_digits (ds ++ String w rest) = (ds, String w rest).
Proof.
  intros Hds Hw. induction ds as [|c ds IH]; simpl.
  - rewrite Hw. reflexivity.
  - simpl in Hds. apply andb_true_iff in Hds. destruct Hds as [Hc Hds].
    rewrite Hc, (IH Hds). reflexivity.
Qed.

(** The anchored matcher accepts exactly the texts of the regular
    expression, and returns the digits. *)
Lemma marker_at_shape (s count : string) :
  JS.marker_at s = Some count <-> marker_shape s count.
Proof.
  unfold JS.marker_at, marker_shape. split.
  - destruct (JS.strip "Found" s) as [s1|] eqn:H1; [|discriminate].
    apply strip_split in H1.
    destruct s1 as [|w1 s2]; [discriminate|]. cbn [JS.one_space].
    destruct (JS.is_space w1) eqn:Hw1; [|discriminate].
    destruct (span_digits_split s2) as [Hs2 Hds].
    destruct (JS.span_digits s2) as [ds s3]; cbn [fst snd] in *.
    destruct s3 as [|w2 s4]; [discriminate|]. cbn [JS.one_space].
    destruct (JS.is_space w2) eqn:Hw2; [|discriminate].
    destruct (String.prefix "error" s4) eqn:Hp; [|discriminate].
    intros [= <-]. apply prefix_split in Hp. destruct Hp as [rest ->].
    exists w1, w2, rest. subst. auto.
  - intros (w1 & w2 & rest & Hw1 & Hw2 & Hds & ->).
    assert (H1 : JS.strip "Found"
                   ("Found" ++ String w1 (count ++ String w2 ("error" ++ rest)))
                 = Some (String w1 (count ++ String w2 ("error" ++ rest))))
      by (apply strip_split; reflexivity).
    rewrite H1. cbn [JS.one_space]. rewrite Hw1.
    rewrite (span_digits_stops count w2 _ Hds (space_is_no_digit w2 Hw2)).
    cbn [JS.one_space]. rewrite Hw2.
    assert (Hp : String.prefix "error" ("error" ++ rest) = true)
      by (apply prefix_split; eauto).
    rewrite Hp. reflexivity.
Qed.

(** [match] finds the marker exactly when the text contains an instance
    of the regular expression. *)
Lemma matches_marker_somewhere (s : string) :
  JS.matches_marker s = true
  <-> exists before found count, s = (before ++ found)%string /\ marker_shape found count.
Proof.
  unfold JS.matches_marker. induction s as [|c s IH]; simpl.
  - split; [discriminate|]. intros (before & found & count & H & Hshape).
    destruct before; [|discriminate H]. simpl in H. subst found.
    apply marker_at_shape in Hshape. discriminate Hshape.
  - destruct (JS.marker_at (String c s)) as [ds|] eqn:Hat.
    + split; [|reflexivity]. intros _. exists "", (String c s), ds.
      split; [reflexivity|]. apply marker_at_shape. exact Hat.
    + rewrite IH. split.
      * intros (before & found & count & -> & Hshape).
        exists (String c before), found, count. split; [reflexivity|exact Hshape].
      * intros (before & found & count & H & Hshape).
        destruct before as [|b before]; simpl in H.
        -- subst found. apply marker_at_shape in Hshape. congruence.
        -- injection H as _ ->. eauto.
Qed.

(** ** Generic facts on runs *)

Section RunFacts.
Variables (St In Out : Type).
Variable step : St -> In -> St * list Out.

Lemma run_app (xs ys : list In) (st : St) :
  run step st (xs ++ ys) = run step st xs ++ run step (state_after step st xs) ys.
Proof.
  revert st; induction xs as [|x xs IH]; intros st; simpl.
  - reflexivity.
  - rewrite IH, app_assoc. reflexivity.
Qed.

Lemma state_after_app (xs ys : list In) (st : St) :
  state_after step st (xs ++ ys) = state_after step (state_after step st xs) ys.
Proof.
  revert st; induction xs as [|x xs IH]; intros st; simpl; auto.
Qed.

(** A state that absorbs every input stays put and says nothing. *)
Lemma run_absorbing (dead : St -> Prop) :
  (forall st x, dead st -> step st x = (st, [])) ->
  forall xs st, dead st -> run step st xs = [] /\ state_after step st xs = st.
Proof.
  intros Hdead xs; induction xs as [|x xs IH]; intros st Hst; simpl.
  - split; reflexivity.
  - rewrite (Hdead st x Hst); simpl. apply IH, Hst.
Qed.

End RunFacts.

Lemma values_app (A : Type) (xs ys : list (notification A)) :
  values (xs ++ ys) = values xs ++ values ys.
Proof.
  induction xs as [|[v|e|] xs IH]; simpl; rewrite ?IH; reflexivity.
Qed.

Lemma values_map_Next (A : Type) (vs : list A) : values (map (@Next A) vs) = vs.
Proof. induction vs as [|v vs IH]; simpl; congruence. Qed.

Lemma emitted_app (xs ys : list effect) : emitted (xs ++ ys) = emitted xs ++ emitted ys.
Proof.
  induction xs as [|[l|n] xs IH]; simpl; rewrite ?IH; reflexivity.
Qed.

Lemma logged_app (xs ys : list effect) : logged (xs ++ ys) = logged xs ++ logged ys.
Proof.
  induction xs as [|[l|n] xs IH]; simpl; rewrite ?IH; reflexivity.
Qed.

(** ** The cycle buffer *)

Section Buffer.
Variable A : Type.
Variable notifier : A -> bool.

Lemma unmarked_snoc (xs : list A) (x : A) :
  unmarked notifier xs = true -> notifier x = false -> unmarked notifier (xs ++ [x]) = true.
Proof.
  intros Hxs Hx. unfold unmarked in *. rewrite forallb_app, Hxs; simpl.
  rewrite Hx; reflexivity.
Qed.

Lemma bufferUntil_all_batches (xs acc : list A) :
  unmarked notifier acc = true ->
  Forall (closed_by_marker notifier) (fst (bufferUntil_all notifier acc xs))
  /\ unmarked notifier (snd (bufferUntil_all notifier acc xs)) = true.
Proof.
  revert acc; induction xs as [|x xs IH]; intros acc Hacc; simpl.
  - split; [constructor | exact Hacc].
  - unfold bufferUntil. destruct (notifier x) eqn:Hx.
    + destruct (IH [] eq_refl) as [Hb Hr].
      destruct (bufferUntil_all notifier [] xs) as [bs r]; simpl in *.
      split; [constructor; [|exact Hb] | exact Hr].
      exists acc, x. auto.
    + apply IH, unmarked_snoc; assumption.
Qed.

Lemma bufferUntil_all_concat (xs acc : list A) :
  concat (fst (bufferUntil_all notifier acc xs)) ++ snd (bufferUntil_all notifier acc xs)
  = acc ++ xs.
Proof.
  revert acc; induction xs as [|x xs IH]; intros acc; simpl.
  - rewrite app_nil_r. reflexivity.
  - unfold bufferUntil. destruct (notifier x) eqn:Hx.
    + specialize (IH []).
      destruct (bufferUntil_all notifier [] xs) as [bs r]; simpl in *.
      rewrite <- !app_assoc, IH. reflexivity.
    + rewrite IH, <- app_assoc. reflexivity.
Qed.

Lemma bufferUntil_all_count (xs acc : list A) :
  length (fst (bufferUntil_all notifier acc xs)) = length (filter notifier xs).
Proof.
  revert acc; induction xs as [|x xs IH]; intros acc; simpl.
  - reflexivity.
  - unfold bufferUntil. destruct (notifier x) eqn:Hx.
    + specialize (IH []).
      destruct (bufferUntil_all notifier [] xs) as [bs r]; simpl in *.
      rewrite IH. reflexivity.
    + apply IH.
Qed.

End Buffer.

(** C5. Over any sequence of checked fragments, the cycle buffer (the
    [bufferUntil] of the spec under the predicate of esbuild.ts) emits a
    batch exactly when the fragment just received carries the
    [Found <count> error] marker in its info or error text, and then leaves
    the accumulator empty; otherwise it emits nothing and keeps the
    fragment.  Hence there are as many batches as marker fragments, every
    batch is a run of fragments without marker closed by one marker
    fragment, and the batches followed by the accumulator left over are the
    fragments received, in order. *)
Theorem cycle_buffer_closes_at_each_marker (frs : list CheckedFragment) :
  (forall acc v,
     bufferUntil cycleComplete acc v
     = if cycleComplete v then ([], Some (acc ++ [v])) else (acc ++ [v], None))
  /\ length (fst (bufferUntil_all cycleComplete [] frs)) = length (filter cycleComplete frs)
  /\ Forall (closed_by_marker cycleComplete) (fst (bufferUntil_all cycleComplete [] frs))
  /\ unmarked cycleComplete (snd (bufferUntil_all cycleComplete [] frs)) = true
  /\ concat (fst (bufferUntil_all cycleComplete [] frs))
       ++ snd (bufferUntil_all cycleComplete [] frs) = frs.
Proof.
  split; [reflexivity|].
  split; [apply bufferUntil_all_count|].
  destruct (bufferUntil_all_batches cycleComplete frs []) as [Hb Hr]; [reflexivity|].
  repeat split; try assumption.
  apply (bufferUntil_all_concat cycleComplete frs []).
Qed.

(** ** Success of a type-check cycle *)

Lemma foldCycle_success (batch : list CheckedFragment) :
  success (foldCycle batch) = true <-> (forall v, In v batch -> hasErrors v = false).
Proof.
  unfold foldCycle; simpl. destruct (find hasErrors batch) as [v|] eqn:Hfind.
  - apply find_some in Hfind. destruct Hfind as [Hin Hv]. split.
    + discriminate.
    + intros Hall. rewrite (Hall v Hin) in Hv. discriminate.
  - split; [|reflexivity]. intros _ v Hin.
    pose proof (find_none _ _ Hfind v Hin) as Hv. exact Hv.
Qed.

Lemma marker_text_is_truthy (i : string) :
  JS.matches_marker i = true -> JS.truthy (Some i) = true.
Proof. destruct i; [discriminate|reflexivity]. Qed.

Lemma hasErrors_checkFragment (ext : Collaborators) (counter : nat) (now : string)
    (res : TscFragment) :
  hasErrors (checkFragment ext counter now res) = true <->
  (JS.truthy (error res) = true
   \/ exists i, info res = Some i /\ JS.matches_marker i = true
                /\ JS.includes i "Found 0 errors" = false).
Proof.
  unfold checkFragment; cbn [hasErrors fragment lines].
  destruct (info res) as [i|] eqn:Hinfo; cbn [found_marker].
  - destruct (JS.matches_marker i) eqn:Hm.
    + rewrite (marker_text_is_truthy i Hm).
      destruct (JS.includes i "Found 0 errors") eqn:Hi; cbn [andb negb].
      * split; [auto|]. intros [H|(j & Hj & _ & Hinc)]; [exact H|].
        injection Hj as <-. congruence.
      * split; [|reflexivity]. intros _. right. exists i. auto.
    + rewrite andb_false_r; cbn [andb].
      split; [auto|]. intros [H|(j & Hj & Hmj & _)]; [exact H|].
      injection Hj as <-. congruence.
  - cbn [JS.truthy andb].
    split; [auto|]. intros [H|(j & Hj & _)]; [exact H|discriminate].
Qed.

(** C6, where the code departs from it.  [hasErrors] does not look at the
    count the marker matched: it asks whether info contains the literal
    text [Found 0 errors].  On info = [Found 0 error] the count matched is
    exactly zero, no error field is present, and yet [hasErrors] is true. *)
Lemma hasErrors_ignores_the_matched_count :
  hasErrors (checkFragment plain 1 "9:00:00 AM" (infoFragment "Found 0 error"))
  <> hasErrors_as_specified (infoFragment "Found 0 error").
Proof. vm_compute. discriminate. Qed.

(** The other way round: a chunk that reports two cycles, the first with
    errors and the second clean, has a first match with count 2 and
    [hasErrors] false. *)
Example hasErrors_two_reports_in_one_chunk :
  JS.match_marker "Found 2 errors. Found 0 errors." = Some "2"
  /\ hasErrors (checkFragment plain 1 "9:00:00 AM"
                  (infoFragment "Found 2 errors. Found 0 errors.")) = false.
Proof. split; reflexivity. Qed.

(** An error field that is present but empty is not an error. *)
Example hasErrors_empty_error_text :
  hasErrors (checkFragment plain 1 "9:00:00 AM" (errorFragment "")) = false.
Proof. reflexivity. Qed.

(** C6, as the code has it.  The result folded from a batch has success =
    true if and only if no fragment of the batch has hasErrors; hasErrors
    of a fragment is true exactly when its error field is a non-empty
    string, or its info text matches the marker and does not contain the
    literal text [Found 0 errors].  A batch made of the one fragment
    info = [Found 0 errors] gives success = true, and every batch with a
    fragment info = [Found 2 errors] gives success = false. *)
Theorem cycle_success_iff_no_fragment_has_errors (ext : Collaborators) :
  (forall batch,
     success (foldCycle batch) = true <-> (forall v, In v batch -> hasErrors v = false))
  /\ (forall counter now res,
        hasErrors (checkFragment ext counter now res) = true <->
        (JS.truthy (error res) = true
         \/ exists i, info res = Some i /\ JS.matches_marker i = true
                      /\ JS.includes i "Found 0 errors" = false))
  /\ (forall counter now,
        success (foldCycle [checkFragment ext counter now (infoFragment "Found 0 errors")])
        = true)
  /\ (forall counter now before after,
        success (foldCycle (before
                            ++ checkFragment ext counter now (infoFragment "Found 2 errors")
                            :: after)) = false).
Proof.
  split; [exact foldCycle_success|].
  split; [exact (hasErrors_checkFragment ext)|].
  split.
  - intros counter now. reflexivity.
  - intros counter now before after.
    destruct (success (foldCycle (before
                ++ checkFragment ext counter now (infoFragment "Found 2 errors") :: after)))
      eqn:Hs; [|reflexivity].
    apply foldCycle_success with (v := checkFragment ext counter now (infoFragment "Found 2 errors"))
      in Hs.
    + discriminate Hs.
    + apply in_or_app. right. left. reflexivity.
Qed.

(** ** The bundler adapter and its labels *)

Lemma esbuild_run_results (ext : Collaborators) (evs : list (string * RawBundlerEvent))
    (counter : nat) :
  run (esbuild_only ext) {| buildCounter := counter; esStopped := false |} (bundlerEvents evs)
  = map (@Next RunnerSubcriber) (bundlerResults ext counter evs).
Proof.
  revert counter; induction evs as [|[now ev] evs IH]; intros counter.
  - reflexivity.
  - cbn [bundlerEvents map run esbuild_only esBuildSubscriber esStopped buildCounter
         fst snd app bundlerResults].
    f_equal. apply IH.
Qed.

Lemma bundlerResults_nth (ext : Collaborators) (evs : list (string * RawBundlerEvent))
    (counter i : nat) :
  nth_error (bundlerResults ext counter evs) i
  = option_map (bundlerResult ext (counter + i)) (nth_error evs i).
Proof.
  revert counter i; induction evs as [|e evs IH]; intros counter [|i]; simpl; try reflexivity.
  - rewrite Nat.add_0_r. reflexivity.
  - rewrite IH. simpl. rewrite Nat.add_succ_r. reflexivity.
Qed.

(** C4, what the code does.  [buildCounter] starts at 1 and the [tap]
    adds one before the [map] asks for the label, so the event of index i
    (from 0) is labelled with i + 2: the first prefix carries [2], not
    [1]. *)
Theorem first_bundler_label_carries_two (ext : Collaborators)
    (evs : list (string * RawBundlerEvent)) :
  run (esbuild_only ext) es_init (bundlerEvents evs)
  = map (@Next RunnerSubcriber) (bundlerResults ext 1 evs)
  /\ (forall i,
        nth_error (bundlerResults ext 1 evs) i
        = option_map
            (fun e =>
               {| success := match buildFailure (snd e) with Some _ => false | None => true end;
                  messageFragments :=
                    collectESBuildRunnerMessages ext (snd e) (prefixESBuild ext (i + 2) (fst e)) |})
            (nth_error evs i))
  /\ (forall now,
        prefixESBuild ext 2 now
        = (pluginTitle ext "nx-plugin-esbuild" ++ " ESBuild " ++ buildTimes ext "[2]"
           ++ " " ++ timeStamp ext now)%string).
Proof.
  split; [apply esbuild_run_results|].
  split; [|reflexivity].
  intros i. rewrite bundlerResults_nth. unfold bundlerResult.
  replace (S (1 + i)) with (i + 2) by lia. reflexivity.
Qed.

(** ** The type-checker adapter and failures of its source *)

Lemma tsc_stopped_absorbs (ext : Collaborators) (tl : list arrival) (st : TSCState) :
  tscStopped st = true ->
  run (tsc_only ext) st tl = [] /\ state_after (tsc_only ext) st tl = st.
Proof.
  apply (run_absorbing (tsc_only ext) (fun st => tscStopped st = true)).
  intros st' [now n|now n] Hst; simpl; [reflexivity|].
  unfold tscSubscriber. rewrite Hst. reflexivity.
Qed.

Lemma tsc_fragments_keep_listening (ext : Collaborators) (frs : list (string * TscFragment))
    (st : TSCState) :
  tscStopped st = false ->
  tscStopped (state_after (tsc_only ext) st (checkerEvents frs)) = false.
Proof.
  revert st; induction frs as [|[now res] frs IH]; intros st Hst; simpl.
  - exact Hst.
  - apply IH. unfold tscSubscriber. rewrite Hst.
    destruct (bufferUntil cycleComplete (accumulator st)
                (checkFragment ext (typeCounter st) now res)) as [acc [batch|]];
      reflexivity.
Qed.

Lemma tsc_never_errors (ext : Collaborators) (tl : list arrival) (st : TSCState) (e : string) :
  ~ In (Error e) (run (tsc_only ext) st tl).
Proof.
  revert st; induction tl as [|a tl IH]; intros st Hin; simpl in Hin.
  - exact Hin.
  - apply in_app_or in Hin. destruct Hin as [Hin|Hin]; [|exact (IH _ Hin)].
    destruct a as [now n|now n]; simpl in Hin; [exact Hin|].
    unfold tscSubscriber in Hin. destruct (tscStopped st); [exact Hin|].
    destruct n as [res|e'|].
    + destruct (bufferUntil cycleComplete (accumulator st)
                  (checkFragment ext (typeCounter st) now res)) as [acc [batch|]];
        simpl in Hin; [destruct Hin as [Hin|[]]; discriminate|exact Hin].
    + simpl in Hin. destruct Hin as [Hin|[Hin|[]]]; discriminate.
    + simpl in Hin. destruct Hin as [Hin|[]]; discriminate.
Qed.

Lemma tsc_failure_is_answered (ext : Collaborators) (frs : list (string * TscFragment))
    (now e : string) (rest : list arrival) :
  run (tsc_only ext) tsc_init (checkerEvents frs ++ FromTSC now (Error e) :: rest)
  = run (tsc_only ext) tsc_init (checkerEvents frs)
    ++ [Next {| success := false; messageFragments := [] |}; Complete].
Proof.
  rewrite run_app. f_equal.
  pose proof (tsc_fragments_keep_listening ext frs tsc_init eq_refl) as Hlive.
  cbn [run tsc_only]. unfold tscSubscriber at 1 2. rewrite Hlive.
  cbn [fst snd].
  match goal with
  | |- _ ++ run _ ?st rest = _ =>
      rewrite (proj1 (tsc_stopped_absorbs ext rest st eq_refl))
  end.
  reflexivity.
Qed.

(** ** Where an error of the combined stream can come from *)

Lemma adapters_error_origin (ext : Collaborators) (tl : list arrival) (st : Adapters)
    (s : source) (e : string) :
  In (s, Error e) (run (adapters_step ext) st tl) ->
  exists now, In (FromESBuild now (Error e)) tl.
Proof.
  revert st; induction tl as [|a tl IH]; intros st Hin; simpl in Hin.
  - contradiction.
  - apply in_app_or in Hin. destruct Hin as [Hin|Hin].
    + destruct a as [now n|now n]; simpl in Hin; apply in_map_iff in Hin;
        destruct Hin as (x & Hx & Hin); injection Hx as <- ->.
      * unfold esBuildSubscriber in Hin. destruct (esStopped (es st)); [contradiction|].
        destruct n as [ev|e'|]; simpl in Hin; destruct Hin as [Hin|[]]; try discriminate.
        injection Hin as ->. exists now. left. reflexivity.
      * exfalso. apply (tsc_never_errors ext [FromTSC now n] (tsc st) e).
        simpl. rewrite app_nil_r. exact Hin.
    + destruct (IH _ Hin) as [now Hnow]. exists now. right. exact Hnow.
Qed.

Lemma merge_error_origin (adapted : list (source * notification RunnerSubcriber))
    (st : MergeState) (e : string) :
  In (Error e) (run merge_step st adapted) -> exists s, In (s, Error e) adapted.
Proof.
  revert st; induction adapted as [|[s n] adapted IH]; intros st Hin; simpl in Hin.
  - contradiction.
  - apply in_app_or in Hin. destruct Hin as [Hin|Hin].
    + unfold merge_step in Hin; cbn [fst snd] in Hin.
      destruct (mergeStopped st || negb (merge_active s st)); [contradiction|].
      destruct n as [v|e'|].
      * destruct Hin as [Hin|[]]; discriminate.
      * destruct Hin as [Hin|[]]. injection Hin as ->.
        exists s. left. reflexivity.
      * destruct s; cbn in Hin;
          match type of Hin with
          | context [if ?c then _ else _] => destruct c
          end; simpl in Hin; try contradiction; destruct Hin as [Hin|[]]; discriminate.
    + destruct (IH _ Hin) as [s' Hs']. exists s'. right. exact Hs'.
Qed.

Lemma checkIterators_no_error (st : ZipState) (e : string) :
  ~ In (Error e) (snd (checkIterators st)).
Proof.
  unfold checkIterators. destruct (bundlerBuffer st) as [|b bs]; [simpl; tauto|].
  destruct (checkerBuffer st) as [|t ts]; [simpl; tauto|].
  cbn [snd].
  destruct (is_nil bs && bundlerComplete st || is_nil ts && checkerComplete st);
    simpl; intros [H|H]; try discriminate; try contradiction.
  destruct H as [H|[]]; discriminate.
Qed.

Lemma zip_error_origin (adapted : list (source * notification RunnerSubcriber))
    (st : ZipState) (e : string) :
  In (Error e) (run zip_step st adapted) -> exists s, In (s, Error e) adapted.
Proof.
  revert st; induction adapted as [|[s n] adapted IH]; intros st Hin; simpl in Hin.
  - contradiction.
  - apply in_app_or in Hin. destruct Hin as [Hin|Hin].
    + unfold zip_step in Hin; cbn [fst snd] in Hin.
      destruct (zipStopped st); [contradiction|].
      destruct s.
      * destruct (bundlerComplete st); [contradiction|].
        destruct n as [v|e'|].
        -- exfalso. exact (checkIterators_no_error _ _ Hin).
        -- destruct Hin as [Hin|[]]. injection Hin as ->. exists Bundler. left. reflexivity.
        -- destruct (is_nil (bundlerBuffer st)); [destruct Hin as [Hin|[]]; discriminate|].
           cbn [snd] in Hin. destruct (checkerComplete st); simpl in Hin;
             [destruct Hin as [Hin|[]]; discriminate|contradiction].
      * destruct (checkerComplete st); [contradiction|].
        destruct n as [v|e'|].
        -- exfalso. exact (checkIterators_no_error _ _ Hin).
        -- destruct Hin as [Hin|[]]. injection Hin as ->. exists TypeChecker. left. reflexivity.
        -- destruct (is_nil (checkerBuffer st)); [destruct Hin as [Hin|[]]; discriminate|].
           cbn [snd] in Hin. destruct (bundlerComplete st); simpl in Hin;
             [destruct Hin as [Hin|[]]; discriminate|contradiction].
    + destruct (IH _ Hin) as [s' Hs']. exists s'. right. exact Hs'.
Qed.

Lemma merge_effects_error (ext : Collaborators) (options : Options)
    (ns : list (notification RunnerSubcriber)) (e : string) :
  In (Emit (Error e)) (flat_map (merge_effects ext options) ns) -> In (Error e) ns.
Proof.
  induction ns as [|n ns IH]; simpl; [tauto|]. intros Hin.
  apply in_app_or in Hin. destruct Hin as [Hin|Hin]; [|right; exact (IH Hin)].
  left. destruct n as [v|e'|]; simpl in Hin.
  - destruct Hin as [Hin|[Hin|[]]]; discriminate.
  - destruct Hin as [Hin|[]]. congruence.
  - destruct Hin as [Hin|[]]; discriminate.
Qed.

Lemma zip_effects_error (ext : Collaborators) (options : Options)
    (ns : list (notification (RunnerSubcriber * RunnerSubcriber))) (e : string) :
  In (Emit (Error e)) (flat_map (zip_effects ext options) ns) -> In (Error e) ns.
Proof.
  induction ns as [|n ns IH]; simpl; [tauto|]. intros Hin.
  apply in_app_or in Hin. destruct Hin as [Hin|Hin]; [|right; exact (IH Hin)].
  left. destruct n as [[b t]|e'|]; simpl in Hin.
  - destruct Hin as [Hin|[Hin|[Hin|[]]]]; discriminate.
  - destruct Hin as [Hin|[]]. congruence.
  - destruct Hin as [Hin|[]]; discriminate.
Qed.

(** An error of the combined stream is an error of the bundler source. *)
Lemma baseSubscriber_error_origin (ext : Collaborators) (options : Options)
    (timeline : list arrival) (e : string) :
  In (Emit (Error e)) (baseSubscriber ext options timeline) ->
  exists now, In (FromESBuild now (Error e)) timeline.
Proof.
  unfold baseSubscriber, mergeBranch, zipBranch. intros Hin.
  destruct (useMergeCombine options).
  - apply merge_effects_error in Hin. destruct Hin as [Hin|Hin]; [discriminate|].
    apply merge_error_origin in Hin. destruct Hin as [s Hs].
    exact (adapters_error_origin _ _ _ _ _ Hs).
  - apply zip_effects_error in Hin. destruct Hin as [Hin|Hin]; [discriminate|].
    apply zip_error_origin in Hin. destruct Hin as [s Hs].
    exact (adapters_error_origin _ _ _ _ _ Hs).
Qed.

(** C8. A failure of the type checker's own stream never leaves the
    type-checker adapter as an error: whatever arrives, the adapter passes
    on no error; when the source fails after any fragments, the adapter
    passes on exactly one more result, success = false with no message
    fragments, and completes.  So the combined stream, under either policy,
    only ever errors with an error of the bundler source. *)
Theorem checker_failure_becomes_a_failed_result (ext : Collaborators) :
  (forall st tl e, ~ In (Error e) (run (tsc_only ext) st tl))
  /\ (forall frs now e rest,
        run (tsc_only ext) tsc_init (checkerEvents frs ++ FromTSC now (Error e) :: rest)
        = run (tsc_only ext) tsc_init (checkerEvents frs)
          ++ [Next {| success := false; messageFragments := [] |}; Complete])
  /\ (forall options timeline e,
        In (Emit (Error e)) (baseSubscriber ext options timeline) ->
        exists now, In (FromESBuild now (Error e)) timeline).
Proof.
  split; [intros st tl e; apply tsc_never_errors|].
  split; [apply tsc_failure_is_answered|].
  apply baseSubscriber_error_origin.
Qed.

(** ** Synchronized pairing *)

(** One case of a step of [zip]: compute the step, use the induction
    hypothesis on the rest of the run, and compare the pairs. *)
Ltac zip_case IH Hne :=
  cbn [zip_step fst snd zipStopped bundlerComplete checkerComplete bundlerBuffer
       checkerBuffer checkIterators is_nil app andb orb zip_stop values];
  rewrite ?IH by (try exact Hne; reflexivity);
  unfold zip_pending;
  cbn [zipStopped bundlerComplete checkerComplete bundlerBuffer checkerBuffer
       results_of source_eqb app combine zip_stop];
  rewrite ?app_nil_r, <- ?app_assoc, ?combine_nil;
  cbn [app combine];
  try reflexivity.

Lemma zip_stopped_absorbs (adapted : list (source * notification RunnerSubcriber))
    (st : ZipState) :
  zipStopped st = true ->
  run zip_step st adapted = [] /\ state_after zip_step st adapted = st.
Proof.
  apply (run_absorbing zip_step (fun st => zipStopped st = true)).
  intros st' x Hst. unfold zip_step. rewrite Hst. reflexivity.
Qed.

Lemma zip_run_pairs (adapted : list (source * notification RunnerSubcriber)) (st : ZipState) :
  no_errors adapted = true -> zip_ok st = true ->
  values (run zip_step st adapted) = zip_pending st adapted.
Proof.
  revert st; induction adapted as [|[s n] adapted IH]; intros st Hne Hok.
  - destruct st as [eb tb ec tc stopped]. unfold zip_pending, zip_ok in *; simpl in *.
    destruct stopped; [reflexivity|]. simpl in Hok.
    destruct ec, tc, eb, tb; simpl in *; try discriminate; try reflexivity;
      rewrite ?app_nil_r; reflexivity.
  - simpl in Hne. apply andb_true_iff in Hne. destruct Hne as [Hn Hne].
    cbn [run]. rewrite values_app.
    destruct st as [eb tb ec tc stopped].
    destruct stopped.
    { cbn [zip_step zipStopped fst snd values app].
      match goal with
      | |- values (run zip_step ?st' adapted) = _ =>
          rewrite (proj1 (zip_stopped_absorbs adapted st' eq_refl))
      end.
      reflexivity. }
    unfold zip_ok in Hok; cbn in Hok.
    destruct s, n as [v|e|]; try discriminate Hn;
      destruct ec, tc, eb as [|e1 eb], tb as [|t1 tb]; try discriminate Hok;
      try destruct eb as [|e2 eb]; try destruct tb as [|t2 tb];
      zip_case IH Hne.
Qed.

Lemma responses_zip_effects (ext : Collaborators) (options : Options)
    (ns : list (notification (RunnerSubcriber * RunnerSubcriber))) :
  responses (flat_map (zip_effects ext options) ns)
  = map (paired (mainOutfile ext options)) (values ns).
Proof.
  unfold responses. induction ns as [|[[b t]|e|] ns IH]; simpl.
  - reflexivity.
  - f_equal. exact IH.
  - exact IH.
  - exact IH.
Qed.

Lemma logged_zip_effects (ext : Collaborators) (options : Options)
    (ns : list (notification (RunnerSubcriber * RunnerSubcriber))) :
  logged (flat_map (zip_effects ext options) ns) = flat_map pair_lines (values ns).
Proof.
  induction ns as [|[[b t]|e|] ns IH]; simpl.
  - reflexivity.
  - do 2 f_equal. exact IH.
  - exact IH.
  - exact IH.
Qed.

Lemma nth_error_map_combine (A B C : Type) (f : A * B -> C) (xs : list A) (ys : list B)
    (i : nat) (x : A) (y : B) :
  nth_error xs i = Some x -> nth_error ys i = Some y ->
  nth_error (map f (combine xs ys)) i = Some (f (x, y)).
Proof.
  revert ys i; induction xs as [|x' xs IH]; intros [|y' ys] [|i]; simpl;
    try discriminate.
  - intros [= ->] [= ->]. reflexivity.
  - apply IH.
Qed.




(** The same run, as the executor's subscriber sees it: the starting
    value, then the error. *)
Example pairing_after_a_bundler_error :
  emitted (zipBranch plain (pairing true)
             [(Bundler, Next {| success := true; messageFragments := ["built"] |});
              (Bundler, Error "esbuild service stopped");
              (TypeChecker,
               Next {| success := true; messageFragments := ["Found 0 errors."] |})])
  = [Next {| build_success := true; outfile := Some "dist/app/main.js" |};
     Error "esbuild service stopped"].
Proof. reflexivity. Qed.

(** Without an error the words of the specification hold, the combined
    results being counted after the starting value. *)
Lemma pairing_as_specified_without_errors (ext : Collaborators) (options : Options)
    (adapted : list (source * notification RunnerSubcriber)) (N : nat) :
  no_errors adapted = true -> pairing_as_specified ext options adapted N.
Proof.
  intros Hne Hb Ht.
  assert (Heq : responses (zipBranch ext options adapted)
                = {| build_success := true; outfile := Some (mainOutfile ext options) |}
                  :: map (paired (mainOutfile ext options))
                       (combine (results_of Bundler adapted)
                                (results_of TypeChecker adapted))).
  { unfold zipBranch. rewrite responses_zip_effects. cbn [values map].
    rewrite (zip_run_pairs adapted zip_init Hne eq_refl).
    unfold zip_pending; cbn [zip_init zipStopped bundlerComplete checkerComplete
                              bundlerBuffer checkerBuffer app].
    reflexivity. }
  rewrite Heq. cbn [tl]. split.
  - rewrite length_map, length_combine, Hb, Ht, Nat.min_id. reflexivity.
  - intros i b t Hib Hit.
    rewrite (nth_error_map_combine (paired (mainOutfile ext options)) _ _ _ Hib Hit).
    reflexivity.
Qed.

(** C10. In the zip branch the console receives, for every pair emitted
    and in the order of emission, the starting pair included, first the
    message fragments of the type-check result joined with newlines, then
    those of the bundler result joined with newlines; the values emitted
    are the responses of these same pairs. *)
Theorem pairing_logs_typecheck_before_bundler (ext : Collaborators) (options : Options)
    (adapted : list (source * notification RunnerSubcriber)) :
  logged (zipBranch ext options adapted)
  = flat_map
      (fun p => [JS.join newline (messageFragments (snd p));
                 JS.join newline (messageFragments (fst p))])
      (zipStart ext :: values (run zip_step zip_init adapted))
  /\ responses (zipBranch ext options adapted)
     = map (paired (mainOutfile ext options))
         (zipStart ext :: values (run zip_step zip_init adapted))
  /\ firstn 2 (logged (zipBranch ext options adapted))
     = [(chalk_blue ext "i" ++ " TypeScript Compiler Starting...")%string;
        (chalk_blue ext "i" ++ " ESBuild Compiler Starting...")%string].
Proof.
  unfold zipBranch. rewrite logged_zip_effects, responses_zip_effects.
  split; [reflexivity|]. split; reflexivity.
Qed.

(** ** Independent merge *)

(** One more result on an adapter that [merge] still listens to: it is
    logged and emitted at that step. *)
Lemma merge_passes_a_result_on (ext : Collaborators) (options : Options)
    (adapted : list (source * notification RunnerSubcriber)) (s : source)
    (r : RunnerSubcriber) :
  merge_listening s (state_after merge_step merge_init adapted) = true ->
  mergeBranch ext options (adapted ++ [(s, Next r)])
  = mergeBranch ext options adapted
    ++ [Log (JS.join newline (messageFragments r));
        Emit (Next {| build_success := success r;
                      outfile := Some (mainOutfile ext options) |})].
Proof.
  intros Hlive. unfold mergeBranch.
  rewrite run_app. cbn [flat_map]. rewrite flat_map_app, <- app_assoc.
  do 2 f_equal.
  set (st := state_after merge_step merge_init adapted) in *.
  unfold merge_listening in Hlive. apply andb_true_iff in Hlive.
  destruct Hlive as [Hstop Hact]. apply negb_true_iff in Hstop.
  cbn [run]. unfold merge_step; cbn [fst snd].
  rewrite Hstop, Hact. reflexivity.
Qed.

(** While no adapter has raised an error, [merge] listens to every
    adapter that has not completed. *)
Lemma merge_listens_until_the_end (adapted : list (source * notification RunnerSubcriber))
    (st : MergeState) (s : source) (n : notification RunnerSubcriber) :
  no_errors adapted = true ->
  mergeStopped st = false ->
  respects (bundlerActive st) (checkerActive st) (adapted ++ [(s, n)]) = true ->
  merge_listening s (state_after merge_step st adapted) = true.
Proof.
  revert st; induction adapted as [|[s' n'] adapted IH]; intros [b c stp] Hne Hstop Hres;
    cbn [mergeStopped] in Hstop; subst stp;
    cbn [respects bundlerActive checkerActive app] in Hres.
  - cbn [state_after]. unfold merge_listening; cbn [mergeStopped negb andb].
    destruct s; apply andb_true_iff in Hres; destruct Hres as [Hon _]; exact Hon.
  - simpl in Hne. apply andb_true_iff in Hne. destruct Hne as [Hn Hne].
    cbn [state_after].
    destruct s'; apply andb_true_iff in Hres; destruct Hres as [Hon Hres]; subst;
      cbn [merge_step fst snd mergeStopped merge_active bundlerActive checkerActive orb negb].
    + destruct n' as [v|e|]; [|discriminate Hn|]; cbn [negb is_terminal] in Hres.
      * cbn [fst]. apply IH; [exact Hne|reflexivity|exact Hres].
      * cbn [negb orb]. destruct c; cbn [fst].
        -- apply IH; [exact Hne|reflexivity|exact Hres].
        -- destruct adapted as [|[[] n''] rest]; destruct s; discriminate Hres.
    + destruct n' as [v|e|]; [|discriminate Hn|]; cbn [negb is_terminal] in Hres.
      * cbn [fst]. apply IH; [exact Hne|reflexivity|exact Hres].
      * cbn [negb orb]. destruct b; cbn [fst orb].
        -- apply IH; [exact Hne|reflexivity|exact Hres].
        -- destruct adapted as [|[[] n''] rest]; destruct s; discriminate Hres.
Qed.

(** C7. Under the merge policy, in a run in which no adapter has raised
    an error, a result that an adapter passes on (each adapter being silent
    once it has completed) is logged and emitted at that very step, as one
    combined result whose success is the success of that result alone,
    whatever either adapter reported before. *)
Theorem merge_emits_each_result_at_once (ext : Collaborators) (options : Options)
    (adapted : list (source * notification RunnerSubcriber)) (s : source)
    (r : RunnerSubcriber) :
  no_errors adapted = true ->
  respects true true (adapted ++ [(s, Next r)]) = true ->
  mergeBranch ext options (adapted ++ [(s, Next r)])
  = mergeBranch ext options adapted
    ++ [Log (JS.join newline (messageFragments r));
        Emit (Next {| build_success := success r;
                      outfile := Some (mainOutfile ext options) |})].
Proof.
  intros Hne Hres. apply merge_passes_a_result_on.
  exact (merge_listens_until_the_end adapted merge_init s (Next r) Hne eq_refl Hres).
Qed.

(** C7 at work: the bundler has passed on a success and the type checker
    a first result; then only the type checker passes on a failing result,
    and the next combined result has success = false. *)
Lemma merge_emits_each_result_at_once_witness :
  let ok := {| success := true; messageFragments := ["built"] |} in
  let fine := {| success := true; messageFragments := ["Found 0 errors."] |} in
  let ko := {| success := false; messageFragments := ["TS2322"; "Found 1 error."] |} in
  let before := [(Bundler, Next ok); (TypeChecker, Next fine)] in
  no_errors before = true
  /\ respects true true (before ++ [(TypeChecker, Next ko)]) = true
  /\ mergeBranch plain (merging true) (before ++ [(TypeChecker, Next ko)])
     = mergeBranch plain (merging true) before
       ++ [Log (JS.join newline ["TS2322"; "Found 1 error."]);
           Emit (Next {| build_success := false; outfile := Some "dist/app/main.js" |})].
Proof.
  intros ok fine ko before. split; [reflexivity|]. split; [reflexivity|].
  exact (merge_emits_each_result_at_once plain (merging true) before
           TypeChecker ko eq_refl eq_refl).
Defined.

(** The example of the specification, on raw fragments: the bundler is
    silent, the type checker reports an error and then closes the cycle;
    the combined result of that cycle has success = false.  It is emitted
    when the marker arrives, not when the error fragment does. *)
Example merge_type_error_alone :
  responses (baseSubscriber plain (merging true)
               [FromTSC "9:00:00 AM" (Next (errorFragment "TS2322: not assignable"))])
  = [{| build_success := true; outfile := Some "dist/app/main.js" |}]
  /\ responses (baseSubscriber plain (merging true)
                  [FromTSC "9:00:00 AM" (Next (errorFragment "TS2322: not assignable"));
                   FromTSC "9:00:01 AM" (Next (infoFragment "Found 1 error. Watching."))])
     = [{| build_success := true; outfile := Some "dist/app/main.js" |};
        {| build_success := false; outfile := Some "dist/app/main.js" |}].
Proof. split; reflexivity. Qed.

(** ** The outfile of every response *)

Lemma responses_merge_effects (ext : Collaborators) (options : Options)
    (ns : list (notification RunnerSubcriber)) :
  responses (flat_map (merge_effects ext options) ns)
  = map (fun r => {| build_success := success r; outfile := Some (mainOutfile ext options) |})
      (values ns).
Proof.
  unfold responses. induction ns as [|[r|e|] ns IH]; simpl.
  - reflexivity.
  - f_equal. exact IH.
  - exact IH.
  - exact IH.
Qed.

Lemma baseSubscriber_outfile (ext : Collaborators) (options : Options)
    (timeline : list arrival) :
  Forall (fun r => outfile r = Some (mainOutfile ext options))
    (responses (baseSubscriber ext options timeline)).
Proof.
  unfold baseSubscriber, mergeBranch, zipBranch. destruct (useMergeCombine options).
  - rewrite responses_merge_effects. apply Forall_map, Forall_forall. reflexivity.
  - rewrite responses_zip_effects. apply Forall_map, Forall_forall. reflexivity.
Qed.

Lemma esbuild_only_error_origin (ext : Collaborators) (tl : list arrival) (st : ESState)
    (e : string) :
  In (Error e) (run (esbuild_only ext) st tl) -> exists now, In (FromESBuild now (Error e)) tl.
Proof.
  revert st; induction tl as [|a tl IH]; intros st Hin; simpl in Hin.
  - contradiction.
  - apply in_app_or in Hin. destruct Hin as [Hin|Hin].
    + destruct a as [now n|now n]; simpl in Hin; [|contradiction].
      unfold esBuildSubscriber in Hin. destruct (esStopped st); [contradiction|].
      destruct n as [ev|e'|]; simpl in Hin; destruct Hin as [Hin|[]]; try discriminate.
      injection Hin as ->. exists now. left. reflexivity.
    + destruct (IH _ Hin) as [now Hnow]. exists now. right. exact Hnow.
Qed.

Lemma esbuild_effects_outfile (ext : Collaborators) (options : Options)
    (ns : list (notification RunnerSubcriber)) :
  Forall (fun r => outfile r = Some (mainOutfile ext options)
                   \/ (r = {| build_success := false; outfile := None |}
                       /\ exists e, In (Error e) ns))
    (responses (flat_map (esbuild_effects ext options) ns)).
Proof.
  unfold responses. induction ns as [|n ns IH]; simpl.
  - constructor.
  - rewrite emitted_app, values_app. apply Forall_app. split.
    + destruct n as [r|e|]; simpl.
      * constructor; [left; reflexivity|constructor].
      * constructor; [|constructor].
        right. split; [reflexivity|]. exists e. left. reflexivity.
      * constructor.
    + eapply Forall_impl; [|exact IH]. intros r [Hr|[Hr [e He]]]; [left; exact Hr|].
      right. split; [exact Hr|]. exists e. right. exact He.
Qed.

(** C9. Every response of the combined stream, under the merge policy and
    under the zip policy, success or not, has outfile =
    [path.join(outputPath, 'main.js')].  A response without outfile exists
    only on the stream of the bundler alone, where it is the value
    [{success: false, outfile: undefined}] that [catchError] substitutes
    for an error of the bundler source. *)
Theorem outfile_is_the_main_js_path (ext : Collaborators) (options : Options) :
  mainOutfile ext options = path_join ext (outputPath options) "main.js"
  /\ (forall adapted,
        Forall (fun r => outfile r = Some (mainOutfile ext options))
          (responses (mergeBranch ext options adapted)))
  /\ (forall adapted,
        Forall (fun r => outfile r = Some (mainOutfile ext options))
          (responses (zipBranch ext options adapted)))
  /\ (forall timeline,
        Forall (fun r => outfile r = Some (mainOutfile ext options))
          (responses (baseSubscriber ext options timeline)))
  /\ (forall timeline,
        Forall (fun r => outfile r = Some (mainOutfile ext options)
                         \/ (r = {| build_success := false; outfile := None |}
                             /\ exists now e, In (FromESBuild now (Error e)) timeline))
          (responses (baseESBuildSubscriber ext options timeline))).
Proof.
  split; [reflexivity|].
  split.
  { intros adapted. unfold mergeBranch. rewrite responses_merge_effects.
    apply Forall_map, Forall_forall. reflexivity. }
  split.
  { intros adapted. unfold zipBranch. rewrite responses_zip_effects.
    apply Forall_map, Forall_forall. reflexivity. }
  split; [apply baseSubscriber_outfile|].
  intros timeline. unfold baseESBuildSubscriber.
  eapply Forall_impl; [|apply esbuild_effects_outfile].
  intros r [Hr|[Hr [e He]]]; [left; exact Hr|].
  right. split; [exact Hr|].
  destruct (esbuild_only_error_origin _ _ _ _ He) as [now Hnow].
  exists now, e. exact Hnow.
Qed.

(** ** One-shot mode *)

Lemma last_after_cons (A : Type) (x : A) (xs : list A) (d : A) :
  last (x :: xs) d = last xs x.
Proof.
  revert x d; induction xs as [|y ys IH]; intros x d.
  - reflexivity.
  - change (last (x :: y :: ys) d) with (last (y :: ys) d).
    rewrite IH. symmetry. apply IH.
Qed.

(** How a Promise of [toPromise] stands after the notifications [ns]:
    resolved with the last value before the first [Complete], rejected with
    the first [Error], pending while there are only values. *)
Lemma toPromise_from_settles (A : Type) (ns : list (notification A)) (kept : option A) :
  match toPromise_from kept ns with
  | Resolved v =>
      exists vs rest, ns = map (@Next A) vs ++ Complete :: rest
                      /\ v = last (map Some vs) kept
  | Rejected e => exists vs rest, ns = map (@Next A) vs ++ Error e :: rest
  | Pending => exists vs, ns = map (@Next A) vs
  end.
Proof.
  revert kept; induction ns as [|[v|e|] ns IH]; intros kept; simpl.
  - exists []. reflexivity.
  - specialize (IH (Some v)). destruct (toPromise_from (Some v) ns) as [w|e|].
    + destruct IH as (vs & rest & -> & ->). exists (v :: vs), rest. split; [reflexivity|].
      cbn [map]. rewrite last_after_cons. reflexivity.
    + destruct IH as (vs & rest & ->). exists (v :: vs), rest. reflexivity.
    + destruct IH as (vs & ->). exists (v :: vs). reflexivity.
  - exists [], ns. reflexivity.
  - exists [], ns. split; reflexivity.
Qed.

(** C2, as the code has it.  With watch = false the executor hands back
    one Promise made by [toPromise]: it is resolved once the stream it
    subscribes to has completed, with the last value emitted before the
    completion; it is rejected with the error if the stream fails; and it
    stays pending as long as the stream has only emitted values. *)
Theorem one_shot_resolves_with_the_last_value (ext : Collaborators) (options : Options)
    (timeline : list arrival) :
  watch options = false ->
  exists p,
    buildExecutor ext options timeline = AsPromise p
    /\ match p with
       | Resolved v =>
           exists vs rest,
             emitted (subscribed ext options timeline)
             = map (@Next ExecutorResponse) vs ++ Complete :: rest
             /\ v = last (map Some vs) None
       | Rejected e =>
           exists vs rest,
             emitted (subscribed ext options timeline)
             = map (@Next ExecutorResponse) vs ++ Error e :: rest
       | Pending =>
           exists vs,
             emitted (subscribed ext options timeline) = map (@Next ExecutorResponse) vs
       end.
Proof.
  intros Hwatch. unfold buildExecutor, subscribed. rewrite Hwatch.
  destruct (skipTypeCheck options); cbn [negb andb];
    eexists; (split; [reflexivity|]); apply toPromise_from_settles.
Qed.

(** C2 at work: a failed build and a clean type check, then the bundler
    completes; the Promise resolves with the second value of the stream. *)
Lemma one_shot_resolves_with_the_last_value_witness :
  watch (pairing false) = false
  /\ exists p,
       buildExecutor plain (pairing false)
         [FromESBuild "9:00:00 AM" (Next (failed "syntax error"));
          FromTSC "9:00:01 AM" (Next (infoFragment "Found 0 errors."));
          FromESBuild "9:00:02 AM" Complete] = AsPromise p
       /\ match p with
          | Resolved v =>
              exists vs rest,
                emitted (subscribed plain (pairing false)
                           [FromESBuild "9:00:00 AM" (Next (failed "syntax error"));
                            FromTSC "9:00:01 AM" (Next (infoFragment "Found 0 errors."));
                            FromESBuild "9:00:02 AM" Complete])
                = map (@Next ExecutorResponse) vs ++ Complete :: rest
                /\ v = last (map Some vs) None
          | Rejected e =>
              exists vs rest,
                emitted (subscribed plain (pairing false)
                           [FromESBuild "9:00:00 AM" (Next (failed "syntax error"));
                            FromTSC "9:00:01 AM" (Next (infoFragment "Found 0 errors."));
                            FromESBuild "9:00:02 AM" Complete])
                = map (@Next ExecutorResponse) vs ++ Error e :: rest
          | Pending =>
              exists vs,
                emitted (subscribed plain (pairing false)
                           [FromESBuild "9:00:00 AM" (Next (failed "syntax error"));
                            FromTSC "9:00:01 AM" (Next (infoFragment "Found 0 errors."));
                            FromESBuild "9:00:02 AM" Complete])
                = map (@Next ExecutorResponse) vs
          end.
Proof.
  split; [reflexivity|].
  exact (one_shot_resolves_with_the_last_value plain (pairing false)
           [FromESBuild "9:00:00 AM" (Next (failed "syntax error"));
            FromTSC "9:00:01 AM" (Next (infoFragment "Found 0 errors."));
            FromESBuild "9:00:02 AM" Complete] eq_refl).
Defined.

(** C2, where the words of the specification fail: on that same run the
    first value of the combined stream is the starting value, success =
    true, and the Promise resolves with the later value, success = false. *)
Lemma one_shot_is_not_take_one :
  ~ take_one_as_specified plain (pairing false)
      [FromESBuild "9:00:00 AM" (Next (failed "syntax error"));
       FromTSC "9:00:01 AM" (Next (infoFragment "Found 0 errors."));
       FromESBuild "9:00:02 AM" Complete].
Proof.
  intros Hclaim.
  specialize (Hclaim eq_refl
                {| build_success := true; outfile := Some "dist/app/main.js" |} eq_refl).
  vm_compute in Hclaim. discriminate Hclaim.
Qed.

(** While the stream has not completed the Promise is pending, though the
    starting value has been emitted. *)
Example one_shot_pending_before_completion :
  responses (subscribed plain (pairing false) [])
  = [{| build_success := true; outfile := Some "dist/app/main.js" |}]
  /\ buildExecutor plain (pairing false) [] = AsPromise Pending.
Proof. split; reflexivity. Qed.

(** ** Errors of the bundler source *)

(** C3, what the code does.  Without skipTypeCheck there is no
    [catchError] after [zip] or [merge]: an error of the bundler source
    goes through the combined stream as it is, so that the Promise of
    one-shot mode is rejected with it and the iterator of watch mode
    throws it after the starting value.  Only the stream of the bundler
    alone (skipTypeCheck) turns it into [{success: false, outfile:
    undefined}]. *)
Theorem bundler_error_escapes_the_combinator (ext : Collaborators) (out : string)
    (useMerge : bool) (now e : string) :
  buildExecutor ext
    {| outputPath := out; watch := false; skipTypeCheck := false;
       useMergeCombine := useMerge |}
    [FromESBuild now (Error e)]
  = AsPromise (Rejected e)
  /\ buildExecutor ext
       {| outputPath := out; watch := true; skipTypeCheck := false;
          useMergeCombine := useMerge |}
       [FromESBuild now (Error e)]
     = AsIterator
         [Next {| build_success := true; outfile := Some (path_join ext out "main.js") |};
          Error e]
  /\ buildExecutor ext
       {| outputPath := out; watch := false; skipTypeCheck := true;
          useMergeCombine := useMerge |}
       [FromESBuild now (Error e)]
     = AsPromise (Resolved (Some {| build_success := false; outfile := None |})).
Proof.
  destruct useMerge; repeat split; reflexivity.
Qed.

(** ** Further properties *)

Lemma tsc_step_fragment (ext : Collaborators) (counter : nat) (acc : list CheckedFragment)
    (now : string) (res : TscFragment) :
  tscSubscriber ext {| typeCounter := counter; accumulator := acc; tscStopped := false |}
    now (Next res)
  = if closesCycle res
    then ({| typeCounter := S counter; accumulator := []; tscStopped := false |},
          [Next (foldCycle (acc ++ [checkFragment ext counter now res]))])
    else ({| typeCounter := counter; accumulator := acc ++ [checkFragment ext counter now res];
             tscStopped := false |}, []).
Proof.
  unfold tscSubscriber, bufferUntil; cbn [tscStopped typeCounter accumulator].
  change (cycleComplete (checkFragment ext counter now res)) with (closesCycle res).
  destruct (closesCycle res); reflexivity.
Qed.

Lemma tsc_one_cycle (ext : Collaborators) (frs : list (string * TscFragment))
    (m : string * TscFragment) (counter : nat) (acc : list CheckedFragment) :
  unmarked (fun f => closesCycle (snd f)) frs = true ->
  closesCycle (snd m) = true ->
  run (tsc_only ext) {| typeCounter := counter; accumulator := acc; tscStopped := false |}
    (checkerEvents (frs ++ [m]))
  = [Next (foldCycle
             (acc ++ map (fun f => checkFragment ext counter (fst f) (snd f)) (frs ++ [m])))]
  /\ state_after (tsc_only ext)
       {| typeCounter := counter; accumulator := acc; tscStopped := false |}
       (checkerEvents (frs ++ [m]))
     = {| typeCounter := S counter; accumulator := []; tscStopped := false |}.
Proof.
  revert acc; induction frs as [|[now res] frs IH]; intros acc Hfrs Hm.
  - destruct m as [now res]. simpl in Hm.
    cbn [app checkerEvents map run state_after tsc_only fst snd].
    rewrite tsc_step_fragment, Hm. split; reflexivity.
  - simpl in Hfrs. apply andb_true_iff in Hfrs. destruct Hfrs as [Hres Hfrs].
    apply negb_true_iff in Hres.
    cbn [app checkerEvents map run state_after tsc_only fst snd].
    rewrite tsc_step_fragment, Hres. cbn [fst snd app].
    destruct (IH (acc ++ [checkFragment ext counter now res]) Hfrs Hm) as [Hrun Hst].
    unfold checkerEvents in Hrun, Hst. rewrite Hrun, Hst.
    rewrite <- app_assoc. split; reflexivity.
Qed.

Lemma checkerEvents_app (xs ys : list (string * TscFragment)) :
  checkerEvents (xs ++ ys) = checkerEvents xs ++ checkerEvents ys.
Proof. unfold checkerEvents. apply map_app. Qed.

(** The labels of the type checker: when the fragments received form
    complete cycles, the adapter passes on one result per cycle, and the
    fragments of the k-th cycle (from 1) were all collected under the label
    that carries k.  [prefixTsc()] is read in the first [map], before the
    [tap] that adds one to [typeCounter] when the cycle closes. *)
Theorem type_check_labels_count_cycles_from_one (ext : Collaborators)
    (cycles : list (list (string * TscFragment))) :
  Forall (closed_by_marker (fun f => closesCycle (snd f))) cycles ->
  run (tsc_only ext) tsc_init (checkerEvents (concat cycles))
  = map (@Next RunnerSubcriber) (cycleResults ext 1 cycles).
Proof.
  unfold tsc_init. generalize 1 as counter.
  induction cycles as [|cycle cycles IH]; intros counter Hall.
  - reflexivity.
  - inversion Hall as [|c cs (frs & m & -> & Hfrs & Hm) Hrest]; subst.
    cbn [concat cycleResults map]. rewrite checkerEvents_app, run_app.
    destruct (tsc_one_cycle ext frs m counter [] Hfrs Hm) as [Hrun Hst].
    rewrite Hrun, Hst. cbn [app]. f_equal. apply IH, Hrest.
Qed.

(** Two cycles: an error and its report, then a clean report. *)
Lemma type_check_labels_count_cycles_from_one_witness :
  let cycles :=
    [[("9:00:00 AM", errorFragment "TS2322: not assignable");
      ("9:00:01 AM", infoFragment "Found 1 error. Watching for file changes.")];
     [("9:01:00 AM", infoFragment "Found 0 errors. Watching for file changes.")]] in
  run (tsc_only plain) tsc_init (checkerEvents (concat cycles))
  = [Next {| success := false;
             messageFragments :=
               ["nx-plugin-esbuild TSC [1] 9:00:00 AM x TS2322: not assignable";
                "nx-plugin-esbuild TSC [1] 9:00:01 AM Found 1 error. Watching for file changes."] |};
     Next {| success := true;
             messageFragments :=
               ["nx-plugin-esbuild TSC [2] 9:01:00 AM Found 0 errors. Watching for file changes."] |}].
Proof.
  intros cycles.
  refine (type_check_labels_count_cycles_from_one plain (cycles := cycles) _).
  repeat constructor.
  - exists [("9:00:00 AM", errorFragment "TS2322: not assignable")],
      ("9:00:01 AM", infoFragment "Found 1 error. Watching for file changes.").
    repeat split; reflexivity.
  - exists [], ("9:01:00 AM", infoFragment "Found 0 errors. Watching for file changes.").
    repeat split; reflexivity.
Defined.

(** Synchronized pairing when the adapters pass on different numbers of
    results: without an error, the zip branch emits the starting value and
    then one pair per index that both adapters have reached. *)
Theorem pairing_stops_at_the_shorter_side (ext : Collaborators) (options : Options)
    (adapted : list (source * notification RunnerSubcriber)) :
  no_errors adapted = true ->
  responses (zipBranch ext options adapted)
  = map (paired (mainOutfile ext options))
      (zipStart ext
       :: combine (results_of Bundler adapted) (results_of TypeChecker adapted)).
Proof.
  intros Hne. unfold zipBranch. rewrite responses_zip_effects. cbn [values].
  rewrite (zip_run_pairs adapted zip_init Hne eq_refl).
  unfold zip_pending; cbn [zip_init zipStopped bundlerComplete checkerComplete
                            bundlerBuffer checkerBuffer app].
  reflexivity.
Qed.

(** Two builds, one type-check cycle: one pair after the start. *)
Lemma pairing_stops_at_the_shorter_side_witness :
  let adapted :=
    [(Bundler, Next {| success := true; messageFragments := ["built"] |});
     (Bundler, Next {| success := true; messageFragments := ["rebuilt"] |});
     (TypeChecker, Next {| success := false; messageFragments := ["Found 1 error."] |})] in
  no_errors adapted = true
  /\ responses (zipBranch plain (pairing true) adapted)
     = [{| build_success := true; outfile := Some "dist/app/main.js" |};
        {| build_success := false; outfile := Some "dist/app/main.js" |}].
Proof.
  intros adapted. split; [reflexivity|].
  exact (pairing_stops_at_the_shorter_side plain (pairing true) adapted eq_refl).
Defined.

Lemma esbuild_only_ignores_checker (ext : Collaborators) (tl : list arrival) (st : ESState) :
  run (esbuild_only ext) st (filter is_bundler_arrival tl) = run (esbuild_only ext) st tl.
Proof.
  revert st; induction tl as [|[now n|now n] tl IH]; intros st; simpl.
  - reflexivity.
  - rewrite IH. reflexivity.
  - apply IH.
Qed.

Lemma es_stopped_absorbs (ext : Collaborators) (tl : list arrival) (st : ESState) :
  esStopped st = true ->
  run (esbuild_only ext) st tl = [] /\ state_after (esbuild_only ext) st tl = st.
Proof.
  apply (run_absorbing (esbuild_only ext) (fun st => esStopped st = true)).
  intros st' [now n|now n] Hst; simpl; [|reflexivity].
  unfold esBuildSubscriber. rewrite Hst. reflexivity.
Qed.

Lemma es_state_after_events (ext : Collaborators) (evs : list (string * RawBundlerEvent))
    (counter : nat) :
  state_after (esbuild_only ext) {| buildCounter := counter; esStopped := false |}
    (bundlerEvents evs)
  = {| buildCounter := counter + length evs; esStopped := false |}.
Proof.
  revert counter; induction evs as [|[now ev] evs IH]; intros counter.
  - cbn [bundlerEvents map state_after length]. rewrite Nat.add_0_r. reflexivity.
  - cbn [bundlerEvents map state_after esbuild_only esBuildSubscriber esStopped buildCounter
         fst snd length].
    fold (bundlerEvents evs). rewrite IH, Nat.add_succ_r. reflexivity.
Qed.

(** What the bundler adapter emits for a run of events followed by a
    terminal notification: the results, then that notification, and
    nothing of what arrives later. *)
Lemma esbuild_run_until_the_end (ext : Collaborators) (evs : list (string * RawBundlerEvent))
    (now : string) (n : notification RawBundlerEvent) (rest : list arrival) :
  is_terminal n = true ->
  run (esbuild_only ext) es_init (bundlerEvents evs ++ FromESBuild now n :: rest)
  = map (@Next RunnerSubcriber) (bundlerResults ext 1 evs)
    ++ [match n with Error e => Error e | _ => Complete end].
Proof.
  intros Hterm. unfold es_init. rewrite run_app, esbuild_run_results, es_state_after_events.
  f_equal. cbn [run esbuild_only esBuildSubscriber esStopped buildCounter fst snd].
  destruct n as [ev|e|]; [discriminate Hterm| |];
    cbn [fst snd app];
    match goal with
    | |- _ :: run _ ?st _ = _ => rewrite (proj1 (es_stopped_absorbs ext rest st eq_refl))
    end; reflexivity.
Qed.

Lemma esbuild_effects_of_results (ext : Collaborators) (options : Options)
    (rs : list RunnerSubcriber) :
  flat_map (esbuild_effects ext options) (map (@Next RunnerSubcriber) rs)
  = flat_map
      (fun r => [Log (JS.join newline (messageFragments r));
                 Emit (Next {| build_success := success r;
                               outfile := Some (mainOutfile ext options) |})]) rs.
Proof. induction rs as [|r rs IH]; simpl; [reflexivity|]. rewrite IH. reflexivity. Qed.

(** With skipTypeCheck the stream handed out is made of bundler events
    only: what the type checker would send changes nothing.  Every bundler
    event is logged and emitted as its own response, labelled from its
    place in the run.  An error of the bundler never leaves the stream as
    an error: in its place the stream emits the response with success =
    false and no outfile, and then completes; nothing that arrives after
    the error or the completion of the bundler is logged or emitted. *)
Theorem skip_type_check_listens_to_the_bundler_only (ext : Collaborators)
    (options : Options) (timeline : list arrival) :
  baseESBuildSubscriber ext options (filter is_bundler_arrival timeline)
  = baseESBuildSubscriber ext options timeline
  /\ (forall e, ~ In (Emit (Error e)) (baseESBuildSubscriber ext options timeline))
  /\ (forall evs,
        filter is_bundler_arrival timeline = bundlerEvents evs ->
        baseESBuildSubscriber ext options timeline
        = flat_map
            (fun r => [Log (JS.join newline (messageFragments r));
                       Emit (Next {| build_success := success r;
                                     outfile := Some (mainOutfile ext options) |})])
            (bundlerResults ext 1 evs))
  /\ (forall evs now e rest,
        filter is_bundler_arrival timeline
        = bundlerEvents evs ++ FromESBuild now (Error e) :: rest ->
        baseESBuildSubscriber ext options timeline
        = flat_map
            (fun r => [Log (JS.join newline (messageFragments r));
                       Emit (Next {| build_success := success r;
                                     outfile := Some (mainOutfile ext options) |})])
            (bundlerResults ext 1 evs)
          ++ [Emit (Next {| build_success := false; outfile := None |}); Emit Complete])
  /\ (forall evs now rest,
        filter is_bundler_arrival timeline
        = bundlerEvents evs ++ FromESBuild now Complete :: rest ->
        baseESBuildSubscriber ext options timeline
        = flat_map
            (fun r => [Log (JS.join newline (messageFragments r));
                       Emit (Next {| build_success := success r;
                                     outfile := Some (mainOutfile ext options) |})])
            (bundlerResults ext 1 evs)
          ++ [Emit Complete]).
Proof.
  assert (Hsame : baseESBuildSubscriber ext options (filter is_bundler_arrival timeline)
                  = baseESBuildSubscriber ext options timeline).
  { unfold baseESBuildSubscriber. rewrite esbuild_only_ignores_checker. reflexivity. }
  split; [exact Hsame|]. split; [|split; [|split]].
  - intros e. unfold baseESBuildSubscriber.
    induction (run (esbuild_only ext) es_init timeline) as [|n ns IH]; simpl.
    + tauto.
    + intros Hin. apply in_app_or in Hin. destruct Hin as [Hin|Hin]; [|exact (IH Hin)].
      destruct n as [r|e'|]; simpl in Hin.
      * destruct Hin as [Hin|[Hin|[]]]; discriminate.
      * destruct Hin as [Hin|[Hin|[]]]; discriminate.
      * destruct Hin as [Hin|[]]; discriminate.
  - intros evs Hevs. rewrite <- Hsame, Hevs. unfold baseESBuildSubscriber, es_init.
    rewrite esbuild_run_results. apply esbuild_effects_of_results.
  - intros evs now e rest Hevs. rewrite <- Hsame, Hevs. unfold baseESBuildSubscriber.
    rewrite (esbuild_run_until_the_end ext evs now (Error e) rest eq_refl).
    rewrite flat_map_app, esbuild_effects_of_results. reflexivity.
  - intros evs now rest Hevs. rewrite <- Hsame, Hevs. unfold baseESBuildSubscriber.
    rewrite (esbuild_run_until_the_end ext evs now Complete rest eq_refl).
    rewrite flat_map_app, esbuild_effects_of_results. reflexivity.
Qed.

(** A bundler that fails after one build, the type checker speaking in
    between: one response for the build, then the failed response in place
    of the error, then completion. *)
Example skip_type_check_answers_a_bundler_error :
  emitted (baseESBuildSubscriber plain (bundling true)
             [FromESBuild "9:00:00 AM" (Next built);
              FromTSC "9:00:01 AM" (Next (infoFragment "Found 0 errors."));
              FromESBuild "9:00:02 AM" (Error "esbuild service stopped");
              FromESBuild "9:00:03 AM" (Next built)])
  = [Next {| build_success := true; outfile := Some "dist/app/main.js" |};
     Next {| build_success := false; outfile := None |};
     Complete].
Proof. reflexivity. Qed.

(** ** The two adapters under the combinator *)

Lemma results_of_other_side (s s' : source) (outs : list (notification RunnerSubcriber))
    (rest : list (source * notification RunnerSubcriber)) :
  source_eqb s s' = false ->
  results_of s (map (pair s') outs ++ rest) = results_of s rest.
Proof.
  intros Hs. induction outs as [|n outs IH]; simpl; [reflexivity|].
  rewrite Hs. exact IH.
Qed.

(** What [zip] and [merge] receive from the bundler is what the bundler
    adapter emits on its own. *)
Lemma adapters_project_bundler (ext : Collaborators) (tl : list arrival) (st : Adapters) :
  results_of Bundler (run (adapters_step ext) st tl)
  = values (run (esbuild_only ext) (es st) tl).
Proof.
  revert st; induction tl as [|[now n|now n] tl IH]; intros st.
  - reflexivity.
  - cbn [run adapters_step esbuild_only fst snd es]. rewrite values_app.
    unfold esBuildSubscriber. destruct (esStopped (es st)) eqn:Hst.
    + cbn [fst snd map app values]. rewrite (IH {| es := es st; tsc := tsc st |}).
      reflexivity.
    + destruct n as [ev|e|]; cbn [fst snd map app values results_of source_eqb].
      * rewrite IH. reflexivity.
      * match goal with
        | |- _ = values (run _ ?st' tl) =>
            rewrite (proj1 (es_stopped_absorbs ext tl st' eq_refl))
        end. reflexivity.
      * match goal with
        | |- _ = values (run _ ?st' tl) =>
            rewrite (proj1 (es_stopped_absorbs ext tl st' eq_refl))
        end. reflexivity.
  - cbn [run adapters_step esbuild_only fst snd es app values].
    rewrite results_of_other_side by reflexivity. rewrite IH. reflexivity.
Qed.

(** And likewise for the type checker. *)
Lemma adapters_project_checker (ext : Collaborators) (tl : list arrival) (st : Adapters) :
  results_of TypeChecker (run (adapters_step ext) st tl)
  = values (run (tsc_only ext) (tsc st) tl).
Proof.
  revert st; induction tl as [|[now n|now n] tl IH]; intros st.
  - reflexivity.
  - cbn [run adapters_step tsc_only fst snd tsc app values].
    rewrite results_of_other_side by reflexivity. rewrite IH. reflexivity.
  - cbn [run adapters_step tsc_only fst snd tsc]. rewrite values_app.
    unfold tscSubscriber. destruct (tscStopped (tsc st)) eqn:Hst.
    + cbn [fst snd map app values]. rewrite (IH {| es := es st; tsc := tsc st |}).
      reflexivity.
    + destruct n as [res|e|].
      * destruct (bufferUntil cycleComplete (accumulator (tsc st))
                    (checkFragment ext (typeCounter (tsc st)) now res)) as [acc [batch|]];
          cbn [fst snd map app values results_of source_eqb]; rewrite IH; reflexivity.
      * cbn [fst snd map app values results_of source_eqb].
        match goal with
        | |- _ = _ :: values (run _ ?st' tl) =>
            rewrite (proj1 (tsc_stopped_absorbs ext tl st' eq_refl))
        end. reflexivity.
      * cbn [fst snd map app values results_of source_eqb].
        match goal with
        | |- _ = values (run _ ?st' tl) =>
            rewrite (proj1 (tsc_stopped_absorbs ext tl st' eq_refl))
        end. reflexivity.
Qed.

Lemma no_errors_app (xs ys : list (source * notification RunnerSubcriber)) :
  no_errors (xs ++ ys) = no_errors xs && no_errors ys.
Proof. apply forallb_app. Qed.

Lemma adapters_no_errors (ext : Collaborators) (tl : list arrival) (st : Adapters) :
  bundler_never_fails tl = true -> no_errors (run (adapters_step ext) st tl) = true.
Proof.
  revert st; induction tl as [|a tl IH]; intros st Hok.
  - reflexivity.
  - simpl in Hok. apply andb_true_iff in Hok. destruct Hok as [Ha Hok].
    cbn [run]. rewrite no_errors_app, (IH _ Hok), andb_true_r.
    destruct a as [now n|now n]; cbn [adapters_step snd].
    + unfold esBuildSubscriber. destruct (esStopped (es st)); [reflexivity|].
      destruct n as [ev|e|]; [reflexivity|discriminate Ha|reflexivity].
    + unfold tscSubscriber. destruct (tscStopped (tsc st)); [reflexivity|].
      destruct n as [res|e|]; try reflexivity.
      destruct (bufferUntil cycleComplete (accumulator (tsc st))
                  (checkFragment ext (typeCounter (tsc st)) now res)) as [acc [batch|]];
        reflexivity.
Qed.

(** Synchronized pairing from end to end: as long as the bundler source
    raises no error, the executor's combined stream is the starting value
    followed by the i-th result of the bundler adapter paired with the
    i-th result of the type-checker adapter, for every i both have
    reached, however the events of the two backends interleave. *)
Theorem pairing_of_the_two_adapters (ext : Collaborators) (options : Options)
    (timeline : list arrival) :
  useMergeCombine options = false ->
  bundler_never_fails timeline = true ->
  responses (baseSubscriber ext options timeline)
  = map (paired (mainOutfile ext options))
      (zipStart ext
       :: combine (values (run (esbuild_only ext) es_init timeline))
                  (values (run (tsc_only ext) tsc_init timeline))).
Proof.
  intros Hzip Hok. unfold baseSubscriber. rewrite Hzip.
  unfold zipBranch. rewrite responses_zip_effects. cbn [values].
  rewrite (zip_run_pairs _ zip_init (adapters_no_errors ext timeline adapters_init Hok) eq_refl).
  unfold zip_pending; cbn [zip_init zipStopped bundlerComplete checkerComplete
                            bundlerBuffer checkerBuffer app].
  rewrite adapters_project_bundler, adapters_project_checker. reflexivity.
Qed.

(** The bundler fails to build, then the type checker reports no error:
    one combined result, success = false, with its outfile. *)
Lemma pairing_of_the_two_adapters_witness :
  let timeline :=
    [FromESBuild "9:00:00 AM" (Next (failed "err"));
     FromTSC "9:00:01 AM" (Next (infoFragment "Found 0 errors"))] in
  useMergeCombine (pairing true) = false
  /\ bundler_never_fails timeline = true
  /\ responses (baseSubscriber plain (pairing true) timeline)
     = [{| build_success := true; outfile := Some "dist/app/main.js" |};
        {| build_success := false; outfile := Some "dist/app/main.js" |}].
Proof.
  intros timeline. split; [reflexivity|]. split; [reflexivity|].
  exact (pairing_of_the_two_adapters plain (pairing true) timeline eq_refl eq_refl).
Defined.

(** ** Termination of the streams *)

Section Termination.
Variables (St In A : Type).
Variable step : St -> In -> St * list (notification A).
Variable stopped : St -> bool.
Hypothesis absorbs : forall st x, stopped st = true -> step st x = (st, []).
Hypothesis tidy :
  forall st x,
    terminated_once (snd (step st x)) = true
    /\ (existsb (@is_terminal A) (snd (step st x)) = true -> stopped (fst (step st x)) = true).

Lemma terminated_once_app (xs ys : list (notification A)) :
  existsb (@is_terminal A) xs = false ->
  terminated_once (xs ++ ys) = terminated_once ys.
Proof.
  induction xs as [|n xs IH]; simpl; [reflexivity|].
  destruct (is_terminal n); [discriminate|]. exact IH.
Qed.

Lemma run_terminated_once (xs : list In) (st : St) : terminated_once (run step st xs) = true.
Proof.
  revert st; induction xs as [|x xs IH]; intros st; simpl; [reflexivity|].
  destruct (tidy st x) as [Hout Hstop].
  destruct (existsb (@is_terminal A) (snd (step st x))) eqn:Hterm.
  - destruct (run_absorbing step (fun st => stopped st = true) absorbs xs _ (Hstop eq_refl))
      as [-> _].
    rewrite app_nil_r. exact Hout.
  - rewrite terminated_once_app by exact Hterm. apply IH.
Qed.

End Termination.

Lemma zip_terminated_once (adapted : list (source * notification RunnerSubcriber))
    (st : ZipState) :
  terminated_once (run zip_step st adapted) = true.
Proof.
  apply (run_terminated_once zip_step zipStopped).
  - intros st' x Hst. unfold zip_step. rewrite Hst. reflexivity.
  - intros [eb tb ec tc stp] [s n]. unfold zip_step; cbn [fst snd zipStopped].
    destruct stp; [split; [reflexivity|discriminate]|].
    destruct s; cbn [bundlerComplete checkerComplete].
    + destruct ec; [split; [reflexivity|discriminate]|].
      destruct n as [v|e|]; [| split; reflexivity |].
      * unfold checkIterators; cbn [bundlerBuffer checkerBuffer bundlerComplete checkerComplete].
        destruct (eb ++ [v]) as [|b bs]; [split; [reflexivity|discriminate]|].
        destruct tb as [|t ts]; [split; [reflexivity|discriminate]|].
        cbn [fst snd zipStopped].
        destruct (is_nil bs && false || is_nil ts && tc); split; try reflexivity; discriminate.
      * cbn [bundlerBuffer]. destruct (is_nil eb); [split; reflexivity|].
        cbn [fst snd zipStopped]. destruct tc; split; try reflexivity; discriminate.
    + destruct tc; [split; [reflexivity|discriminate]|].
      destruct n as [v|e|]; [| split; reflexivity |].
      * unfold checkIterators; cbn [bundlerBuffer checkerBuffer bundlerComplete checkerComplete].
        destruct eb as [|b bs]; [split; [reflexivity|discriminate]|].
        destruct (tb ++ [v]) as [|t ts]; [split; [reflexivity|discriminate]|].
        cbn [fst snd zipStopped].
        destruct (is_nil bs && ec || is_nil ts && false); split; try reflexivity; discriminate.
      * cbn [checkerBuffer]. destruct (is_nil tb); [split; reflexivity|].
        cbn [fst snd zipStopped]. destruct ec; split; try reflexivity; discriminate.
Qed.

Lemma merge_terminated_once (adapted : list (source * notification RunnerSubcriber))
    (st : MergeState) :
  terminated_once (run merge_step st adapted) = true.
Proof.
  apply (run_terminated_once merge_step mergeStopped).
  - intros st' x Hst. unfold merge_step. rewrite Hst. reflexivity.
  - intros [b c stp] [s n]. unfold merge_step; cbn [fst snd mergeStopped merge_active].
    destruct stp; [split; [reflexivity|discriminate]|].
    destruct s, b, c, n as [v|e|]; cbn; split; try reflexivity; discriminate.
Qed.

Lemma es_terminated_once (ext : Collaborators) (tl : list arrival) (st : ESState) :
  terminated_once (run (esbuild_only ext) st tl) = true.
Proof.
  apply (run_terminated_once (esbuild_only ext) esStopped).
  - intros st' [now n|now n] Hst; simpl; [|reflexivity].
    unfold esBuildSubscriber. rewrite Hst. reflexivity.
  - intros [c stp] [now n|now n]; cbn [esbuild_only]; [|split; [reflexivity|discriminate]].
    unfold esBuildSubscriber; cbn [esStopped]. destruct stp; [split; [reflexivity|discriminate]|].
    destruct n as [ev|e|]; split; try reflexivity; discriminate.
Qed.

Lemma emitted_zip_effects (ext : Collaborators) (options : Options)
    (ns : list (notification (RunnerSubcriber * RunnerSubcriber))) :
  terminated_once ns = true ->
  terminated_once (emitted (flat_map (zip_effects ext options) ns)) = true.
Proof.
  induction ns as [|[[b t]|e|] ns IH]; simpl; auto.
  - destruct ns; [reflexivity|discriminate].
  - destruct ns; [reflexivity|discriminate].
Qed.

Lemma emitted_merge_effects (ext : Collaborators) (options : Options)
    (ns : list (notification RunnerSubcriber)) :
  terminated_once ns = true ->
  terminated_once (emitted (flat_map (merge_effects ext options) ns)) = true.
Proof.
  induction ns as [|[r|e|] ns IH]; simpl; auto.
  - destruct ns; [reflexivity|discriminate].
  - destruct ns; [reflexivity|discriminate].
Qed.

Lemma emitted_esbuild_effects (ext : Collaborators) (options : Options)
    (ns : list (notification RunnerSubcriber)) :
  terminated_once ns = true ->
  terminated_once (emitted (flat_map (esbuild_effects ext options) ns)) = true.
Proof.
  induction ns as [|[r|e|] ns IH]; simpl; auto.
  - destruct ns; [reflexivity|discriminate].
  - destruct ns; [reflexivity|discriminate].
Qed.

(** Whatever the two backends send, in whatever order and however
    ill-behaved, the stream that [buildExecutor] hands out carries at most
    one terminal notification (an error or a completion) and nothing after
    it; this holds under both policies and with skipTypeCheck. *)
Theorem executor_stream_terminates_once (ext : Collaborators) (options : Options)
    (timeline : list arrival) :
  terminated_once (emitted (subscribed ext options timeline)) = true.
Proof.
  unfold subscribed, baseESBuildSubscriber, baseSubscriber, mergeBranch, zipBranch.
  destruct (skipTypeCheck options).
  - apply emitted_esbuild_effects, es_terminated_once.
  - destruct (useMergeCombine options).
    + apply emitted_merge_effects. cbn [terminated_once is_terminal].
      apply merge_terminated_once.
    + apply emitted_zip_effects. cbn [terminated_once is_terminal].
      apply zip_terminated_once.
Qed.

(** ** The merge policy keeps every result *)

Lemma merge_run_values (adapted : list (source * notification RunnerSubcriber))
    (st : MergeState) :
  no_errors adapted = true ->
  mergeStopped st = false ->
  respects (bundlerActive st) (checkerActive st) adapted = true ->
  values (run merge_step st adapted) = values (map snd adapted).
Proof.
  revert st; induction adapted as [|[s n] adapted IH]; intros [b c stp] Hne Hstop Hres.
  - reflexivity.
  - simpl in Hne. apply andb_true_iff in Hne. destruct Hne as [Hn Hne].
    cbn [mergeStopped] in Hstop. subst stp.
    cbn [respects bundlerActive checkerActive] in Hres.
    cbn [run map snd]. rewrite values_app.
    destruct s; apply andb_true_iff in Hres; destruct Hres as [Hon Hres]; subst;
      cbn [merge_step fst snd mergeStopped merge_active bundlerActive checkerActive orb negb].
    + destruct n as [v|e|]; [|discriminate Hn|]; cbn [negb is_terminal] in Hres.
      * cbn [fst snd values app negb]. f_equal. apply IH; [exact Hne|reflexivity|exact Hres].
      * cbn [negb orb]. destruct c; cbn [fst snd values app].
        -- apply IH; [exact Hne|reflexivity|exact Hres].
        -- destruct adapted as [|[[] n'] rest]; [reflexivity|discriminate Hres|discriminate Hres].
    + destruct n as [v|e|]; [|discriminate Hn|]; cbn [negb is_terminal] in Hres.
      * cbn [fst snd values app negb]. f_equal. apply IH; [exact Hne|reflexivity|exact Hres].
      * cbn [negb orb]. destruct b; cbn [fst snd values app orb].
        -- apply IH; [exact Hne|reflexivity|exact Hres].
        -- destruct adapted as [|[[] n'] rest]; [reflexivity|discriminate Hres|discriminate Hres].
Qed.

Ltac use_respect_IH IH :=
  match goal with
  | |- respects _ _ (run _ ?st _) = true => exact (IH st)
  end.

Lemma adapters_respect (ext : Collaborators) (tl : list arrival) (st : Adapters) :
  respects (negb (esStopped (es st))) (negb (tscStopped (tsc st)))
    (run (adapters_step ext) st tl) = true.
Proof.
  revert st; induction tl as [|[now n|now n] tl IH]; intros [[c estop] [k acc tstop]].
  - reflexivity.
  - cbn [run adapters_step fst snd es tsc]. unfold esBuildSubscriber; cbn [esStopped].
    destruct estop.
    + cbn [fst snd map app]. use_respect_IH IH.
    + destruct n as [ev|e|]; cbn [fst snd map app respects negb is_terminal andb];
        use_respect_IH IH.
  - cbn [run adapters_step fst snd es tsc]. unfold tscSubscriber; cbn [tscStopped].
    destruct tstop.
    + cbn [fst snd map app]. use_respect_IH IH.
    + destruct n as [res|e|].
      * destruct (bufferUntil cycleComplete _ _) as [acc' [batch|]];
          cbn [fst snd map app respects negb is_terminal andb esStopped tscStopped es tsc];
          use_respect_IH IH.
      * cbn [fst snd map app respects negb is_terminal andb esStopped tscStopped es tsc].
        use_respect_IH IH.
      * cbn [fst snd map app respects negb is_terminal andb esStopped tscStopped es tsc].
        use_respect_IH IH.
Qed.

(** Independent merge from end to end: as long as the bundler source
    raises no error, the combined stream carries the starting value and
    then one response for every result either adapter passes on, in the
    order of arrival, each with the success of its own result; none is
    dropped, paired or repeated, even after the other backend has
    completed. *)
Theorem merge_keeps_every_result_in_order (ext : Collaborators) (options : Options)
    (timeline : list arrival) :
  useMergeCombine options = true ->
  bundler_never_fails timeline = true ->
  responses (baseSubscriber ext options timeline)
  = map (merged (mainOutfile ext options))
      (mergeStart ext :: values (map snd (run (adapters_step ext) adapters_init timeline))).
Proof.
  intros Hmerge Hok. unfold baseSubscriber. rewrite Hmerge.
  unfold mergeBranch. rewrite responses_merge_effects. cbn [values].
  rewrite (merge_run_values _ merge_init
             (adapters_no_errors ext timeline adapters_init Hok) eq_refl
             (adapters_respect ext timeline adapters_init)).
  reflexivity.
Qed.

(** The bundler builds and completes; the type checker then reports one
    failed cycle: three responses. *)
Lemma merge_keeps_every_result_in_order_witness :
  let timeline :=
    [FromESBuild "9:00:00 AM" (Next built);
     FromESBuild "9:00:00 AM" Complete;
     FromTSC "9:00:01 AM" (Next (infoFragment "Found 3 errors."))] in
  useMergeCombine (merging false) = true
  /\ bundler_never_fails timeline = true
  /\ responses (baseSubscriber plain (merging false) timeline)
     = [{| build_success := true; outfile := Some "dist/app/main.js" |};
        {| build_success := true; outfile := Some "dist/app/main.js" |};
        {| build_success := false; outfile := Some "dist/app/main.js" |}].
Proof.
  intros timeline. split; [reflexivity|]. split; [reflexivity|].
  exact (merge_keeps_every_result_in_order plain (merging false) timeline eq_refl eq_refl).
Defined.

(** ** What a one-shot Promise can resolve to *)

Lemma toPromise_from_kept (A : Type) (ns : list (notification A)) (v : A) :
  toPromise_from (Some v) ns <> Resolved None.
Proof.
  revert v; induction ns as [|[w|e|] ns IH]; intros v; simpl; try discriminate.
  apply IH.
Qed.

(** In one-shot mode with type checking, the Promise never resolves to
    [undefined]: the starting value is always there to be kept.  With
    skipTypeCheck it does resolve to [undefined], exactly when the bundler
    source completes before it has sent any event. *)
Theorem one_shot_resolves_to_undefined_only_without_events (ext : Collaborators)
    (options : Options) (timeline : list arrival) :
  watch options = false ->
  (skipTypeCheck options = false ->
   buildExecutor ext options timeline <> AsPromise (Resolved None))
  /\ (skipTypeCheck options = true ->
      (buildExecutor ext options timeline = AsPromise (Resolved None)
       <-> exists rest,
             run (esbuild_only ext) es_init timeline = Complete :: rest)).
Proof.
  intros Hwatch. unfold buildExecutor. rewrite Hwatch. split; intros Hskip; rewrite Hskip;
    cbn [negb andb].
  - unfold baseSubscriber, mergeBranch, zipBranch.
    destruct (useMergeCombine options); cbn [flat_map merge_effects zip_effects zipStart app];
      cbn [emitted app toPromise toPromise_from]; unfold toPromise; cbn [toPromise_from];
      intros [= H]; exact (toPromise_from_kept _ _ H).
  - unfold baseESBuildSubscriber.
    destruct (run (esbuild_only ext) es_init timeline) as [|[r|e|] ns].
    + split; [discriminate|]. intros [rest H]. discriminate H.
    + cbn. split.
      * intros [= H]. exfalso. exact (toPromise_from_kept _ _ H).
      * intros [rest H]. discriminate H.
    + cbn. split; [discriminate|]. intros [rest H]. discriminate H.
    + cbn. split; [|reflexivity]. intros _. exists ns. reflexivity.
Qed.

(** A bundler that completes at once, with and without type checking. *)
Lemma one_shot_resolves_to_undefined_only_without_events_witness :
  watch (bundling false) = false
  /\ buildExecutor plain (bundling false) [FromESBuild "9:00:00 AM" Complete]
     = AsPromise (Resolved None).
Proof.
  split; [reflexivity|].
  apply (proj2 (one_shot_resolves_to_undefined_only_without_events plain (bundling false)
                  [FromESBuild "9:00:00 AM" Complete] eq_refl) eq_refl).
  exists []. reflexivity.
Defined.

(** ** A marker that arrives in the error field *)

(** When the [Found <count> error] marker arrives in the error field of
    a fragment, that fragment closes the cycle and the cycle fails,
    whatever the count: [hasErrors] starts as [Boolean(error)], and a text
    that matches the marker is not empty. *)
Theorem marker_in_error_text_fails_the_cycle (ext : Collaborators) (counter : nat)
    (now : string) (res : TscFragment) (batch : list CheckedFragment) :
  found_marker (error res) = true ->
  In (checkFragment ext counter now res) batch ->
  cycleComplete (checkFragment ext counter now res) = true
  /\ success (foldCycle batch) = false.
Proof.
  intros Hmark Hin. split.
  - unfold cycleComplete; cbn [checkFragment fragment]. rewrite Hmark. apply orb_true_r.
  - destruct (success (foldCycle batch)) eqn:Hs; [|reflexivity].
    pose proof (proj1 (foldCycle_success batch) Hs _ Hin) as Hno.
    assert (Hyes : hasErrors (checkFragment ext counter now res) = true).
    { apply hasErrors_checkFragment. left.
      destruct (error res) as [e|]; [|discriminate Hmark].
      apply marker_text_is_truthy. exact Hmark. }
    congruence.
Qed.

(** The clean report of a watch run, sent on the error channel. *)
Lemma marker_in_error_text_fails_the_cycle_witness :
  found_marker (error (errorFragment "Found 0 errors. Watching for file changes.")) = true
  /\ success (foldCycle [checkFragment plain 1 "9:00:00 AM"
                           (errorFragment "Found 0 errors. Watching for file changes.")])
     = false.
Proof.
  split; [reflexivity|].
  exact (proj2 (marker_in_error_text_fails_the_cycle plain 1 "9:00:00 AM"
                  (errorFragment "Found 0 errors. Watching for file changes.")
                  [checkFragment plain 1 "9:00:00 AM"
                     (errorFragment "Found 0 errors. Watching for file changes.")]
                  eq_refl (or_introl eq_refl))).
Defined.

(** ** The layout directory *)

Lemma split_slash_cons (s : string) : exists x xs, split_slash s = x :: xs.
Proof.
  induction s as [|c s (x & xs & IH)]; simpl.
  - eauto.
  - destruct (Ascii.eqb c "/"); [eauto|]. rewrite IH. eauto.
Qed.

Lemma join_cons_cons (sep x y : string) (rest : list string) :
  JS.join sep (x :: y :: rest) = (x ++ sep ++ JS.join sep (y :: rest))%string.
Proof. reflexivity. Qed.

Lemma join_split_slash (s : string) : JS.join "/" (split_slash s) = s.
Proof.
  induction s as [|c s IH]; [reflexivity|].
  cbn [split_slash]. destruct (split_slash_cons s) as (x & xs & Hs).
  rewrite Hs in *. destruct (Ascii.eqb_spec c "/") as [->|Hc].
  - rewrite join_cons_cons, IH. reflexivity.
  - destruct xs as [|y ys].
    + cbn [JS.join] in *. congruence.
    + rewrite join_cons_cons in IH. rewrite join_cons_cons.
      change ((String c x ++ "/" ++ JS.join "/" (y :: ys))%string)
        with (String c (x ++ "/" ++ JS.join "/" (y :: ys))%string).
      rewrite IH. reflexivity.
Qed.

Lemma includes_slash_cons (c : ascii) (s : string) :
  JS.includes (String c s) "/" = Ascii.eqb c "/" || JS.includes s "/".
Proof.
  cbn [JS.includes String.prefix].
  destruct (ascii_dec "/" c) as [<-|Hc].
  - destruct s; reflexivity.
  - destruct (Ascii.eqb_spec c "/") as [->|_]; [congruence|reflexivity].
Qed.

Lemma first_segment_has_no_slash (s x : string) (xs : list string) :
  split_slash s = x :: xs -> JS.includes x "/" = false.
Proof.
  revert x xs; induction s as [|c s IH]; intros x xs; cbn [split_slash].
  - intros [= <- <-]. reflexivity.
  - destruct (Ascii.eqb c "/") eqn:Hc.
    + intros [= <- <-]. reflexivity.
    + destruct (split_slash_cons s) as (y & ys & Hs). rewrite Hs.
      intros [= <- <-]. rewrite includes_slash_cons, Hc. exact (IH _ _ Hs).
Qed.

(** [appsLayout] is the part of the project root before its first slash:
    [split] always returns at least one segment, so the ['apps'] after [??]
    is never used.  It holds no slash, the root is either equal to it or
    continues with a slash, and an absolute root (or an empty one) gives
    the empty string.  Joining the segments with slashes gives the root
    back. *)
Theorem appsLayout_is_the_first_segment (projectRoot : string) :
  (exists rest, split_slash projectRoot = appsLayout projectRoot :: rest)
  /\ JS.join "/" (split_slash projectRoot) = projectRoot
  /\ JS.includes (appsLayout projectRoot) "/" = false
  /\ (projectRoot = appsLayout projectRoot
      \/ exists tail, projectRoot = (appsLayout projectRoot ++ "/" ++ tail)%string)
  /\ (forall tail, appsLayout (String "/" tail) = "").
Proof.
  unfold appsLayout. destruct (split_slash_cons projectRoot) as (x & xs & Hs).
  pose proof (join_split_slash projectRoot) as Hjoin.
  pose proof (first_segment_has_no_slash projectRoot Hs) as Hx.
  rewrite Hs in *. split; [eauto|]. split; [exact Hjoin|]. split; [exact Hx|]. split.
  - destruct xs as [|y ys].
    + left. symmetry. exact Hjoin.
    + right. exists (JS.join "/" (y :: ys)). symmetry. exact Hjoin.
  - intros tail. reflexivity.
Qed.

Example appsLayout_of_a_package :
  appsLayout "packages/nx-plugin-esbuild" = "packages" /\ appsLayout "apps" = "apps"
  /\ appsLayout "" = "".
Proof. repeat split; reflexivity. Qed.

(** * The copy plug-in *)

(** ** Formatting the asset pairs *)

Lemma filter_map_In (A B : Type) (f : A -> option B) (l : list A) (y : B) :
  In y (Copy.filter_map f l) <-> exists a, In a l /\ f a = Some y.
Proof.
  induction l as [|a l IH]; simpl.
  - split; [contradiction|]. intros (a & [] & _).
  - destruct (f a) as [b|] eqn:Hfa; simpl; rewrite IH; split.
    + intros [<-|(a' & Hin & Ha')]; [exists a; auto|exists a'; auto].
    + intros (a' & [<-|Hin] & Ha'); [left; congruence|right; exists a'; auto].
    + intros (a' & Hin & Ha'). exists a'. auto.
    + intros (a' & [<-|Hin] & Ha'); [congruence|exists a'; auto].
Qed.

Lemma filter_map_length (A B : Type) (f : A -> option B) (l : list A) :
  length (Copy.filter_map f l) <= length l.
Proof.
  induction l as [|a l IH]; simpl; [lia|]. destruct (f a); simpl; lia.
Qed.

Lemma filter_map_app (A B : Type) (f : A -> option B) (l1 l2 : list A) :
  Copy.filter_map f (l1 ++ l2) = Copy.filter_map f l1 ++ Copy.filter_map f l2.
Proof.
  induction l1 as [|a l1 IH]; simpl; [reflexivity|].
  destruct (f a); simpl; rewrite IH; reflexivity.
Qed.

Lemma filter_map_formatAsset (assets : Copy.MaybeArray Copy.AssetPair) :
  Copy.formatAssets assets = map formattedPair (filter usablePair (Copy.ensureArray assets)).
Proof.
  unfold Copy.formatAssets.
  induction (Copy.ensureArray assets) as [|a l IH]; [reflexivity|].
  assert (Hstep : Copy.formatAsset a
                  = if usablePair a then Some (formattedPair a) else None).
  { unfold Copy.formatAsset, usablePair, formattedPair.
    destruct (Copy.from a) as [f|]; [|reflexivity].
    destruct (Copy.to a) as [t|]; [|rewrite andb_false_r; reflexivity].
    reflexivity. }
  cbn [Copy.filter_map filter]. rewrite IH, Hstep.
  destruct (usablePair a); reflexivity.
Qed.

(** [formatAssets] keeps, in their order, exactly the asset pairs whose
    [from] and [to] are both given (a non-empty string, or an array, even
    an empty one), each with its paths turned into arrays and with
    keepStructure false when it is left out; a pair that lacks one of the
    two, or has the empty string there, is dropped without a word. *)
Theorem formatAssets_keeps_the_usable_pairs (assets : Copy.MaybeArray Copy.AssetPair) :
  (forall fa,
     In fa (Copy.formatAssets assets) <->
     exists a f t,
       In a (Copy.ensureArray assets)
       /\ Copy.from a = Some f /\ Copy.to a = Some t
       /\ Copy.given (Some f) = true /\ Copy.given (Some t) = true
       /\ fa = {| Copy.fromPaths := Copy.ensureArray f;
                  Copy.toPaths := Copy.ensureArray t;
                  Copy.keep := Copy.orElse (Copy.keepStructure a) false |})
  /\ length (Copy.formatAssets assets) <= length (Copy.ensureArray assets)
  /\ (forall a rest,
        Copy.ensureArray assets = a :: rest ->
        Copy.given (Copy.from a) && Copy.given (Copy.to a) = false ->
        Copy.formatAssets assets = Copy.formatAssets (Copy.Many rest))
  /\ Copy.formatAssets assets
     = map formattedPair (filter usablePair (Copy.ensureArray assets))
  /\ (forall before after,
        Copy.ensureArray assets = before ++ after ->
        Copy.formatAssets assets
        = Copy.formatAssets (Copy.Many before) ++ Copy.formatAssets (Copy.Many after)).
Proof.
  split; [|split; [|split; [|split]]]; cycle 3.
  - apply filter_map_formatAsset.
  - intros before after Hassets. unfold Copy.formatAssets. rewrite Hassets.
    apply filter_map_app.
  - intros fa. unfold Copy.formatAssets. rewrite filter_map_In. split.
    + intros (a & Hin & Hfa). unfold Copy.formatAsset in Hfa.
      destruct (Copy.from a) as [f|] eqn:Hf; [|discriminate].
      destruct (Copy.to a) as [t|] eqn:Ht; [|discriminate].
      destruct (Copy.given (Some f) && Copy.given (Some t)) eqn:Hg; [|discriminate].
      apply andb_true_iff in Hg. destruct Hg as [Hgf Hgt].
      injection Hfa as <-. exists a, f, t. rewrite Hf, Ht. repeat split; auto.
    + intros (a & f & t & Hin & Hf & Ht & Hgf & Hgt & ->). exists a. split; [exact Hin|].
      unfold Copy.formatAsset. rewrite Hf, Ht, Hgf, Hgt. reflexivity.
  - apply filter_map_length.
  - intros a rest Hassets Hnot. unfold Copy.formatAssets. rewrite Hassets.
    cbn [Copy.filter_map Copy.ensureArray]. unfold Copy.formatAsset.
    destruct (Copy.from a) as [f|]; [|reflexivity].
    destruct (Copy.to a) as [t|]; [|reflexivity].
    rewrite Hnot. reflexivity.
Qed.

Example formatAssets_on_a_mixed_list :
  Copy.formatAssets
    (Copy.Many
       [{| Copy.from := Some (Copy.One "assets/*"); Copy.to := Some (Copy.One "static");
           Copy.keepStructure := None |};
        {| Copy.from := Some (Copy.One ""); Copy.to := Some (Copy.One "static");
           Copy.keepStructure := Some true |};
        {| Copy.from := Some (Copy.Many []); Copy.to := Some (Copy.Many ["a"; "b"]);
           Copy.keepStructure := Some true |};
        {| Copy.from := Some (Copy.One "x"); Copy.to := None; Copy.keepStructure := None |}])
  = [{| Copy.fromPaths := ["assets/*"]; Copy.toPaths := ["static"]; Copy.keep := false |};
     {| Copy.fromPaths := []; Copy.toPaths := ["a"; "b"]; Copy.keep := true |}].
Proof. reflexivity. Qed.

(** ** Paths without repetition *)

Lemma seen_In (p : string) (seen : list string) :
  existsb (String.eqb p) seen = true <-> In p seen.
Proof.
  rewrite existsb_exists. split.
  - intros (q & Hin & Heq). apply String.eqb_eq in Heq. subst. exact Hin.
  - intros Hin. exists p. split; [exact Hin|apply String.eqb_refl].
Qed.

Lemma dedupe_from_In (paths seen : list string) (p : string) :
  In p (Copy.dedupe_from seen paths) <-> In p paths /\ ~ In p seen.
Proof.
  revert seen; induction paths as [|q paths IH]; intros seen; simpl.
  - tauto.
  - destruct (existsb (String.eqb q) seen) eqn:Hq.
    + apply seen_In in Hq. rewrite IH. split.
      * intros [Hin Hns]. auto.
      * intros [[<-|Hin] Hns]; [contradiction|auto].
    + assert (Hnq : ~ In q seen) by (intros H; apply seen_In in H; congruence).
      simpl. rewrite IH. simpl. split.
      * intros [<-|[Hin Hns]]; [auto|]. split; [auto|]. intros H. apply Hns. auto.
      * intros [[<-|Hin] Hns]; [auto|].
        destruct (string_dec q p) as [<-|Hne]; [auto|]. right. split; [exact Hin|].
        intros [H|H]; [exact (Hne H)|exact (Hns H)].
Qed.

Lemma dedupe_from_NoDup (paths seen : list string) : NoDup (Copy.dedupe_from seen paths).
Proof.
  revert seen; induction paths as [|q paths IH]; intros seen; simpl.
  - constructor.
  - destruct (existsb (String.eqb q) seen); [apply IH|].
    constructor; [|apply IH]. rewrite dedupe_from_In. intros [_ H]. apply H. left. reflexivity.
Qed.

Lemma dedupe_from_NoDup_id (paths seen : list string) :
  NoDup paths -> (forall p, In p paths -> ~ In p seen) ->
  Copy.dedupe_from seen paths = paths.
Proof.
  revert seen; induction paths as [|q paths IH]; intros seen Hnd Hfresh; simpl.
  - reflexivity.
  - inversion Hnd as [|q' l Hq Hnd']; subst.
    destruct (existsb (String.eqb q) seen) eqn:Hs.
    + apply seen_In in Hs. exfalso. exact (Hfresh q (or_introl eq_refl) Hs).
    + f_equal. apply IH; [exact Hnd'|]. intros p Hin [<-|Hps]; [exact (Hq Hin)|].
      exact (Hfresh p (or_intror Hin) Hps).
Qed.

(** The paths the plug-in copies for one asset pair, [[...new Set(paths)]],
    hold every path that [globby] returned and no other, each once; a list
    without repetition is left as it is, so doing it twice changes nothing;
    and the first path returned stays first. *)
Theorem dedupe_keeps_each_path_once (paths : list string) :
  NoDup (Copy.dedupe paths)
  /\ (forall p, In p (Copy.dedupe paths) <-> In p paths)
  /\ (NoDup paths -> Copy.dedupe paths = paths)
  /\ Copy.dedupe (Copy.dedupe paths) = Copy.dedupe paths
  /\ hd_error (Copy.dedupe paths) = hd_error paths.
Proof.
  unfold Copy.dedupe. split; [apply dedupe_from_NoDup|]. split; [|split; [|split]].
  - intros p. rewrite dedupe_from_In. simpl. tauto.
  - intros Hnd. apply dedupe_from_NoDup_id; [exact Hnd|]. intros p _ [].
  - apply dedupe_from_NoDup_id; [apply dedupe_from_NoDup|]. intros p _ [].
  - destruct paths; reflexivity.
Qed.

(** ** What the two handlers write *)

Lemma filter_flat_map (A B : Type) (p : B -> bool) (f : A -> list B) (l : list A) :
  filter p (flat_map f l) = flat_map (fun a => filter p (f a)) l.
Proof.
  induction l as [|a l IH]; simpl; [reflexivity|]. rewrite filter_app, IH. reflexivity.
Qed.

Lemma verboseLog_writes_nothing (x : Copy.Externals) (msg : string) (v lb : bool) :
  filter Copy.writes (Copy.verboseLog x msg v lb) = [].
Proof. unfold Copy.verboseLog. destruct v; reflexivity. Qed.

Lemma verboseLog_silent (x : Copy.Externals) (msg : string) (lb : bool) :
  Copy.verboseLog x msg false lb = [].
Proof. reflexivity. Qed.

Lemma mergeCopyHandler_writes (x : Copy.Externals) (outDir fromPath toPath : string)
    (v dry : bool) :
  filter Copy.writes (Copy.mergeCopyHandler x outDir fromPath toPath v dry)
  = if dry then []
    else copyTo x (Copy.resolve x [fromPath]) (mergeDest x outDir fromPath toPath).
Proof.
  unfold Copy.mergeCopyHandler, copyTo, mergeDest.
  rewrite !filter_app, verboseLog_writes_nothing.
  destruct dry; cbn [negb filter Copy.writes app]; [reflexivity|].
  destruct (String.length (Copy.ext (Copy.parse x toPath)) =? 0)%nat; reflexivity.
Qed.

Lemma keepStructureStep_writes (x : Copy.Externals) (outDir globbed baseTo : string)
    (v dry : bool) (rawFrom : string) :
  filter Copy.writes (Copy.keepStructureStep x outDir globbed baseTo v dry rawFrom)
  = (if deepPattern x rawFrom then []
     else copyTo x (Copy.resolve x [globbed]) (mergeDest x outDir globbed baseTo))
    ++ (if dry then []
        else copyTo x (Copy.resolve x [globbed]) (keepDest x outDir rawFrom globbed baseTo)).
Proof.
  unfold Copy.keepStructureStep, deepPattern, keepDest.
  rewrite !filter_app, verboseLog_writes_nothing. f_equal.
  - destruct (Copy.endsWith (Copy.dir (Copy.parse x rawFrom)) "/**"); cbn [negb filter];
      [reflexivity|].
    rewrite filter_app, verboseLog_writes_nothing, mergeCopyHandler_writes. reflexivity.
  - destruct dry; reflexivity.
Qed.

Lemma keepStructureCopyHandler_writes (x : Copy.Externals) (outDir : string)
    (rawFromPath : list string) (globbed baseTo : string) (v dry : bool) :
  filter Copy.writes
    (Copy.keepStructureCopyHandler x outDir rawFromPath globbed baseTo v dry)
  = flat_map
      (fun rawFrom =>
         (if deepPattern x rawFrom then []
          else copyTo x (Copy.resolve x [globbed]) (mergeDest x outDir globbed baseTo))
         ++ (if dry then []
             else copyTo x (Copy.resolve x [globbed])
                    (keepDest x outDir rawFrom globbed baseTo)))
      rawFromPath.
Proof.
  unfold Copy.keepStructureCopyHandler. rewrite filter_flat_map.
  apply flat_map_ext. intros rawFrom. apply keepStructureStep_writes.
Qed.

(** What [keepStructureCopyHandler] writes: for every raw [from] pattern
    in turn, a merge copy of the file when the directory of the pattern
    does not end with [/**], and then, unless dryRun is set, the copy that
    keeps the structure.  The merge copy of the fall-back is made even
    with dryRun, and a pattern that falls back has the file copied to both
    places. *)
Theorem keep_structure_handler_writes (x : Copy.Externals) (outDir : string)
    (rawFromPath : list string) (globbed baseTo : string) (v dry : bool) :
  filter Copy.writes
    (Copy.keepStructureCopyHandler x outDir rawFromPath globbed baseTo v dry)
  = flat_map
      (fun rawFrom =>
         (if deepPattern x rawFrom then []
          else copyTo x (Copy.resolve x [globbed]) (mergeDest x outDir globbed baseTo))
         ++ (if dry then []
             else copyTo x (Copy.resolve x [globbed])
                    (keepDest x outDir rawFrom globbed baseTo)))
      rawFromPath.
Proof.
  rewrite (keepStructureCopyHandler_writes x outDir rawFromPath globbed baseTo v dry).
  apply flat_map_ext. intros rawFrom. reflexivity.
Qed.

Example keep_structure_dry_run_still_copies :
  filter Copy.writes
    (Copy.keepStructureCopyHandler plainExternals "dist" ["assets/*"] "assets/a.txt" "static"
       true true)
  = [Copy.EnsureDir "/work/dist"; Copy.CopyFile "/work/assets/a.txt" "/work/dist/a.txt"].
Proof. reflexivity. Qed.

(** ** Where the structure goes *)

Lemma endsWith_app (a t : string) : Copy.endsWith (a ++ t) t = true.
Proof.
  induction a as [|c a IH].
  - destruct t as [|c t]; [reflexivity|].
    cbn [append Copy.endsWith]. rewrite String.eqb_refl. reflexivity.
  - change ((String c a ++ t)%string) with (String c (a ++ t)).
    cbn [Copy.endsWith]. rewrite IH.
    destruct (String.eqb (String c (a ++ t)) t); reflexivity.
Qed.

Lemma remove_first_at_front (t rest : string) : Copy.remove_first (t ++ rest) t = rest.
Proof.
  assert (H : JS.strip t (t ++ rest) = Some rest) by (apply strip_split; reflexivity).
  destruct (t ++ rest)%string; simpl; simpl in H; rewrite H; reflexivity.
Qed.

Lemma remove_first_absent (s t : string) :
  JS.includes s t = false -> Copy.remove_first s t = s.
Proof.
  induction s as [|c s IH]; cbn [JS.includes Copy.remove_first]; intros Hinc.
  - destruct (String.prefix t "") eqn:Hp; [discriminate|].
    destruct (JS.strip t "") as [r|] eqn:Hs; [|reflexivity].
    apply strip_split in Hs.
    assert (String.prefix t "" = true) by (apply prefix_split; eauto). congruence.
  - destruct (String.prefix t (String c s)) eqn:Hp; [discriminate|].
    destruct (JS.strip t (String c s)) as [r|] eqn:Hs.
    + apply strip_split in Hs.
      assert (String.prefix t (String c s) = true) by (apply prefix_split; eauto).
      congruence.
    + rewrite (IH Hinc). reflexivity.
Qed.

Lemma remove_deep_suffix (a : string) :
  JS.includes a "/**" = false -> Copy.remove_first (a ++ "/**") "/**" = a.
Proof.
  induction a as [|c a IH]; intros Hinc.
  - reflexivity.
  - cbn [JS.includes] in Hinc.
    destruct (String.prefix "/**" (String c a)) eqn:Hp; [discriminate|].
    change ((String c a ++ "/**")%string) with (String c (a ++ "/**")).
    cbn [Copy.remove_first].
    destruct (JS.strip "/**" (String c (a ++ "/**"))) as [r|] eqn:Hs.
    + exfalso. apply strip_split in Hs. cbn [append] in Hs.
      injection Hs as -> Hs.
      destruct a as [|c1 a]; cbn [append] in Hs; [discriminate Hs|].
      injection Hs as -> Hs.
      destruct a as [|c2 a]; cbn [append] in Hs; [discriminate Hs|].
      injection Hs as -> Hs.
      assert (Hyes : String.prefix "/**" (String "/" (String "*" (String "*" a))) = true)
        by (apply prefix_split; exists a; reflexivity).
      congruence.
    + rewrite (IH Hinc). reflexivity.
Qed.

(** The copy that keeps the structure, when the pattern is
    [<start>/**/...] and the file found is [<start>/<relative path>]: the
    file goes to [path.resolve(outDir, to, <relative path>)], so the
    directories below [start] are kept under [to]. *)
Theorem keep_structure_keeps_the_relative_path (x : Copy.Externals)
    (outDir rawFrom baseTo start relative : string) :
  Copy.dir (Copy.parse x rawFrom) = (start ++ "/**")%string ->
  JS.includes start "/**" = false ->
  deepPattern x rawFrom = true
  /\ keepDest x outDir rawFrom (start ++ String "/" relative) baseTo
     = Copy.resolve x [outDir; baseTo; relative]
  /\ filter Copy.writes
       (Copy.keepStructureCopyHandler x outDir [rawFrom] (start ++ String "/" relative)
          baseTo false false)
     = [Copy.EnsureDir (Copy.dirname x (Copy.resolve x [outDir; baseTo; relative]));
        Copy.CopyFile (Copy.resolve x [(start ++ String "/" relative)%string])
          (Copy.resolve x [outDir; baseTo; relative])].
Proof.
  intros Hdir Hstart.
  assert (Hdeep : deepPattern x rawFrom = true).
  { unfold deepPattern. rewrite Hdir. apply endsWith_app. }
  assert (Hdest : keepDest x outDir rawFrom (start ++ String "/" relative) baseTo
                  = Copy.resolve x [outDir; baseTo; relative]).
  { unfold keepDest. rewrite Hdir, (remove_deep_suffix start Hstart).
    rewrite remove_first_at_front. reflexivity. }
  split; [exact Hdeep|]. split; [exact Hdest|].
  rewrite keepStructureCopyHandler_writes. cbn [flat_map]. rewrite Hdeep, Hdest.
  reflexivity.
Qed.

Lemma keep_structure_keeps_the_relative_path_witness :
  Copy.dir (Copy.parse plainExternals "assets/**/*") = ("assets" ++ "/**")%string
  /\ JS.includes "assets" "/**" = false
  /\ keepDest plainExternals "dist" "assets/**/*" "assets/img/b.png" "static"
     = "/work/dist/static/img/b.png".
Proof.
  split; [reflexivity|]. split; [reflexivity|].
  exact (proj1 (proj2 (keep_structure_keeps_the_relative_path plainExternals "dist"
                         "assets/**/*" "static" "assets" "img/b.png" eq_refl eq_refl))).
Defined.

(** The copy that keeps the structure, when the file found does not
    contain the start of the pattern (a pattern written [./assets/**/*]
    finds [assets/...]): nothing is taken out of the path but its first
    character, and the file goes to [path.resolve(outDir, to, <path without
    its first character>)]. *)
Theorem keep_structure_cuts_one_character_otherwise (x : Copy.Externals)
    (outDir rawFrom globbed baseTo : string) :
  JS.includes globbed (Copy.remove_first (Copy.dir (Copy.parse x rawFrom)) "/**") = false ->
  keepDest x outDir rawFrom globbed baseTo
  = Copy.resolve x [outDir; baseTo; Copy.slice1 globbed].
Proof.
  intros Habsent. unfold keepDest. rewrite (remove_first_absent _ _ Habsent). reflexivity.
Qed.

Lemma keep_structure_cuts_one_character_otherwise_witness :
  JS.includes "assets/img/b.png"
    (Copy.remove_first (Copy.dir (Copy.parse plainExternals "./assets/**/*")) "/**") = false
  /\ keepDest plainExternals "dist" "./assets/**/*" "assets/img/b.png" "static"
     = "/work/dist/static/ssets/img/b.png".
Proof.
  split; [reflexivity|].
  exact (keep_structure_cuts_one_character_otherwise plainExternals "dist" "./assets/**/*"
           "assets/img/b.png" "static" eq_refl).
Defined.

(** ** One run of the plug-in *)

Lemma copyAsset_writes (x : Copy.Externals) (o : Copy.Options) (d : string)
    (asset : Copy.FormattedAsset) :
  filter Copy.writes (Copy.copyAsset x o d asset) = assetWrites x o d asset.
Proof.
  unfold Copy.copyAsset, assetWrites, keeping.
  rewrite !filter_app, verboseLog_writes_nothing.
  assert (Hnone : filter Copy.writes
                    (if is_nil (Copy.dedupe (Copy.globby x (Copy.fromPaths asset)))
                     then Copy.verboseLog x
                            ("No files matched using current glob pattern: "
                             ++ Copy.white x (JS.join "," (Copy.fromPaths asset))
                             ++ ", maybe you need to configure globby by "
                             ++ Copy.white x "options.globbyOptions" ++ "?")%string
                            (Copy.verbose o) false
                     else []) = []).
  { destruct (is_nil _); [apply verboseLog_writes_nothing|reflexivity]. }
  rewrite Hnone. cbn [app]. rewrite filter_flat_map.
  apply flat_map_ext. intros fromPath. rewrite filter_flat_map.
  apply flat_map_ext. intros toPath.
  destruct (Copy.globalKeepStructure o || Copy.keep asset).
  - apply keepStructureCopyHandler_writes.
  - apply mergeCopyHandler_writes.
Qed.

Lemma flat_map_nil (A B : Type) (f : A -> list B) (l : list A) :
  (forall a, In a l -> f a = []) -> flat_map f l = [].
Proof.
  induction l as [|a l IH]; intros H; simpl; [reflexivity|].
  rewrite (H a (or_introl eq_refl)), IH; [reflexivity|].
  intros b Hb. apply H. right. exact Hb.
Qed.

Lemma callback_not_reaching_the_assets (x : Copy.Externals) (o : Copy.Options)
    (io : Copy.InitialOptions) (flag : option string) :
  skipped o flag = true \/ Copy.formatAssets (Copy.assets o) = []
  \/ outDirResolve x o io = None ->
  filter Copy.writes (Copy.actions (Copy.callback x o io flag)) = []
  /\ Copy.executedFlag (Copy.callback x o io flag) = flag
  /\ (Copy.verbose o = false -> Copy.actions (Copy.callback x o io flag) = [])
  /\ (Copy.threw (Copy.callback x o io flag) = true <->
      skipped o flag = false /\ Copy.formatAssets (Copy.assets o) <> []
      /\ Copy.resolveFrom o = "out" /\ Copy.outdir io = None /\ Copy.outfile io = None).
Proof.
  intros Hwhy. unfold Copy.callback. fold (skipped o flag).
  destruct (skipped o flag) eqn:Hskip.
  { cbn [Copy.actions Copy.executedFlag Copy.threw].
    rewrite verboseLog_writes_nothing.
    split; [reflexivity|]. split; [reflexivity|]. split; [intros ->; reflexivity|].
    split; [discriminate|]. intros [Hno _]. discriminate Hno. }
  destruct (Copy.formatAssets (Copy.assets o)) as [|fa fas] eqn:Hfa.
  { cbn [Copy.actions Copy.executedFlag Copy.threw].
    split; [reflexivity|]. split; [reflexivity|]. split; [reflexivity|].
    split; [discriminate|]. intros (_ & Hno & _). congruence. }
  destruct Hwhy as [Hno|[Hno|Hdir]]; [discriminate Hno|discriminate Hno|].
  unfold outDirResolve in Hdir.
  destruct (String.eqb (Copy.resolveFrom o) "cwd") eqn:Hcwd; [discriminate Hdir|].
  destruct (String.eqb (Copy.resolveFrom o) "out") eqn:Hout; [|discriminate Hdir].
  apply String.eqb_eq in Hout.
  destruct (Copy.outdir io) as [od|], (Copy.outfile io) as [ofile|]; cbn [Copy.orElse] in *.
  - destruct (String.eqb od ""); [|discriminate Hdir].
    cbn [Copy.actions Copy.executedFlag Copy.threw]. rewrite verboseLog_writes_nothing.
    split; [reflexivity|]. split; [reflexivity|]. split; [intros ->; reflexivity|].
    split; [discriminate|]. intros (_ & _ & _ & Hno & _). discriminate Hno.
  - destruct (String.eqb od ""); [|discriminate Hdir].
    cbn [Copy.actions Copy.executedFlag Copy.threw]. rewrite verboseLog_writes_nothing.
    split; [reflexivity|]. split; [reflexivity|]. split; [intros ->; reflexivity|].
    split; [discriminate|]. intros (_ & _ & _ & Hno & _). discriminate Hno.
  - destruct (String.eqb (Copy.dirname x ofile) ""); [|discriminate Hdir].
    cbn [Copy.actions Copy.executedFlag Copy.threw]. rewrite verboseLog_writes_nothing.
    split; [reflexivity|]. split; [reflexivity|]. split; [intros ->; reflexivity|].
    split; [discriminate|]. intros (_ & _ & _ & _ & Hno). discriminate Hno.
  - cbn [Copy.actions Copy.executedFlag Copy.threw].
    split; [reflexivity|]. split; [reflexivity|]. split; [reflexivity|].
    split; [|reflexivity]. intros _.
    split; [reflexivity|]. split; [discriminate|]. split; [exact Hout|].
    split; reflexivity.
Qed.

Lemma perform_all_without_throw (x : Copy.Externals) (planned : list Copy.action)
    (n : nat) :
  snd (snd (Copy.perform x n planned)) = false -> fst (Copy.perform x n planned) = planned.
Proof.
  revert n. induction planned as [|a planned IH]; intros n; cbn [Copy.perform].
  - reflexivity.
  - destruct (Copy.writes a).
    + destruct (Copy.writeFailsAt x n); [discriminate|].
      cbn [fst snd]. intros H. rewrite (IH _ H). reflexivity.
    + cbn [fst snd]. intros H. rewrite (IH _ H). reflexivity.
Qed.

Lemma perform_prefix (x : Copy.Externals) (planned : list Copy.action) (n : nat) :
  exists rest, planned = fst (Copy.perform x n planned) ++ rest.
Proof.
  revert n. induction planned as [|a planned IH]; intros n; cbn [Copy.perform].
  - exists []. reflexivity.
  - destruct (Copy.writes a).
    + destruct (Copy.writeFailsAt x n).
      * exists planned. reflexivity.
      * destruct (IH (S n)) as [rest Hrest]. exists rest. cbn [fst app]. congruence.
    + destruct (IH n) as [rest Hrest]. exists rest. cbn [fst app]. congruence.
Qed.

Lemma perform_without_failure (x : Copy.Externals) (planned : list Copy.action) (n : nat) :
  (forall k, Copy.writeFailsAt x k = false) ->
  fst (Copy.perform x n planned) = planned
  /\ snd (snd (Copy.perform x n planned)) = false.
Proof.
  intros Hok. revert n. induction planned as [|a planned IH]; intros n; cbn [Copy.perform].
  - split; reflexivity.
  - rewrite Hok. destruct (Copy.writes a); cbn [fst snd].
    + destruct (IH (S n)) as [-> ->]. split; reflexivity.
    + destruct (IH n) as [-> ->]. split; reflexivity.
Qed.

Lemma perform_throws_at_a_failure (x : Copy.Externals) (planned : list Copy.action)
    (n : nat) :
  snd (snd (Copy.perform x n planned)) = true -> exists k, Copy.writeFailsAt x k = true.
Proof.
  revert n. induction planned as [|a planned IH]; intros n; cbn [Copy.perform].
  - discriminate.
  - destruct (Copy.writes a).
    + destruct (Copy.writeFailsAt x n) eqn:Hn; [intros _; exists n; exact Hn|].
      cbn [snd]. apply IH.
    + cbn [snd]. apply IH.
Qed.

Lemma copyAssets_prefix (x : Copy.Externals) (o : Copy.Options) (d : string)
    (fas : list Copy.FormattedAsset) (n : nat) (flag : option string) :
  exists rest,
    flat_map (Copy.copyAsset x o d) fas
    = Copy.actions (Copy.copyAssets x o d n flag fas) ++ rest.
Proof.
  revert n flag. induction fas as [|fa fas IH]; intros n flag;
    cbn [Copy.copyAssets flat_map].
  - exists []. reflexivity.
  - destruct (Copy.globbyFails x (Copy.fromPaths fa)).
    { cbn [Copy.actions app]. eexists. reflexivity. }
    destruct (perform_prefix x (Copy.copyAsset x o d fa) n) as [rest Hrest].
    destruct (snd (snd (Copy.perform x n (Copy.copyAsset x o d fa)))) eqn:Hthrew.
    + cbn [Copy.actions]. exists (rest ++ flat_map (Copy.copyAsset x o d) fas).
      rewrite app_assoc, <- Hrest. reflexivity.
    + cbn [Copy.actions].
      destruct (IH (fst (snd (Copy.perform x n (Copy.copyAsset x o d fa)))) (Some "true"))
        as [rest' Hrest'].
      pose proof (perform_all_without_throw x (Copy.copyAsset x o d fa) n Hthrew) as Hall.
      exists rest'. rewrite Hall, <- app_assoc, <- Hrest'. reflexivity.
Qed.

Lemma copyAssets_without_failure (x : Copy.Externals) (o : Copy.Options) (d : string)
    (fas : list Copy.FormattedAsset) (n : nat) (flag : option string) :
  (forall k, Copy.writeFailsAt x k = false) ->
  (forall asset, In asset fas -> Copy.globbyFails x (Copy.fromPaths asset) = false) ->
  Copy.actions (Copy.copyAssets x o d n flag fas) = flat_map (Copy.copyAsset x o d) fas
  /\ Copy.threw (Copy.copyAssets x o d n flag fas) = false
  /\ Copy.executedFlag (Copy.copyAssets x o d n flag fas)
     = if is_nil fas then flag else Some "true".
Proof.
  intros Hw Hg. revert n flag. induction fas as [|fa fas IH]; intros n flag;
    cbn [Copy.copyAssets flat_map is_nil].
  - split; [reflexivity|]. split; reflexivity.
  - rewrite (Hg fa (or_introl eq_refl)).
    destruct (perform_without_failure x (Copy.copyAsset x o d fa) n Hw) as [Hall Hno].
    rewrite Hno. cbn [Copy.actions Copy.threw Copy.executedFlag].
    destruct (IH (fun a Ha => Hg a (or_intror Ha))
                (fst (snd (Copy.perform x n (Copy.copyAsset x o d fa)))) (Some "true"))
      as (Ha & Ht & Hf).
    rewrite Hall, Ha, Ht, Hf. split; [reflexivity|]. split; [reflexivity|].
    destruct fas; reflexivity.
Qed.

Lemma copyAssets_throws_at_a_failure (x : Copy.Externals) (o : Copy.Options) (d : string)
    (fas : list Copy.FormattedAsset) (n : nat) (flag : option string) :
  Copy.threw (Copy.copyAssets x o d n flag fas) = true ->
  (exists k, Copy.writeFailsAt x k = true)
  \/ exists asset, In asset fas /\ Copy.globbyFails x (Copy.fromPaths asset) = true.
Proof.
  revert n flag. induction fas as [|fa fas IH]; intros n flag; cbn [Copy.copyAssets].
  - discriminate.
  - destruct (Copy.globbyFails x (Copy.fromPaths fa)) eqn:Hg.
    { intros _. right. exists fa. split; [left; reflexivity|exact Hg]. }
    destruct (snd (snd (Copy.perform x n (Copy.copyAsset x o d fa)))) eqn:Hthrew.
    + intros _. left. exact (perform_throws_at_a_failure x _ n Hthrew).
    + cbn [Copy.threw]. intros Hlater.
      destruct (IH _ _ Hlater) as [Hw|(asset & Hin & Hfail)]; [left; exact Hw|].
      right. exists asset. split; [right; exact Hin|exact Hfail].
Qed.

Lemma copyAssets_keeps_out (x : Copy.Externals) (o : Copy.Options) (d : string)
    (p : Copy.action -> bool) (fas : list Copy.FormattedAsset) (n : nat)
    (flag : option string) :
  (forall asset, In asset fas -> filter p (Copy.copyAsset x o d asset) = []) ->
  filter p (Copy.actions (Copy.copyAssets x o d n flag fas)) = [].
Proof.
  intros Hnone.
  destruct (copyAssets_prefix x o d fas n flag) as [rest Hrest].
  assert (Hall : filter p (flat_map (Copy.copyAsset x o d) fas) = []).
  { rewrite filter_flat_map. apply flat_map_nil. exact Hnone. }
  rewrite Hrest, filter_app in Hall. apply app_eq_nil in Hall. exact (proj1 Hall).
Qed.

Lemma perform_throws_at_the_first_write (x : Copy.Externals)
    (planned : list Copy.action) (n : nat) :
  Copy.writeFailsAt x n = true -> filter Copy.writes planned <> [] ->
  snd (snd (Copy.perform x n planned)) = true.
Proof.
  intros Hn. induction planned as [|a planned IH]; cbn [Copy.perform filter].
  - congruence.
  - destruct (Copy.writes a); [rewrite Hn; reflexivity|]. cbn [snd]. exact IH.
Qed.

(** What no message and no asset pair brings about, no run does. *)
Lemma callback_keeps_out (x : Copy.Externals) (o : Copy.Options)
    (io : Copy.InitialOptions) (flag : option string) (p : Copy.action -> bool) :
  (forall msg lineBefore,
     filter p (Copy.verboseLog x msg (Copy.verbose o) lineBefore) = []) ->
  (forall d asset, In asset (Copy.formatAssets (Copy.assets o)) ->
                   filter p (Copy.copyAsset x o d asset) = []) ->
  filter p (Copy.actions (Copy.callback x o io flag)) = [].
Proof.
  intros Hlog Hasset.
  assert (Hloop : forall d,
            filter p
              (Copy.verboseLog x ("Resolve assert pair to path from: "
                                  ++ Copy.resolve x [d])%string (Copy.verbose o) false
               ++ Copy.actions
                    (Copy.copyAssets x o d 0 flag (Copy.formatAssets (Copy.assets o))))
            = []).
  { intros d. rewrite filter_app, Hlog. cbn [app].
    apply copyAssets_keeps_out. apply Hasset. }
  unfold Copy.callback.
  destruct (Copy.once o && _); [cbn [Copy.actions]; apply Hlog|].
  destruct (Copy.formatAssets (Copy.assets o)) as [|fa fas] eqn:Hfa; [reflexivity|].
  destruct (String.eqb (Copy.resolveFrom o) "cwd"); [cbn [Copy.actions]; apply Hloop|].
  destruct (String.eqb (Copy.resolveFrom o) "out"); [|cbn [Copy.actions]; apply Hloop].
  destruct (Copy.outdir io) as [od|], (Copy.outfile io) as [ofile|]; cbn [Copy.orElse];
    try reflexivity;
    match goal with
    | |- context [String.eqb ?a ""] => destruct (String.eqb a "")
    end; cbn [Copy.actions]; first [apply Hloop | apply Hlog].
Qed.

(** The callback once it is past the checks: the loop over the assets,
    after the notice of the directory it resolves from. *)
Lemma callback_reaching_the_assets (x : Copy.Externals) (o : Copy.Options)
    (io : Copy.InitialOptions) (flag : option string) (d : string) :
  skipped o flag = false ->
  outDirResolve x o io = Some d ->
  Copy.formatAssets (Copy.assets o) <> [] ->
  Copy.callback x o io flag
  = {| Copy.actions :=
         Copy.verboseLog x ("Resolve assert pair to path from: "
                            ++ Copy.resolve x [d])%string (Copy.verbose o) false
         ++ Copy.actions (Copy.copyAssets x o d 0 flag (Copy.formatAssets (Copy.assets o)));
       Copy.executedFlag :=
         Copy.executedFlag (Copy.copyAssets x o d 0 flag (Copy.formatAssets (Copy.assets o)));
       Copy.threw :=
         Copy.threw (Copy.copyAssets x o d 0 flag (Copy.formatAssets (Copy.assets o))) |}.
Proof.
  intros Hskip Hdir Hsome. unfold skipped in Hskip. unfold Copy.callback. rewrite Hskip.
  destruct (Copy.formatAssets (Copy.assets o)) as [|fa fas] eqn:Hfa; [congruence|].
  unfold outDirResolve in Hdir.
  destruct (String.eqb (Copy.resolveFrom o) "cwd").
  { injection Hdir as <-. reflexivity. }
  destruct (String.eqb (Copy.resolveFrom o) "out").
  - destruct (Copy.outdir io) as [od|], (Copy.outfile io) as [ofile|];
      cbn [Copy.orElse] in *; try discriminate Hdir.
    + destruct (String.eqb od ""); [discriminate Hdir|]. injection Hdir as <-. reflexivity.
    + destruct (String.eqb od ""); [discriminate Hdir|]. injection Hdir as <-. reflexivity.
    + destruct (String.eqb (Copy.dirname x ofile) ""); [discriminate Hdir|].
      injection Hdir as <-. reflexivity.
  - injection Hdir as <-. reflexivity.
Qed.

(** A run that is not skipped and has a directory to resolve from.  What
    the plug-in plans to write is, for every formatted asset pair in order,
    for every distinct file that [globby] finds and every target, the
    copies of the pair's handler, each a directory made sure of and then
    the file.  The calls it makes are always a first part of that plan.
    When no call to the file system and no call to [globby] fails, it
    makes all of them, does not throw, and once a pair has been gone
    through the executed flag is ['true'].  It throws only when one of
    these calls fails. *)
Theorem callback_copies_every_file_to_every_target (x : Copy.Externals) (o : Copy.Options)
    (io : Copy.InitialOptions) (flag : option string) (d : string) :
  skipped o flag = false ->
  outDirResolve x o io = Some d ->
  (exists rest,
     flat_map (assetWrites x o d) (Copy.formatAssets (Copy.assets o))
     = filter Copy.writes (Copy.actions (Copy.callback x o io flag)) ++ rest)
  /\ ((forall k, Copy.writeFailsAt x k = false) ->
      (forall asset, In asset (Copy.formatAssets (Copy.assets o)) ->
                     Copy.globbyFails x (Copy.fromPaths asset) = false) ->
      filter Copy.writes (Copy.actions (Copy.callback x o io flag))
      = flat_map (assetWrites x o d) (Copy.formatAssets (Copy.assets o))
      /\ Copy.threw (Copy.callback x o io flag) = false
      /\ Copy.executedFlag (Copy.callback x o io flag)
         = if is_nil (Copy.formatAssets (Copy.assets o)) then flag else Some "true")
  /\ (Copy.threw (Copy.callback x o io flag) = true ->
      (exists k, Copy.writeFailsAt x k = true)
      \/ exists asset, In asset (Copy.formatAssets (Copy.assets o))
                       /\ Copy.globbyFails x (Copy.fromPaths asset) = true).
Proof.
  intros Hskip Hdir.
  assert (Hplan : forall fas,
            flat_map (assetWrites x o d) fas
            = filter Copy.writes (flat_map (Copy.copyAsset x o d) fas)).
  { intros fas. rewrite filter_flat_map. apply flat_map_ext. intros a.
    symmetry. apply copyAsset_writes. }
  destruct (Copy.formatAssets (Copy.assets o)) as [|fa fas] eqn:Hfa.
  { destruct (callback_not_reaching_the_assets x o io flag (or_intror (or_introl Hfa)))
      as (Hw & Hf & _ & Ht).
    rewrite Hw, Hf. split; [exists []; reflexivity|]. split.
    - intros _ _. split; [reflexivity|]. split; [|reflexivity].
      destruct (Copy.threw _); [|reflexivity].
      destruct (proj1 Ht eq_refl) as (_ & Hsome & _). congruence.
    - intros Hthrew. destruct (proj1 Ht Hthrew) as (_ & Hsome & _). congruence. }
  assert (Hsome : Copy.formatAssets (Copy.assets o) <> []) by (rewrite Hfa; discriminate).
  rewrite (callback_reaching_the_assets x o io flag Hskip Hdir Hsome), Hfa.
  cbn [Copy.actions Copy.threw Copy.executedFlag].
  rewrite filter_app, verboseLog_writes_nothing. cbn [app].
  split; [|split].
  - destruct (copyAssets_prefix x o d (fa :: fas) 0 flag) as [rest Hrest].
    exists (filter Copy.writes rest). rewrite Hplan, Hrest, filter_app. reflexivity.
  - intros Hw Hg.
    destruct (copyAssets_without_failure x o d (fa :: fas) 0 flag Hw Hg) as (Ha & Ht & Hf).
    rewrite Ha, Ht, Hf, Hplan. split; [reflexivity|]. split; reflexivity.
  - apply copyAssets_throws_at_a_failure.
Qed.

(** Two files found (one of them twice) for one target, in merge mode. *)
Lemma callback_copies_every_file_to_every_target_witness :
  skipped (plainCopyOptions false false true false "assets/**/*") None = false
  /\ outDirResolve plainExternals (plainCopyOptions false false true false "assets/**/*")
       (builtTo "dist") = Some "dist"
  /\ filter Copy.writes
       (Copy.actions
          (Copy.callback plainExternals (plainCopyOptions false false true false "assets/**/*")
             (builtTo "dist") None))
     = [Copy.EnsureDir "/work/dist"; Copy.CopyFile "/work/assets/a.txt" "/work/dist/a.txt";
        Copy.EnsureDir "/work/dist"; Copy.CopyFile "/work/assets/img/b.png" "/work/dist/b.png"].
Proof.
  split; [reflexivity|]. split; [reflexivity|].
  exact (proj1 (proj1 (proj2 (callback_copies_every_file_to_every_target plainExternals
                  (plainCopyOptions false false true false "assets/**/*") (builtTo "dist")
                  None eq_refl eq_refl)) (fun _ => eq_refl) (fun _ _ => eq_refl))).
Defined.

(** A run that is skipped because of [once], or finds no usable asset
    pair, or has no directory to resolve from: nothing is written and the
    executed flag keeps its value; with verbose off nothing at all
    happens, not even a message about an invalid [outdir].  The callback
    throws in one case only: resolveFrom is ['out'] and the build options
    have neither [outdir] nor [outfile]. *)
Theorem callback_without_a_directory_writes_nothing (x : Copy.Externals) (o : Copy.Options)
    (io : Copy.InitialOptions) (flag : option string) :
  skipped o flag = true \/ Copy.formatAssets (Copy.assets o) = []
  \/ outDirResolve x o io = None ->
  filter Copy.writes (Copy.actions (Copy.callback x o io flag)) = []
  /\ Copy.executedFlag (Copy.callback x o io flag) = flag
  /\ (Copy.verbose o = false -> Copy.actions (Copy.callback x o io flag) = [])
  /\ (Copy.threw (Copy.callback x o io flag) = true <->
      skipped o flag = false /\ Copy.formatAssets (Copy.assets o) <> []
      /\ Copy.resolveFrom o = "out" /\ Copy.outdir io = None /\ Copy.outfile io = None).
Proof.
  intros Hwhy.
  destruct (callback_not_reaching_the_assets x o io flag Hwhy) as (Hw & Hf & Hs & Ht).
  split; [exact Hw|]. split; [exact Hf|]. split; [exact Hs|exact Ht].
Qed.

(** An empty [outdir], verbose off: nothing happens. *)
Lemma callback_without_a_directory_writes_nothing_witness :
  outDirResolve plainExternals (plainCopyOptions false false false false "assets/*")
    (builtTo "") = None
  /\ Copy.actions
       (Copy.callback plainExternals (plainCopyOptions false false false false "assets/*")
          (builtTo "") None) = []
  /\ Copy.executedFlag
       (Copy.callback plainExternals (plainCopyOptions false false false false "assets/*")
          (builtTo "") None) = None.
Proof.
  split; [reflexivity|].
  destruct (callback_without_a_directory_writes_nothing plainExternals
              (plainCopyOptions false false false false "assets/*") (builtTo "") None
              (or_intror (or_intror eq_refl))) as (_ & Hflag & Hsilent & _).
  split; [exact (Hsilent eq_refl)|exact Hflag].
Defined.

(** With dryRun the plug-in writes nothing, provided every pattern of a
    pair copied in keep-structure mode has a directory that ends with
    [/**]; pairs copied in merge mode never write in a dry run. *)
Theorem dry_run_writes_nothing_for_deep_patterns (x : Copy.Externals) (o : Copy.Options)
    (io : Copy.InitialOptions) (flag : option string) :
  Copy.dryRun o = true ->
  (forall asset rawFrom,
     In asset (Copy.formatAssets (Copy.assets o)) -> keeping o asset = true ->
     In rawFrom (Copy.fromPaths asset) -> deepPattern x rawFrom = true) ->
  filter Copy.writes (Copy.actions (Copy.callback x o io flag)) = [].
Proof.
  intros Hdry Hdeep. apply callback_keeps_out.
  - intros msg lineBefore. apply verboseLog_writes_nothing.
  - intros d asset Hasset. rewrite copyAsset_writes. unfold assetWrites.
    apply flat_map_nil. intros fromPath _. apply flat_map_nil. intros toPath _.
    rewrite Hdry. destruct (keeping o asset) eqn:Hkeep; [|reflexivity].
    apply flat_map_nil. intros rawFrom Hraw.
    rewrite (Hdeep asset rawFrom Hasset Hkeep Hraw). reflexivity.
Qed.

Lemma dry_run_writes_nothing_for_deep_patterns_witness :
  Copy.dryRun (plainCopyOptions true true true false "assets/**/*") = true
  /\ filter Copy.writes
       (Copy.actions
          (Copy.callback plainExternals (plainCopyOptions true true true false "assets/**/*")
             (builtTo "dist") None)) = [].
Proof.
  split; [reflexivity|].
  apply (dry_run_writes_nothing_for_deep_patterns plainExternals
           (plainCopyOptions true true true false "assets/**/*") (builtTo "dist") None eq_refl).
  intros asset rawFrom [<-|[]] _ [<-|[]]. reflexivity.
Defined.

(** A dry run in keep-structure mode on a pattern without [/**]: the file
    is copied all the same, by the fall-back. *)
Example dry_run_copies_for_a_shallow_pattern :
  filter Copy.writes
    (Copy.actions
       (Copy.callback plainExternals (plainCopyOptions true true false false "assets/*")
          (builtTo "dist") None))
  = [Copy.EnsureDir "/work/dist"; Copy.CopyFile "/work/assets/a.txt" "/work/dist/a.txt"].
Proof. reflexivity. Qed.

(** With [once], after a run that went through at least one asset pair,
    none of its calls to the file system or to [globby] failing, every
    later run, whatever the build options it gets, is skipped: it writes
    nothing, says so only when verbose, and leaves the flag at ['true'].
    A first run that throws before it is through its first pair leaves the
    flag as it was. *)
Theorem once_skips_every_later_run (x : Copy.Externals) (o : Copy.Options)
    (io io' : Copy.InitialOptions) (flag : option string) (d : string) :
  Copy.once o = true ->
  skipped o flag = false ->
  outDirResolve x o io = Some d ->
  Copy.formatAssets (Copy.assets o) <> [] ->
  ((forall k, Copy.writeFailsAt x k = false) ->
   (forall asset, In asset (Copy.formatAssets (Copy.assets o)) ->
                  Copy.globbyFails x (Copy.fromPaths asset) = false) ->
   Copy.callback x o io' (Copy.executedFlag (Copy.callback x o io flag))
   = {| Copy.actions :=
          Copy.verboseLog x ("Copy plugin skipped as option " ++ Copy.white x "once"
                             ++ " set to true")%string (Copy.verbose o) false;
        Copy.executedFlag := Some "true";
        Copy.threw := false |})
  /\ (forall first others,
        Copy.formatAssets (Copy.assets o) = first :: others ->
        Copy.globbyFails x (Copy.fromPaths first) = true
        \/ (Copy.writeFailsAt x 0 = true /\ assetWrites x o d first <> []) ->
        Copy.threw (Copy.callback x o io flag) = true
        /\ Copy.executedFlag (Copy.callback x o io flag) = flag).
Proof.
  intros Honce Hskip Hdir Hsome.
  rewrite (callback_reaching_the_assets x o io flag Hskip Hdir Hsome).
  cbn [Copy.executedFlag Copy.threw]. split.
  - intros Hw Hg.
    destruct (copyAssets_without_failure x o d (Copy.formatAssets (Copy.assets o)) 0 flag
                Hw Hg) as (_ & _ & Hflag).
    rewrite Hflag. destruct (Copy.formatAssets (Copy.assets o)); [congruence|].
    cbn [is_nil]. unfold Copy.callback. rewrite Honce. reflexivity.
  - intros first others -> Hfail. cbn [Copy.copyAssets].
    destruct (Copy.globbyFails x (Copy.fromPaths first)) eqn:Hg; [split; reflexivity|].
    destruct Hfail as [Hno|[Hfirst Hwrites]]; [discriminate Hno|].
    rewrite <- (copyAsset_writes x o d first) in Hwrites.
    rewrite (perform_throws_at_the_first_write x _ 0 Hfirst Hwrites).
    split; reflexivity.
Qed.

Lemma once_skips_every_later_run_witness :
  Copy.once (plainCopyOptions false false false true "assets/*") = true
  /\ Copy.callback plainExternals (plainCopyOptions false false false true "assets/*")
       (builtTo "elsewhere")
       (Copy.executedFlag
          (Copy.callback plainExternals (plainCopyOptions false false false true "assets/*")
             (builtTo "dist") None))
     = {| Copy.actions := []; Copy.executedFlag := Some "true"; Copy.threw := false |}.
Proof.
  split; [reflexivity|].
  refine (proj1 (once_skips_every_later_run plainExternals
                   (plainCopyOptions false false false true "assets/*") (builtTo "dist")
                   (builtTo "elsewhere") None (d := "dist") eq_refl eq_refl eq_refl _)
            (fun _ => eq_refl) (fun _ _ => eq_refl)).
  discriminate.
Defined.

(** A first run whose first copy fails: the callback throws at that call,
    the executed flag is not set, and with [once] the next run is not
    skipped. *)
Example a_failed_copy_leaves_the_flag_unset :
  Copy.callback (failingAt 1) (plainCopyOptions false false false true "assets/**/*")
    (builtTo "dist") None
  = {| Copy.actions :=
         [Copy.EnsureDir "/work/dist"; Copy.CopyFile "/work/assets/a.txt" "/work/dist/a.txt"];
       Copy.executedFlag := None;
       Copy.threw := true |}
  /\ skipped (plainCopyOptions false false false true "assets/**/*")
       (Copy.executedFlag
          (Copy.callback (failingAt 1)
             (plainCopyOptions false false false true "assets/**/*") (builtTo "dist") None))
     = false.
Proof. split; reflexivity. Qed.

(** A copy that fails in the second asset pair: the first pair has set the
    flag already. *)
Example a_later_failure_keeps_the_flag :
  let o :=
    {| Copy.assets :=
         Copy.Many
           [{| Copy.from := Some (Copy.One "assets/*"); Copy.to := Some (Copy.One "static/a.txt");
               Copy.keepStructure := None |};
            {| Copy.from := Some (Copy.One "assets/**/*"); Copy.to := Some (Copy.One "all/x/b.png");
               Copy.keepStructure := None |}];
       Copy.copyOnStart := false; Copy.verbose := false; Copy.once := true;
       Copy.globalKeepStructure := false; Copy.resolveFrom := "out";
       Copy.dryRun := false |} in
  Copy.callback (failingAt 2) o (builtTo "dist") None
  = {| Copy.actions :=
         [Copy.EnsureDir "/work/dist/static";
          Copy.CopyFile "/work/assets/a.txt" "/work/dist/static/a.txt";
          Copy.EnsureDir "/work/dist/all/x"];
       Copy.executedFlag := Some "true";
       Copy.threw := true |}.
Proof. reflexivity. Qed.

(** ** Silence *)

Lemma mergeCopyHandler_prints_nothing (x : Copy.Externals) (outDir f t : string)
    (dry : bool) :
  filter is_print (Copy.mergeCopyHandler x outDir f t false dry) = [].
Proof. unfold Copy.mergeCopyHandler. destruct dry; reflexivity. Qed.

Lemma keepStructureCopyHandler_prints_nothing (x : Copy.Externals) (outDir : string)
    (raws : list string) (g t : string) (dry : bool) :
  filter is_print (Copy.keepStructureCopyHandler x outDir raws g t false dry) = [].
Proof.
  unfold Copy.keepStructureCopyHandler. rewrite filter_flat_map.
  apply flat_map_nil. intros raw _. unfold Copy.keepStructureStep.
  rewrite filter_app. rewrite !verboseLog_silent.
  destruct (Copy.endsWith (Copy.dir (Copy.parse x raw)) "/**"); cbn [negb app];
    [|rewrite filter_app, mergeCopyHandler_prints_nothing];
    destruct dry; reflexivity.
Qed.

(** With verbose off the plug-in prints nothing, whatever it is given:
    no file names, no notice that no file matched a pattern, no notice of
    the fall-back to merge mode, no complaint about the output directory. *)
Theorem callback_is_silent_unless_verbose (x : Copy.Externals) (o : Copy.Options)
    (io : Copy.InitialOptions) (flag : option string) :
  Copy.verbose o = false ->
  filter is_print (Copy.actions (Copy.callback x o io flag)) = [].
Proof.
  intros Hquiet. apply callback_keeps_out.
  - intros msg lineBefore. rewrite Hquiet. reflexivity.
  - intros d asset _.
    unfold Copy.copyAsset. rewrite Hquiet, !verboseLog_silent. cbn [app].
    rewrite filter_app.
    assert (Hnone : filter is_print
                      (if is_nil (Copy.dedupe (Copy.globby x (Copy.fromPaths asset)))
                       then [] else []) = [])
      by (destruct (is_nil _); reflexivity).
    rewrite Hnone. cbn [app]. rewrite filter_flat_map.
    apply flat_map_nil. intros p _. rewrite filter_flat_map.
    apply flat_map_nil. intros t _.
    destruct (Copy.globalKeepStructure o || Copy.keep asset).
    + apply keepStructureCopyHandler_prints_nothing.
    + apply mergeCopyHandler_prints_nothing.
Qed.

Lemma callback_is_silent_unless_verbose_witness :
  Copy.verbose (plainCopyOptions true false false false "assets/*") = false
  /\ filter is_print
       (Copy.actions
          (Copy.callback plainExternals (plainCopyOptions true false false false "assets/*")
             (builtTo "dist") None)) = [].
Proof.
  split; [reflexivity|].
  exact (callback_is_silent_unless_verbose plainExternals
           (plainCopyOptions true false false false "assets/*") (builtTo "dist") None eq_refl).
Defined.

(** ** The defaults *)

(** A plug-in made without [assets] (or with options left out
    altogether) registers on [onEnd] unless copyOnStart says otherwise,
    and its callback never copies, never throws and never touches the
    executed flag, even for a build with neither [outdir] nor [outfile];
    it prints at most the notice that it was skipped. *)
Theorem copy_without_assets_does_nothing (x : Copy.Externals) (p : Copy.PartialOptions)
    (io : Copy.InitialOptions) (flag : option string) :
  Copy.p_assets p = None ->
  filter Copy.writes (Copy.actions (Copy.callback x (Copy.withDefaults p) io flag)) = []
  /\ Copy.threw (Copy.callback x (Copy.withDefaults p) io flag) = false
  /\ Copy.executedFlag (Copy.callback x (Copy.withDefaults p) io flag) = flag
  /\ (Copy.p_copyOnStart p = None -> Copy.applyHook (Copy.withDefaults p) = Copy.onEnd)
  /\ (Copy.p_once p = None ->
      Copy.actions (Copy.callback x (Copy.withDefaults p) io flag) = []).
Proof.
  intros Hassets.
  assert (Hnone : Copy.formatAssets (Copy.assets (Copy.withDefaults p)) = []).
  { unfold Copy.withDefaults; cbn [Copy.assets]. rewrite Hassets. reflexivity. }
  destruct (callback_not_reaching_the_assets x (Copy.withDefaults p) io flag
              (or_intror (or_introl Hnone))) as (Hw & Hflag & _ & Hthrew).
  split; [exact Hw|]. split; [|split; [exact Hflag|split]].
  - destruct (Copy.threw _) eqn:Ht; [|reflexivity].
    destruct (proj1 Hthrew eq_refl) as (_ & Hsome & _). congruence.
  - intros Hstart. unfold Copy.applyHook, Copy.withDefaults; cbn [Copy.copyOnStart].
    rewrite Hstart. reflexivity.
  - intros Honce. unfold Copy.callback. rewrite Hnone.
    unfold Copy.withDefaults at 1; cbn [Copy.once]. rewrite Honce. reflexivity.
Qed.

Lemma copy_without_assets_does_nothing_witness :
  Copy.callback plainExternals
    (Copy.withDefaults
       {| Copy.p_assets := None; Copy.p_copyOnStart := None; Copy.p_verbose := None;
          Copy.p_once := None; Copy.p_keepStructure := None; Copy.p_resolveFrom := None;
          Copy.p_dryRun := None |})
    {| Copy.outdir := None; Copy.outfile := None |} (Some "true")
  = {| Copy.actions := []; Copy.executedFlag := Some "true"; Copy.threw := false |}.
Proof.
  destruct (copy_without_assets_does_nothing plainExternals
              {| Copy.p_assets := None; Copy.p_copyOnStart := None; Copy.p_verbose := None;
                 Copy.p_once := None; Copy.p_keepStructure := None; Copy.p_resolveFrom := None;
                 Copy.p_dryRun := None |}
              {| Copy.outdir := None; Copy.outfile := None |} (Some "true") eq_refl)
    as (_ & Hthrew & Hflag & _ & Hact).
  specialize (Hact eq_refl).
  destruct (Copy.callback _ _ _ _) as [a f t]. cbn in *. subst. reflexivity.
Defined.

(** * The snowpack build runner *)

Section SnowpackFacts.
Variables (Config BuildResult : Type).
Variable loadSnowpackConfig : Snowpack.Schema -> Snowpack.promised Config.
Variable createSnowpackConfig : Snowpack.Schema -> Config.
Variable clearCacheRun : Snowpack.promised unit.
Variable build : Config -> Snowpack.promised BuildResult.
Variables blue green : string -> string.

Let stream (options : Snowpack.Schema) : list Snowpack.step :=
  Snowpack.snowpackBuild loadSnowpackConfig createSnowpackConfig clearCacheRun build
    blue green options.



(** [{success: true}] is sent exactly when a config was obtained, the
    cache was cleared if that was asked for, and the build came to an end
    without failing.  When [clearCache()] is rejected nothing is ever
    sent, neither a value nor an error, and [build] is not called. *)
Theorem snowpack_build_reports_success_only_after_the_build
    (options : Snowpack.Schema) :
  (In (Next {| Snowpack.success := true |}) (Snowpack.sent (stream options)) <->
   exists config result,
     Snowpack.configResolver loadSnowpackConfig createSnowpackConfig options
     = Snowpack.Fulfils config
     /\ (Snowpack.clearCache options = true -> exists u, clearCacheRun = Snowpack.Fulfils u)
     /\ build config = Snowpack.Fulfils result)
  /\ (Snowpack.clearCache options = true ->
      (exists reason, clearCacheRun = Snowpack.Rejects reason) ->
      Snowpack.sent (stream options) = [] \/
      exists e, Snowpack.configResolver loadSnowpackConfig createSnowpackConfig options
                = Snowpack.Rejects e)
  /\ (Snowpack.clearCache options = true ->
      (exists reason, clearCacheRun = Snowpack.Rejects reason) ->
      ~ In Snowpack.BuildCalled (stream options)).
Proof.
  unfold stream, Snowpack.snowpackBuild, Snowpack.inner. split; [|split].
  - destruct (Snowpack.configResolver _ _ _) as [config|e|] eqn:Hc; cbn.
    + destruct (Snowpack.clearCache options) eqn:Hcc; cbn.
      * destruct clearCacheRun as [u|e|] eqn:Hrun; cbn.
        -- destruct (build config) as [r|e|] eqn:Hb; cbn; split.
           ++ intros _. exists config, r. split; [reflexivity|]. split; [eauto|exact Hb].
           ++ auto.
           ++ intros [H|[]]. discriminate H.
           ++ intros (c & r & [= <-] & _ & Hb'). congruence.
           ++ intros [].
           ++ intros (c & r & [= <-] & _ & Hb'). congruence.
        -- split; [intros []|]. intros (c & r & _ & Hu & _).
           destruct (Hu eq_refl) as [u Hu']. discriminate Hu'.
        -- split; [intros []|]. intros (c & r & _ & Hu & _).
           destruct (Hu eq_refl) as [u Hu']. discriminate Hu'.
      * destruct (build config) as [r|e|] eqn:Hb; cbn; split.
        -- intros _. exists config, r. split; [reflexivity|]. split; [discriminate|exact Hb].
        -- auto.
        -- intros [H|[]]. discriminate H.
        -- intros (c & r & [= <-] & _ & Hb'). congruence.
        -- intros [].
        -- intros (c & r & [= <-] & _ & Hb'). congruence.
    + split; [intros [H|[]]; discriminate H|]. intros (c & r & H & _). discriminate H.
    + split; [intros []|]. intros (c & r & H & _). discriminate H.
  - intros Hcc [reason Hrun].
    destruct (Snowpack.configResolver _ _ _) as [config|e|]; cbn; [|eauto|auto].
    rewrite Hcc, Hrun. cbn. auto.
  - intros Hcc [reason Hrun].
    destruct (Snowpack.configResolver _ _ _) as [config|e|]; cbn.
    + rewrite Hcc, Hrun. cbn. intros [H|[H|[H|[]]]]; discriminate H.
    + intros [H|[]]. discriminate H.
    + tauto.
Qed.

End SnowpackFacts.

(** * Pairing after a backend has stopped *)

Lemma zip_responses_of_the_adapters (ext : Collaborators) (options : Options)
    (timeline : list arrival) :
  useMergeCombine options = false ->
  bundler_never_fails timeline = true ->
  responses (baseSubscriber ext options timeline)
  = map (paired (mainOutfile ext options))
      (zipStart ext
       :: combine (values (run (esbuild_only ext) es_init timeline))
                  (values (run (tsc_only ext) tsc_init timeline))).
Proof.
  intros Hzip Hok. unfold baseSubscriber. rewrite Hzip.
  unfold zipBranch. rewrite responses_zip_effects. cbn [values].
  rewrite (zip_run_pairs _ zip_init (adapters_no_errors ext timeline adapters_init Hok) eq_refl).
  unfold zip_pending; cbn [zip_init zipStopped bundlerComplete checkerComplete
                            bundlerBuffer checkerBuffer app].
  rewrite adapters_project_bundler, adapters_project_checker. reflexivity.
Qed.

(** In pairing mode, once the type-checker stream has ended, by
    completing or by failing, the combined stream never carries more than
    the starting value and one result per result the type-checker adapter
    had emitted by then, however many rebuilds the bundler reports
    afterwards: those rebuilds wait for a partner that never comes. *)
Theorem pairing_stops_reporting_after_the_type_checker (ext : Collaborators)
    (options : Options) (timeline later : list arrival) :
  useMergeCombine options = false ->
  bundler_never_fails (timeline ++ later) = true ->
  tscStopped (state_after (tsc_only ext) tsc_init timeline) = true ->
  length (responses (baseSubscriber ext options (timeline ++ later)))
  <= 1 + length (values (run (tsc_only ext) tsc_init timeline)).
Proof.
  intros Hzip Hok Hstopped.
  rewrite (zip_responses_of_the_adapters ext options (timeline ++ later) Hzip Hok).
  rewrite length_map. cbn [length]. rewrite length_combine.
  rewrite (run_app (tsc_only ext) timeline later tsc_init).
  rewrite (proj1 (tsc_stopped_absorbs ext later _ Hstopped)), app_nil_r.
  lia.
Qed.

(** The type checker fails at once; the bundler then rebuilds three
    times: two values in all, the start and the pair with the failure. *)
Lemma pairing_stops_reporting_after_the_type_checker_witness :
  let timeline := [FromTSC "9:00:00 AM" (Error "tsc crashed")] in
  let later :=
    [FromESBuild "9:00:01 AM" (Next built); FromESBuild "9:00:05 AM" (Next built);
     FromESBuild "9:00:09 AM" (Next built)] in
  tscStopped (state_after (tsc_only plain) tsc_init timeline) = true
  /\ length (responses (baseSubscriber plain (pairing true) (timeline ++ later))) <= 2.
Proof.
  intros timeline later. split; [reflexivity|].
  exact (pairing_stops_reporting_after_the_type_checker plain (pairing true) timeline later
           eq_refl eq_refl eq_refl).
Defined.

Example pairing_after_a_crash :
  emitted (baseSubscriber plain (pairing true)
             [FromTSC "9:00:00 AM" (Error "tsc crashed");
              FromESBuild "9:00:01 AM" (Next built);
              FromESBuild "9:00:05 AM" (Next built)])
  = [Next {| build_success := true; outfile := Some "dist/app/main.js" |};
     Next {| build_success := false; outfile := Some "dist/app/main.js" |};
     Complete].
Proof. reflexivity. Qed.
